(** * Hebrew Book Librarian: the scan pipeline, embedded and verified

    The development embeds three source files of the repository:

    - [src/BookScanner.tsx]: the orchestrator [handleScanCover], and
      the page the component returns, as far as its guards and the
      expressions of the card decide what is shown;
    - [utils/fetchBookData.ts]: [testAI], [fetchBookData] and
      [fetchCoverWithRetry];
    - the OCR cloud function [index.js]: [performOcr],
      [validateRequest] and [ocrHandler].

    JavaScript strings are sequences of UTF-16 code units, values are
    the values [JSON.parse] and [response.json()] can produce, and an
    [async] function is a computation over the trace of the requests it
    issues that returns, throws, or never settles. *)

From Stdlib Require Import List NArith Arith Bool Lia.
From Stdlib Require Import Ascii String.
Import ListNotations.

(* ===================================================================== *)
(** * Part I.  Definitions                                                *)
(* ===================================================================== *)

(** ** JavaScript strings *)

Module JsString.

Local Open Scope N_scope.

(** A string is the list of its UTF-16 code units, so that [length]
    is the [.length] of the source. *)
Definition jsstring := list N.

(** Code units of one Unicode scalar value. *)
Definition utf16_units (cp : N) : jsstring :=
  if cp <? 0x10000 then [cp]
  else [0xD800 + (cp - 0x10000) / 0x400; 0xDC00 + (cp - 0x10000) mod 0x400].

(** Literals of this file are written as UTF-8 text; [utf8_decode]
    turns their bytes into code units.  [pending] counts the
    continuation bytes still expected and [acc] holds the bits read. *)
Fixpoint utf8_decode (pending : nat) (acc : N) (bs : list N) : jsstring :=
  match bs with
  | [] => []
  | b :: bs' =>
      match pending with
      | O =>
          if b <? 0x80 then b :: utf8_decode 0 0 bs'
          else if b <? 0xE0 then utf8_decode 1 (N.land b 0x1F) bs'
          else if b <? 0xF0 then utf8_decode 2 (N.land b 0x0F) bs'
          else utf8_decode 3 (N.land b 0x07) bs'
      | S O => utf16_units (acc * 64 + N.land b 0x3F) ++ utf8_decode 0 0 bs'
      | S p => utf8_decode p (acc * 64 + N.land b 0x3F) bs'
      end
  end.

Definition js (s : string) : jsstring :=
  utf8_decode 0 0 (map (fun a => N_of_ascii a) (list_ascii_of_string s)).

(** A literal in which the apostrophe stands for the quotation mark
    and the vertical bar for a line feed. *)
Definition jsq (s : string) : jsstring :=
  map (fun c => if c =? 39 then 34 else if c =? 124 then 10 else c) (js s).

Definition LF : N := 10.
Definition SPACE : N := 32.
Definition BACKTICK : N := 96.

(** [WhiteSpace] and [LineTerminator] of ECMA-262: what
    [String.prototype.trim] strips. *)
Definition is_white_space (c : N) : bool :=
  (c =? 0x9) || (c =? 0xA) || (c =? 0xB) || (c =? 0xC) || (c =? 0xD)
  || (c =? 0x20) || (c =? 0xA0) || (c =? 0x1680)
  || ((0x2000 <=? c) && (c <=? 0x200A))
  || (c =? 0x2028) || (c =? 0x2029) || (c =? 0x202F) || (c =? 0x205F)
  || (c =? 0x3000) || (c =? 0xFEFF).

Fixpoint trimStart (s : jsstring) : jsstring :=
  match s with
  | [] => []
  | c :: s' => if is_white_space c then trimStart s' else s
  end.

Definition trimEnd (s : jsstring) : jsstring := rev (trimStart (rev s)).

(** [s.trim()] *)
Definition trim (s : jsstring) : jsstring := trimEnd (trimStart s).

(** [s.split(sep)] for a separator of one code unit; the empty string
    splits into one empty piece. *)
Fixpoint split (sep : N) (s : jsstring) : list jsstring :=
  match s with
  | [] => [[]]
  | c :: s' =>
      if c =? sep then [] :: split sep s'
      else match split sep s' with
           | [] => [[c]]
           | piece :: pieces => (c :: piece) :: pieces
           end
  end.

(** [pieces.join(sep)] *)
Fixpoint join (sep : jsstring) (pieces : list jsstring) : jsstring :=
  match pieces with
  | [] => []
  | [piece] => piece
  | piece :: rest => piece ++ sep ++ join sep rest
  end.

Fixpoint starts_with (pat s : jsstring) : bool :=
  match pat, s with
  | [], _ => true
  | _ :: _, [] => false
  | a :: pat', b :: s' => (a =? b) && starts_with pat' s'
  end.

(** [s.replace(/pat/g, rep)] for a literal, non-empty [pat]: every
    match, left to right, without overlap.  [skip] is the number of
    code units of the current match still to be dropped. *)
Fixpoint replace_global_from (skip : nat) (pat rep s : jsstring) : jsstring :=
  match s with
  | [] => []
  | c :: s' =>
      match skip with
      | S k => replace_global_from k pat rep s'
      | O =>
          if starts_with pat s
          then rep ++ replace_global_from (List.length pat - 1) pat rep s'
          else c :: replace_global_from 0 pat rep s'
      end
  end.

Definition replace_global (pat rep s : jsstring) : jsstring :=
  replace_global_from 0 pat rep s.

(** [s.replace(pat, rep)] for a string [pat]: the first occurrence
    only, wherever it is. *)
Fixpoint replace_first (pat rep s : jsstring) : jsstring :=
  match s with
  | [] => if starts_with pat [] then rep else []
  | c :: s' =>
      if starts_with pat s then rep ++ skipn (List.length pat) s
      else c :: replace_first pat rep s'
  end.

(** [s.includes(pat)] *)
Fixpoint includes (pat s : jsstring) : bool :=
  starts_with pat s ||
  match s with
  | [] => false
  | _ :: s' => includes pat s'
  end.

Fixpoint eqb (a b : jsstring) : bool :=
  match a, b with
  | [], [] => true
  | x :: a', y :: b' => (x =? y) && eqb a' b'
  | _, _ => false
  end.

(** The first and the second code unit of a surrogate pair. *)
Definition is_high_surrogate (c : N) : bool := (0xD800 <=? c) && (c <=? 0xDBFF).

Definition is_low_surrogate (c : N) : bool := (0xDC00 <=? c) && (c <=? 0xDFFF).

(** Every surrogate of the string stands in a pair: the strings whose
    code points [encodeURIComponent] can encode as UTF-8. *)
Fixpoint well_formed (s : jsstring) : bool :=
  match s with
  | [] => true
  | c :: r =>
      if is_high_surrogate c then
        match r with
        | d :: r' => is_low_surrogate d && well_formed r'
        | [] => false
        end
      else negb (is_low_surrogate c) && well_formed r
  end.

(** Decimal digits of an array index, as a property key. *)
Fixpoint decimal_digits (fuel : nat) (n : N) (acc : jsstring) : jsstring :=
  match fuel with
  | O => acc
  | S fuel' =>
      let acc' := (48 + n mod 10) :: acc in
      if n <? 10 then acc' else decimal_digits fuel' (n / 10) acc'
  end.

Definition index_key (i : nat) : jsstring :=
  decimal_digits (S i) (N.of_nat i) [].

End JsString.
Export JsString.


(** ** JavaScript values *)

Module JsValue.

Local Open Scope N_scope.

(** The values that [JSON.parse] and [response.json()] produce, and
    [undefined].  A number keeps the decimal literal it was read
    from: the code only ever tests a number for truthiness, which
    [literal_is_zero] decides from the literal.  An object is the list of its own
    properties in the order of their creation, each key bound once;
    objects are compared as these lists. *)
#[warnings="-register-all"]
Inductive JsValue : Type :=
| JUndefined
| JNull
| JBool (b : bool)
| JNum (literal : jsstring)
| JStr (s : jsstring)
| JArr (elems : list JsValue)
| JObj (props : list (jsstring * JsValue)).

(** What a [throw] or a rejected promise carries. *)
Inductive Exn : Type :=
| Failure (message : jsstring)  (* [new Error(message)], a rejected [fetch] or body read *)
| TypeError                     (* member of [undefined]/[null], a call of a missing
                                   method, or a value without a string form *)
| SyntaxError                   (* [JSON.parse] *)
| URIError.                     (* [encodeURIComponent] of a surrogate without its pair *)

Definition is_decimal (c : N) : bool := (48 <=? c) && (c <=? 57).

(** The digits at the head of [s], read as a number. *)
Fixpoint leading_number (acc : N) (s : jsstring) : N :=
  match s with
  | c :: r => if is_decimal c then leading_number (acc * 10 + (c - 48)) r else acc
  | [] => acc
  end.

(** The mantissa of a literal: its digits read as one integer (the
    sign and the point passed over), the number of digits after the
    point, and the exponent part (from [e] or [E]) that follows. *)
Fixpoint mantissa (lit : jsstring) (digits : N) (point : bool) (places : N)
  : N * N * jsstring :=
  match lit with
  | [] => (digits, places, [])
  | c :: r =>
      if is_decimal c
      then mantissa r (digits * 10 + (c - 48)) point (if point then places + 1 else places)
      else if c =? 46 then mantissa r digits true places
      else if c =? 45 then mantissa r digits point places
      else (digits, places, lit)
  end.

(** The exponent part: whether it is negative, and its size. *)
Definition exponent (part : jsstring) : bool * N :=
  match part with
  | _ :: c :: r =>
      if c =? 45 then (true, leading_number 0 r)
      else if c =? 43 then (false, leading_number 0 r)
      else (false, leading_number 0 (c :: r))
  | _ => (false, 0)
  end.

(** The Number a literal denotes is zero when its mantissa is zero, or
    when its value [m * 10^-down] is at most [2^-1075], half of the
    smallest Number above zero: the nearest Number is then zero (at the
    half-way point the even neighbour, which is zero).  A value too
    large for a Number is [Infinity], which is not zero. *)
Definition literal_is_zero (lit : jsstring) : bool :=
  let '(m, places, part) := mantissa lit 0 false 0 in
  let '(negative, e) := exponent part in
  let down := if negative then places + e else places - e in
  (m =? 0) || (m * 2 ^ 1075 <=? 10 ^ down).

(** [ToBoolean]: what [if (v)], [!v], [v && w], [v || w] and [v ? a : b]
    test. *)
Definition truthy (v : JsValue) : bool :=
  match v with
  | JUndefined | JNull => false
  | JBool b => b
  | JNum lit => negb (literal_is_zero lit)
  | JStr s => match s with [] => false | _ => true end
  | JArr _ | JObj _ => true
  end.

Definition nullish (v : JsValue) : bool :=
  match v with
  | JUndefined | JNull => true
  | _ => false
  end.

Fixpoint lookup (k : jsstring) (props : list (jsstring * JsValue)) : JsValue :=
  match props with
  | [] => JUndefined
  | (k', v) :: rest => if JsString.eqb k k' then v else lookup k rest
  end.

(** Assignment to a property: an existing key keeps its place. *)
Fixpoint set_prop (k : jsstring) (v : JsValue) (props : list (jsstring * JsValue))
  : list (jsstring * JsValue) :=
  match props with
  | [] => [(k, v)]
  | (k', v') :: rest =>
      if JsString.eqb k k' then (k, v) :: rest else (k', v') :: set_prop k v rest
  end.

Fixpoint digits_value (acc : N) (k : jsstring) : option N :=
  match k with
  | [] => Some acc
  | c :: r =>
      if (48 <=? c) && (c <=? 57) then digits_value (acc * 10 + (c - 48)) r
      else None
  end.

(** A key that is a canonical array index. *)
Definition array_index (k : jsstring) : option nat :=
  match k with
  | [] => None
  | [c] => if (48 <=? c) && (c <=? 57) then Some (N.to_nat (c - 48)) else None
  | c :: _ => if c =? 48 then None else option_map N.to_nat (digits_value 0 k)
  end.

(** [v[k]] on a value that is neither [undefined] nor [null]: own
    data properties.  Inherited members ([length], methods) are not
    read through this function by the embedded code. *)
Definition get (v : JsValue) (k : jsstring) : JsValue :=
  match v with
  | JObj props => lookup k props
  | JArr elems =>
      match array_index k with
      | Some i => nth i elems JUndefined
      | None => JUndefined
      end
  | JStr s =>
      match array_index k with
      | Some i => match nth_error s i with
                  | Some c => JStr [c]
                  | None => JUndefined
                  end
      | None => JUndefined
      end
  | _ => JUndefined
  end.

(** [v.k]: throws on [undefined] and [null]. *)
Definition member (v : JsValue) (k : jsstring) : Exn + JsValue :=
  if nullish v then inl TypeError else inr (get v k).

(** [v?.k] *)
Definition opt_member (v : JsValue) (k : jsstring) : JsValue :=
  if nullish v then JUndefined else get v k.

(** [v?.k1?.k2 ... ?.kn] *)
Definition opt_chain (v : JsValue) (path : list jsstring) : JsValue :=
  fold_left opt_member path v.

Fixpoint indexed {A : Type} (f : A -> JsValue) (i : nat) (l : list A)
  : list (jsstring * JsValue) :=
  match l with
  | [] => []
  | x :: l' => (index_key i, f x) :: indexed f (S i) l'
  end.

(** The own enumerable properties that [{ ...v }] copies. *)
Definition own_props (v : JsValue) : list (jsstring * JsValue) :=
  match v with
  | JObj props => props
  | JArr elems => indexed (fun e => e) 0 elems
  | JStr s => indexed (fun c => JStr [c]) 0 s
  | _ => []
  end.

(** [v || w] *)
Definition or_else (v w : JsValue) : JsValue := if truthy v then v else w.

(** [k] is an own property. *)
Definition has_own (k : jsstring) (props : list (jsstring * JsValue)) : bool :=
  existsb (fun p => JsString.eqb k (fst p)) props.

(** [ToString(v)] returns.  It throws a [TypeError] for an object
    whose own property [toString] hides the inherited method: no value
    of this type is callable, and [valueOf], own or inherited, gives
    no primitive either.  An array is converted by [join], which
    converts each element that is neither [undefined] nor [null] in
    turn. *)
Fixpoint stringifiable (v : JsValue) : bool :=
  match v with
  | JObj props => negb (has_own (js "toString") props)
  | JArr elems => forallb stringifiable elems
  | _ => true
  end.

(** The string [ToString(v)] is well formed, for a [v] that has one:
    it is made of the strings in [v], which an array separates by
    commas, and of text without surrogates for the other values. *)
Fixpoint well_formed_text (v : JsValue) : bool :=
  match v with
  | JStr s => well_formed s
  | JArr elems => forallb well_formed_text elems
  | _ => true
  end.

End JsValue.
Export JsValue.

(** ** [JSON.parse] *)

Module Json.

Local Open Scope N_scope.

Definition is_json_ws (c : N) : bool :=
  (c =? 0x20) || (c =? 0x9) || (c =? 0xA) || (c =? 0xD).

Fixpoint skip_ws (s : jsstring) : jsstring :=
  match s with
  | [] => []
  | c :: s' => if is_json_ws c then skip_ws s' else s
  end.

Definition is_digit (c : N) : bool := (48 <=? c) && (c <=? 57).

Definition hex_value (c : N) : option N :=
  if is_digit c then Some (c - 48)
  else if (97 <=? c) && (c <=? 102) then Some (c - 87)
  else if (65 <=? c) && (c <=? 70) then Some (c - 55)
  else None.

Definition hex4 (a b c d : N) : option N :=
  match hex_value a, hex_value b, hex_value c, hex_value d with
  | Some x, Some y, Some z, Some w => Some (((x * 16 + y) * 16 + z) * 16 + w)
  | _, _, _, _ => None
  end.

(** The character after a backslash, but for [u]. *)
Definition escape_char (e : N) : option N :=
  if e =? 34 then Some 34            (* quotation mark *)
  else if e =? 92 then Some 92       (* reverse solidus *)
  else if e =? 47 then Some 47       (* solidus *)
  else if e =? 98 then Some 8        (* b: backspace *)
  else if e =? 102 then Some 12      (* f: form feed *)
  else if e =? 110 then Some 10      (* n: line feed *)
  else if e =? 114 then Some 13      (* r: carriage return *)
  else if e =? 116 then Some 9       (* t: tab *)
  else None.

Definition push (c : N) (r : option (jsstring * jsstring))
  : option (jsstring * jsstring) :=
  match r with
  | Some (body, rest) => Some (c :: body, rest)
  | None => None
  end.

(** A string after its opening quote: the decoded body and what
    follows the closing quote. *)
Fixpoint parse_string_body (s : jsstring) : option (jsstring * jsstring) :=
  match s with
  | [] => None
  | c :: s' =>
      if c =? 34 then Some ([], s')
      else if c <? 0x20 then None
      else if c =? 92 then
        match s' with
        | [] => None
        | e :: s'' =>
            if e =? 117 then
              match s'' with
              | h1 :: h2 :: h3 :: h4 :: s3 =>
                  match hex4 h1 h2 h3 h4 with
                  | Some u => push u (parse_string_body s3)
                  | None => None
                  end
              | _ => None
              end
            else
              match escape_char e with
              | Some u => push u (parse_string_body s'')
              | None => None
              end
        end
      else push c (parse_string_body s')
  end.

Fixpoint take_digits (s : jsstring) : jsstring * jsstring :=
  match s with
  | [] => ([], [])
  | c :: s' =>
      if is_digit c then let (ds, rest) := take_digits s' in (c :: ds, rest)
      else ([], s)
  end.

(** [int]: a zero, or a digit other than zero and the digits after it. *)
Definition parse_int (s : jsstring) : option (jsstring * jsstring) :=
  match s with
  | [] => None
  | c :: r =>
      if c =? 48 then Some ([48], r)
      else if is_digit c then let (ds, r') := take_digits r in Some (c :: ds, r')
      else None
  end.

(** [frac?]: a point must be followed by a digit. *)
Definition parse_frac (s : jsstring) : option (jsstring * jsstring) :=
  match s with
  | c :: r =>
      if c =? 46 then
        match take_digits r with
        | ([], _) => None
        | (ds, r') => Some (46 :: ds, r')
        end
      else Some ([], s)
  | [] => Some ([], s)
  end.

(** [exp?]: [e] or [E], a sign or none, and at least one digit. *)
Definition parse_exp (s : jsstring) : option (jsstring * jsstring) :=
  match s with
  | e :: r =>
      if (e =? 101) || (e =? 69) then
        let (esign, r1) := match r with
                           | x :: r' =>
                               if (x =? 43) || (x =? 45) then ([x], r')
                               else ([], r)
                           | [] => ([], r)
                           end in
        match take_digits r1 with
        | ([], _) => None
        | (ds, r') => Some (e :: esign ++ ds, r')
        end
      else Some ([], s)
  | [] => Some ([], s)
  end.

(** [-? int frac? exp?], returned as the literal read. *)
Definition parse_number (s : jsstring) : option (jsstring * jsstring) :=
  let (sign, s1) := match s with
                    | c :: r => if c =? 45 then ([45], r) else ([], s)
                    | [] => ([], s)
                    end in
  match parse_int s1 with
  | None => None
  | Some (int_lit, s2) =>
      match parse_frac s2 with
      | None => None
      | Some (frac_lit, s3) =>
          match parse_exp s3 with
          | None => None
          | Some (exp_lit, s4) => Some (sign ++ int_lit ++ frac_lit ++ exp_lit, s4)
          end
      end
  end.

(** The token [c], after white space: what follows it. *)
Definition expect (c : N) (s : jsstring) : option jsstring :=
  match skip_ws s with
  | x :: r => if x =? c then Some r else None
  | [] => None
  end.

(** [true], [false], [null] or a number, at the head of [s]. *)
Definition parse_scalar (s : jsstring) : option (JsValue * jsstring) :=
  if starts_with (js "true") s then Some (JBool true, skipn 4 s)
  else if starts_with (js "false") s then Some (JBool false, skipn 5 s)
  else if starts_with (js "null") s then Some (JNull, skipn 4 s)
  else
    match parse_number s with
    | Some (lit, r) => Some (JNum lit, r)
    | None => None
    end.

Definition Parser : Type := jsstring -> option (JsValue * jsstring).

(** One value, with the white space before it; [elements] and
    [members] read what follows the opening bracket or brace. *)
Definition value_step (elements members : Parser) : Parser :=
  fun s =>
    match expect 123 s with
    | Some r =>
        match expect 125 r with
        | Some r' => Some (JObj [], r')
        | None => members r
        end
    | None =>
        match expect 91 s with
        | Some r =>
            match expect 93 r with
            | Some r' => Some (JArr [], r')
            | None => elements r
            end
        | None =>
            match expect 34 s with
            | Some r =>
                match parse_string_body r with
                | Some (body, r') => Some (JStr body, r')
                | None => None
                end
            | None => parse_scalar (skip_ws s)
            end
        end
    end.

(** An element, then a comma and the other elements, or the closing
    bracket. *)
Definition elements_step (value : Parser) (others : list JsValue -> Parser)
    (acc : list JsValue) : Parser :=
  fun s =>
    match value s with
    | None => None
    | Some (v, r) =>
        match expect 44 r with
        | Some r' => others (acc ++ [v]) r'
        | None =>
            match expect 93 r with
            | Some r' => Some (JArr (acc ++ [v]), r')
            | None => None
            end
        end
    end.

(** A key, a colon and a value, then a comma and the other members,
    or the closing brace. *)
Definition members_step (value : Parser)
    (others : list (jsstring * JsValue) -> Parser)
    (acc : list (jsstring * JsValue)) : Parser :=
  fun s =>
    match expect 34 s with
    | None => None
    | Some r =>
        match parse_string_body r with
        | None => None
        | Some (k, r1) =>
            match expect 58 r1 with
            | None => None
            | Some r2 =>
                match value r2 with
                | None => None
                | Some (v, r3) =>
                    match expect 44 r3 with
                    | Some r4 => others (set_prop k v acc) r4
                    | None =>
                        match expect 125 r3 with
                        | Some r4 => Some (JObj (set_prop k v acc), r4)
                        | None => None
                        end
                    end
                end
            end
        end
    end.

(** The grammar unfolded [fuel] times.  Between two calls of
    [parse_value] on the way down at least one code unit is consumed,
    and [parse_elements] and [parse_members] stand one call below
    [parse_value]: [2 * length s + 2] units of fuel are enough, and
    more fuel changes nothing ([parse_fuel_enough] below). *)
Fixpoint parse_value (fuel : nat) (s : jsstring) : option (JsValue * jsstring) :=
  match fuel with
  | O => None
  | S fuel' =>
      value_step (fun r => parse_elements fuel' [] r)
                 (fun r => parse_members fuel' [] r) s
  end

with parse_elements (fuel : nat) (acc : list JsValue) (s : jsstring)
  : option (JsValue * jsstring) :=
  match fuel with
  | O => None
  | S fuel' =>
      elements_step (fun r => parse_value fuel' r)
                    (fun acc' r => parse_elements fuel' acc' r) acc s
  end

with parse_members (fuel : nat) (acc : list (jsstring * JsValue)) (s : jsstring)
  : option (JsValue * jsstring) :=
  match fuel with
  | O => None
  | S fuel' =>
      members_step (fun r => parse_value fuel' r)
                   (fun acc' r => parse_members fuel' acc' r) acc s
  end.

(** [JSON.parse(text)]: [None] stands for the [SyntaxError] thrown
    on text that is not one JSON value. *)
Definition parse (text : jsstring) : option JsValue :=
  match parse_value (2 * List.length text + 2) text with
  | Some (v, rest) =>
      match skip_ws rest with
      | [] => Some v
      | _ :: _ => None
      end
  | None => None
  end.

End Json.

(** ** Asynchronous computations *)

Module Async.

(** The requests the application sends, by endpoint, each with the
    part of it that the code computes. *)
Inductive Request : Type :=
| OcrRequest (image : JsValue)          (* POST [{ image: base64 }] to [OCR_FUNCTION_URL] *)
| HeartbeatRequest                      (* [testAI]: the scripted prompt *)
| InferenceRequest (ocrText : jsstring) (* [fetchBookData]: the prompt around [ocrLines.join] *)
| CoverRequest (title : JsValue).       (* GET [volumes?q=intitle:<title>&maxResults=1] *)

(** What a run does that can be observed from outside. *)
Inductive Event : Type :=
| Fetch (req : Request)
| Sleep (ms : N)                               (* [setTimeout(resolve, ms)], awaited *)
| ConsoleError (label : jsstring) (e : Exn).

Definition Trace := list Event.

Definition is_cover_request (ev : Event) : bool :=
  match ev with
  | Fetch (CoverRequest _) => true
  | _ => false
  end.

(** A [Response]: its status and what [response.json()] settles to. *)
Record Response : Type := mkResponse {
  status : N;
  json : Exn + JsValue
}.

(** [fetch] rejects or resolves to a response: a request settles, the
    transport has time limits of its own. *)
Definition FetchOutcome : Type := (Exn + Response)%type.

(** An awaited promise is fulfilled, rejected, or never settled. *)
Inductive Outcome (A : Type) : Type :=
| Returned (a : A)
| Threw (e : Exn)
| Pending.

Arguments Returned {A} a.
Arguments Threw {A} e.
Arguments Pending {A}.

(** A computation over a state [S]; what was done before a [throw]
    or a suspension stays done. *)
Definition Comp (S A : Type) : Type := S -> Outcome A * S.

Definition ret {S A : Type} (a : A) : Comp S A := fun s => (Returned a, s).

Definition throw {S A : Type} (e : Exn) : Comp S A := fun s => (Threw e, s).

Definition never {S A : Type} : Comp S A := fun s => (Pending, s).

Definition bind {S A B : Type} (c : Comp S A) (k : A -> Comp S B) : Comp S B :=
  fun s =>
    match c s with
    | (Returned a, s') => k a s'
    | (Threw e, s') => (Threw e, s')
    | (Pending, s') => (Pending, s')
    end.

(** [try { c } catch (e) { h e }] *)
Definition try_catch {S A : Type} (c : Comp S A) (h : Exn -> Comp S A) : Comp S A :=
  fun s =>
    match c s with
    | (Threw e, s') => h e s'
    | r => r
    end.

(** [try { c } finally { f }] *)
Definition try_finally {S A : Type} (c : Comp S A) (f : Comp S unit) : Comp S A :=
  fun s =>
    match c s with
    | (Returned a, s') => bind f (fun _ => ret a) s'
    | (Threw e, s') => bind f (fun _ => throw e) s'
    | (Pending, s') => (Pending, s')
    end.

(** A value that is there or whose computation threw. *)
Definition of_sum {S A : Type} (r : Exn + A) : Comp S A :=
  match r with
  | inl e => throw e
  | inr a => ret a
  end.

(** The computations of [fetchBookData.ts] act on the trace alone. *)
Definition Async (A : Type) : Type := Comp Trace A.

Definition emit (ev : Event) : Async unit := fun tr => (Returned tt, tr ++ [ev]).

(** The network: the outcome of a request, given what happened
    before it. *)
Definition Network : Type := Trace -> Request -> FetchOutcome.

(** [await fetch(...)] *)
Definition fetch (net : Network) (req : Request) : Async Response :=
  fun tr =>
    match net tr req with
    | inl e => (Threw e, tr ++ [Fetch req])
    | inr res => (Returned res, tr ++ [Fetch req])
    end.

(** [await response.json()] *)
Definition response_json (res : Response) : Async JsValue := of_sum (json res).

(** [await new Promise(resolve => setTimeout(resolve, ms))] *)
Definition sleep (ms : N) : Async unit := emit (Sleep ms).

(** [console.error(label, e)] *)
Definition console_error (label : jsstring) (e : Exn) : Async unit :=
  emit (ConsoleError label e).

End Async.
Export Async.

Declare Scope comp_scope.
Delimit Scope comp_scope with comp.
Notation "x <- c ;; k" := (bind c (fun x => k))
  (at level 61, c at next level, right associativity) : comp_scope.
Notation "c ;; k" := (bind c (fun _ => k))
  (at level 61, right associativity) : comp_scope.
Local Open Scope comp_scope.

(** ** [utils/fetchBookData.ts] *)

Module FetchBookData.

(** What [testAI] resolves to: [text || "No response"], or the
    template [`AI Offline: ${err.message}`] kept by its argument. *)
Inductive Heartbeat : Type :=
| HeartbeatText (v : JsValue)
| HeartbeatOffline (err : Exn).

(** [?.[0]?.content?.parts?.[0]?.text], applied to [data.candidates]. *)
Definition candidate_text_path : list jsstring :=
  [js "0"; js "content"; js "parts"; js "0"; js "text"].

Definition testAI (net : Network) : Async Heartbeat :=
  try_catch
    (response <- fetch net HeartbeatRequest ;;
     data <- response_json response ;;
     candidates <- of_sum (member data (js "candidates")) ;;
     ret (HeartbeatText
            (or_else (opt_chain candidates candidate_text_path)
                     (JStr (js "No response")))))
    (fun err => ret (HeartbeatOffline err)).

(** A method of [String.prototype] called on [v]: a [TypeError]
    unless [v] is a string. *)
Definition as_string {S : Type} (v : JsValue) : Comp S jsstring :=
  match v with
  | JStr s => ret s
  | _ => throw TypeError
  end.

(** [JSON.parse(text)] *)
Definition JSON_parse {S : Type} (text : jsstring) : Comp S JsValue :=
  match Json.parse text with
  | Some v => ret v
  | None => throw SyntaxError
  end.

(** [resultText.replace(/```json/g, "").replace(/```/g, "").trim()] *)
Definition cleanJson (resultText : jsstring) : jsstring :=
  trim (replace_global (js "```") [] (replace_global (js "```json") [] resultText)).

(** [?.[0]?.volumeInfo?.imageLinks?.thumbnail], applied to [data.items]. *)
Definition thumbnail_path : list jsstring :=
  [js "0"; js "volumeInfo"; js "imageLinks"; js "thumbnail"].

(** [encodeURIComponent(v)]: [ToString(v)], then the encoding, which
    throws a [URIError] for a surrogate that is not in a pair.  The
    encoded text is kept by the value it encodes. *)
Definition encodeURIComponent {S : Type} (v : JsValue) : Comp S unit :=
  if negb (stringifiable v) then throw TypeError
  else if negb (well_formed_text v) then throw URIError
  else ret tt.

(** How one turn of the [for] loop ends. *)
Inductive Turn : Type :=
| Continue
| Return (v : JsValue).

(** The body of the loop of [fetchCoverWithRetry]: the address of the
    request is built inside the [try], before the request is sent. *)
Definition cover_attempt (net : Network) (title : JsValue) : Async Turn :=
  try_catch
    (encodeURIComponent title ;;
     res <- fetch net (CoverRequest title) ;;
     if (status res =? 429)%N then
       sleep 1000 ;;
       ret Continue
     else
       data <- response_json res ;;
       items <- of_sum (member data (js "items")) ;;
       let thumbnail := opt_chain items thumbnail_path in
       if truthy thumbnail then
         t <- as_string thumbnail ;;
         ret (Return (JStr (replace_first (js "http:") (js "https:") t)))
       else ret (Return JUndefined))
    (fun _ => ret Continue).

(** [for (let i = 0; i < retries; i++) { ... } return undefined;]
    with [remaining = retries - i]. *)
Fixpoint cover_loop (net : Network) (title : JsValue) (remaining : nat)
  : Async JsValue :=
  match remaining with
  | O => ret JUndefined
  | S remaining' =>
      turn <- cover_attempt net title ;;
      match turn with
      | Continue => cover_loop net title remaining'
      | Return v => ret v
      end
  end.

Definition fetchCoverWithRetry (net : Network) (title : JsValue) (retries : nat)
  : Async JsValue :=
  cover_loop net title retries.

(** The default of the parameter [retries]. *)
Definition default_retries : nat := 2.

Definition fetchBookData (net : Network) (ocrLines : list jsstring) : Async JsValue :=
  try_catch
    (response <- fetch net (InferenceRequest (join [LF] ocrLines)) ;;
     data <- response_json response ;;
     candidates <- of_sum (member data (js "candidates")) ;;
     let resultText := opt_chain candidates candidate_text_path in
     if negb (truthy resultText) then ret JUndefined
     else
       text <- as_string resultText ;;
       bookData <- JSON_parse (cleanJson text) ;;
       title <- of_sum (member bookData (js "title")) ;;
       coverUri <- fetchCoverWithRetry net (or_else title (JStr [])) default_retries ;;
       ret (JObj (set_prop (js "coverUri") coverUri (own_props bookData))))
    (fun error =>
       console_error (js "Agent Logic Error:") error ;;
       ret JUndefined).

End FetchBookData.
Export FetchBookData.

(** ** The OCR cloud function, [index.js] *)

Module OcrFunction.

(** What the code reads of the Vision API result:
    [result.fullTextAnnotation] and its [text]. *)
Record TextAnnotation : Type := mkTextAnnotation {
  text : jsstring
}.

Record AnnotateImageResponse : Type := mkAnnotateImageResponse {
  fullTextAnnotation : option TextAnnotation
}.

(** [line => line.trim().length > 1] *)
Definition keeps (line : jsstring) : bool := 1 <? List.length (trim line).

(** [performOcr], from the result of [visionClient.annotateImage]. *)
Definition performOcr (result : AnnotateImageResponse) : jsstring :=
  match fullTextAnnotation result with
  | None => []
  | Some annotation =>
      match text annotation with
      | [] => []
      | _ :: _ =>
          let lines :=
            join [SPACE] (firstn 3 (filter keeps (split LF (text annotation)))) in
          trim lines
      end
  end.

(** The body [ocrHandler] sends with status 200. *)
Definition success_body (extractedText : jsstring) : JsValue :=
  JObj [(js "success", JBool true);
        (js "text", JStr extractedText);
        (js "message",
         JStr (match extractedText with
               | [] => js "No text detected in the image."
               | _ :: _ => js "Text successfully extracted."
               end))].

End OcrFunction.

(** ** [src/BookScanner.tsx] *)

Module BookScanner.

(** [FileReader.readAsDataURL(file)]: [onerror], or [onload] with the
    data URL. *)
Inductive ReadResult : Type :=
| ReadError
| ReadLoad (dataUrl : jsstring).

(** Assigning [img.src]: the image loads, and the canvas it is drawn
    on gives [jpegDataUrl] from [toDataURL('image/jpeg', 0.9)]; or it
    cannot be decoded and the [error] event of the image fires. *)
Inductive ImageResult : Type :=
| ImageError
| ImageLoad (jpegDataUrl : jsstring).

(** The browser around one scan. *)
Record World : Type := mkWorld {
  read_file : ReadResult;
  decode_image : jsstring -> ImageResult;
  network : Network
}.

(** [error]: ["No text detected."] or [`Error: ${err.message}`]. *)
Inductive ScanError : Type :=
| NoTextDetected
| Caught (err : Exn).

(** [aiStatus]: [""], ["Checking AI heartbeat..."] or
    [`AI Status: ${heartbeat}`]. *)
Inductive AiStatus : Type :=
| StatusNone
| StatusChecking
| StatusReport (heartbeat : Heartbeat).

(** The state of the component. *)
Record ScanState : Type := mkScanState {
  ocrLines : list jsstring;
  bookResult : option JsValue;
  isLoading : bool;
  aiStatus : AiStatus;
  error : option ScanError
}.

Definition initial_state : ScanState :=
  {| ocrLines := []; bookResult := None; isLoading := false;
     aiStatus := StatusNone; error := None |}.

(** A scan acts on the state of the component and on the trace. *)
Definition Scan (A : Type) : Type := Comp (ScanState * Trace) A.

Definition lift {A : Type} (c : Async A) : Scan A :=
  fun '(st, tr) => let (o, tr') := c tr in (o, (st, tr')).

Definition update (f : ScanState -> ScanState) : Scan unit :=
  fun '(st, tr) => (Returned tt, (f st, tr)).

Definition setOcrLines (v : list jsstring) : Scan unit :=
  update (fun st => {| ocrLines := v; bookResult := bookResult st;
                       isLoading := isLoading st; aiStatus := aiStatus st;
                       error := error st |}).

Definition setBookResult (v : option JsValue) : Scan unit :=
  update (fun st => {| ocrLines := ocrLines st; bookResult := v;
                       isLoading := isLoading st; aiStatus := aiStatus st;
                       error := error st |}).

Definition setIsLoading (v : bool) : Scan unit :=
  update (fun st => {| ocrLines := ocrLines st; bookResult := bookResult st;
                       isLoading := v; aiStatus := aiStatus st;
                       error := error st |}).

Definition setAiStatus (v : AiStatus) : Scan unit :=
  update (fun st => {| ocrLines := ocrLines st; bookResult := bookResult st;
                       isLoading := isLoading st; aiStatus := v;
                       error := error st |}).

Definition setError (v : option ScanError) : Scan unit :=
  update (fun st => {| ocrLines := ocrLines st; bookResult := bookResult st;
                       isLoading := isLoading st; aiStatus := aiStatus st;
                       error := v |}).

(** [canvas.toDataURL('image/jpeg', 0.9).split(',')[1]] *)
Definition base64_of (jpegDataUrl : jsstring) : JsValue :=
  nth 1 (map JStr (split 44 jpegDataUrl)) JUndefined.

(** The promise that yields [base64]: rejected by [reader.onerror],
    resolved by [img.onload] with [toDataURL(...).split(',')[1]];
    no handler is installed for the [error] event of the image. *)
Definition encode_image (w : World) : Scan JsValue :=
  match read_file w with
  | ReadError => throw (Failure (js "Read failed"))
  | ReadLoad dataUrl =>
      match decode_image w dataUrl with
      | ImageLoad jpegDataUrl => ret (base64_of jpegDataUrl)
      | ImageError => never
      end
  end.

(** [text.split('\n').map(l => l.trim()).filter(l => l.length > 1)] *)
Definition ocr_lines (text : jsstring) : list jsstring :=
  filter (fun l => 1 <? List.length l) (map trim (split LF text)).

Definition identification_failed : JsValue :=
  JObj [(js "title", JStr (js "Identification Failed"));
        (js "description",
         JStr (js "AI is online but this book isn't in its index."))].

(** [`AI Status: ${heartbeat}`]: the template converts what [testAI]
    resolved to with [ToString]; the offline report is a string
    already. *)
Definition status_report {S : Type} (heartbeat : Heartbeat) : Comp S AiStatus :=
  match heartbeat with
  | HeartbeatText v =>
      if stringifiable v then ret (StatusReport heartbeat) else throw TypeError
  | HeartbeatOffline _ => ret (StatusReport heartbeat)
  end.

(** [handleScanCover(file)] for a [file] that is there, as the
    [onChange] handler passes it. *)
Definition handleScanCover (w : World) : Scan unit :=
  setOcrLines [] ;;
  setBookResult None ;;
  setAiStatus StatusNone ;;
  setError None ;;
  setIsLoading true ;;
  try_finally
    (try_catch
       (base64 <- encode_image w ;;
        response <- lift (fetch (network w) (OcrRequest base64)) ;;
        data <- lift (response_json response) ;;
        success <- of_sum (member data (js "success")) ;;
        (* [data.success && data.text] *)
        let guard := if truthy success then get data (js "text") else success in
        if truthy guard then
          text <- as_string guard ;;
          let lines := ocr_lines text in
          setOcrLines lines ;;
          setAiStatus StatusChecking ;;
          heartbeat <- lift (testAI (network w)) ;;
          status <- status_report heartbeat ;;
          setAiStatus status ;;
          result <- lift (fetchBookData (network w) lines) ;;
          if truthy result then setBookResult (Some result)
          else setBookResult (Some identification_failed)
        else setError (Some NoTextDetected))
       (fun err => setError (Some (Caught err))))
    (setIsLoading false).

(** One scan, from the state the component is in. *)
Definition scan (w : World) (st : ScanState) : Outcome unit * (ScanState * Trace) :=
  handleScanCover w (st, []).

End BookScanner.
Export BookScanner.

(** ** Scripted worlds *)

Module Scenario.

(** A response of status 200 with a JSON body. *)
Definition ok (body : JsValue) : FetchOutcome := inr (mkResponse 200 (inr body)).

(** A response of status 429, as the books API sends it. *)
Definition too_many_requests : FetchOutcome :=
  inr (mkResponse 429 (inr (JObj [(js "error", JObj [(js "code", JNum (js "429"))])]))).

(** A rejected [fetch]. *)
Definition unreachable : FetchOutcome := inl (Failure (js "Failed to fetch")).

(** [{ candidates: [{ content: { parts: [{ text }] } }] }] *)
Definition ai_reply (text : JsValue) : JsValue :=
  JObj [(js "candidates",
         JArr [JObj [(js "content",
                      JObj [(js "parts", JArr [JObj [(js "text", text)]])])]])].

(** [{ items: [{ volumeInfo: { imageLinks: { thumbnail } } }] }] *)
Definition books_reply (thumbnail : JsValue) : JsValue :=
  JObj [(js "items",
         JArr [JObj [(js "volumeInfo",
                      JObj [(js "imageLinks",
                             JObj [(js "thumbnail", thumbnail)])])]])].

(** [{ success, text }], the reply of the text-extraction service. *)
Definition ocr_reply (success : bool) (text : jsstring) : JsValue :=
  JObj [(js "success", JBool success); (js "text", JStr text)].

(** The answers of the three services, those of the books API in the
    order of the requests; past the end of [covers] it is unreachable. *)
Record Script : Type := mkScript {
  ocr : FetchOutcome;
  heartbeat : FetchOutcome;
  inference : FetchOutcome;
  covers : list FetchOutcome
}.

Definition scripted (s : Script) : Network :=
  fun tr req =>
    match req with
    | OcrRequest _ => ocr s
    | HeartbeatRequest => heartbeat s
    | InferenceRequest _ => inference s
    | CoverRequest _ =>
        nth (List.length (filter is_cover_request tr)) (covers s) unreachable
    end.

(** A file that reads and decodes; the canvas gives [jpeg]. *)
Definition world_of (jpeg : jsstring) (s : Script) : World :=
  {| read_file := ReadLoad (js "data:image/png;base64,iVBORw0KGgo=");
     decode_image := fun _ => ImageLoad jpeg;
     network := scripted s |}.

Definition jpeg_url : jsstring := js "data:image/jpeg;base64,/9j/4AAQ".

Definition heartbeat_ok : FetchOutcome :=
  ok (ai_reply (JStr (js "AI Heartbeat: OK"))).

Definition google_thumbnail : jsstring :=
  js "http://books.google.com/books/content?id=1&img=1".

(** The cover of the example of the specification: two lines of
    text, a blank line and a stray letter. *)
Definition amichai_text : jsstring := jsq "עמיחי||ת|שירי אהבה".

Definition amichai_script : Script :=
  {| ocr := ok (ocr_reply true amichai_text);
     heartbeat := heartbeat_ok;
     inference :=
       ok (ai_reply (JStr (jsq "```json|{'title':'שירי אהבה','authors':['יהודה עמיחי']}|```")));
     covers := [too_many_requests;
                ok (books_reply (JStr google_thumbnail))] |}.

(** The service finds one stray mark on the cover. *)
Definition noise_script : Script :=
  {| ocr := ok (ocr_reply true (js "."));
     heartbeat := heartbeat_ok;
     inference := ok (ai_reply (JStr (jsq "{'title':''}")));
     covers := [ok (JObj [(js "totalItems", JNum (js "0"))])] |}.

(** The model knows no title for the lines it is given. *)
Definition untitled_script : Script :=
  {| ocr := ok (ocr_reply true amichai_text);
     heartbeat := heartbeat_ok;
     inference := ok (ai_reply (JStr (jsq "{'title':'','authors':[]}")));
     covers := [ok (JObj [(js "totalItems", JNum (js "0"))])] |}.

(** The model answers with prose. *)
Definition prose_script : Script :=
  {| ocr := ok (ocr_reply true amichai_text);
     heartbeat := heartbeat_ok;
     inference := ok (ai_reply (JStr (js "I could not identify this book.")));
     covers := [] |}.

(** The model has no candidate to offer. *)
Definition silent_script : Script :=
  {| ocr := ok (ocr_reply true amichai_text);
     heartbeat := heartbeat_ok;
     inference := ok (JObj [(js "candidates", JArr [])]);
     covers := [] |}.

(** The extraction service cannot be reached. *)
Definition offline_script : Script :=
  {| ocr := unreachable;
     heartbeat := heartbeat_ok;
     inference := ok (ai_reply (JStr (jsq "{'title':'X'}")));
     covers := [] |}.



(** A thumbnail served over https that names an http address. *)
Definition proxied_thumbnail : jsstring :=
  js "https://covers.example/img?src=http://cdn.example/1.jpg".

Definition proxied_script : Script :=
  {| ocr := ok (ocr_reply true amichai_text);
     heartbeat := heartbeat_ok;
     inference := ok (ai_reply (JStr (jsq "{'title':'X'}")));
     covers := [ok (books_reply (JStr proxied_thumbnail))] |}.

(** A file that reads but that the browser cannot decode. *)
Definition undecodable_world : World :=
  {| read_file := ReadLoad (js "data:image/heic;base64,AAAAGGZ0eXBoZWlj");
     decode_image := fun _ => ImageError;
     network := scripted amichai_script |}.

(** A cover with five lines of text, as the Vision API reports it. *)
Definition five_lines : OcrFunction.AnnotateImageResponse :=
  OcrFunction.mkAnnotateImageResponse
    (Some (OcrFunction.mkTextAnnotation
             (jsq "יהודה עמיחי|*|שירי אהבה| שוקן |ירושלים|89.00"))).


(** The probe is answered with an object whose [toString] is not a
    function. *)
Definition opaque_probe_script : Script :=
  {| ocr := ok (ocr_reply true amichai_text);
     heartbeat := ok (ai_reply (JObj [(js "toString", JNum (js "0"))]));
     inference := ok (ai_reply (JStr (jsq "{'title':'X'}")));
     covers := [ok (books_reply (JStr google_thumbnail))] |}.

End Scenario.

(** ** Vocabulary of the properties *)

Module Spec.

(** A parser that consumes at least one code unit when it succeeds. *)
Definition consumes (p : Json.Parser) : Prop :=
  forall s v r, p s = Some (v, r) -> (List.length r < List.length s)%nat.

(** The reply [s] between a [```json] line and a [```] line. *)
Definition fenced (s : jsstring) : jsstring :=
  js "```json" ++ [LF] ++ s ++ [LF] ++ js "```".

Definition all_white (s : jsstring) : Prop :=
  Forall (fun c => is_white_space c = true) s.

(** Neither the first nor the last code unit is white space. *)
Definition black_ends (s : jsstring) : Prop :=
  match s with
  | [] => True
  | c :: _ => is_white_space c = false /\ is_white_space (last s c) = false
  end.

(** [trimmed] is [line] without the white space at its two ends. *)
Definition trimmed_of (line trimmed : jsstring) : Prop :=
  black_ends trimmed
  /\ exists before after,
       line = before ++ trimmed ++ after /\ all_white before /\ all_white after.

(** Text Extraction in the words of the specification: the text is
    split on line breaks into [pieces], each piece is trimmed, and
    the trimmed lines of length at most 1 are discarded, the others
    kept in order. *)
Definition extraction_of (text : jsstring) (lines : list jsstring) : Prop :=
  exists pieces trimmed,
    pieces <> []
    /\ join [LF] pieces = text
    /\ Forall (fun piece => ~ In LF piece) pieces
    /\ Forall2 trimmed_of pieces trimmed
    /\ lines = filter (fun l => 1 <? List.length l) trimmed.

(** The text the Vision API detected, empty when there is none. *)
Definition detected_text (r : OcrFunction.AnnotateImageResponse) : jsstring :=
  match OcrFunction.fullTextAnnotation r with
  | Some annotation => OcrFunction.text annotation
  | None => []
  end.

(** The lines of the detected text whose trimmed length exceeds 1. *)
Definition qualifying_lines (r : OcrFunction.AnnotateImageResponse)
  : list jsstring :=
  filter OcrFunction.keeps (split LF (detected_text r)).

(** The image was encoded and the text-extraction service answered
    the request with the JSON value [data]. *)
Definition service_replied (w : World) (data : JsValue) : Prop :=
  exists dataUrl jpeg res,
    read_file w = ReadLoad dataUrl
    /\ decode_image w dataUrl = ImageLoad jpeg
    /\ network w [] (OcrRequest (base64_of jpeg)) = inr res
    /\ json res = inr data.

(** The state a scan that failed with [e] leaves. *)
Definition failed_with (e : ScanError) : ScanState :=
  {| ocrLines := []; bookResult := None; isLoading := false;
     aiStatus := StatusNone; error := Some e |}.

(** The state of a scan whose encoding promise never settles. *)
Definition suspended : ScanState :=
  {| ocrLines := []; bookResult := None; isLoading := true;
     aiStatus := StatusNone; error := None |}.

(** The state a scan that went through all its stages leaves. *)
Definition completed (lines : list jsstring) (h : Heartbeat) (result : JsValue)
  : ScanState :=
  {| ocrLines := lines;
     bookResult := Some (if truthy result then result else identification_failed);
     isLoading := false;
     aiStatus := StatusReport h;
     error := None |}.

(** The report of the probe has a string form, so that the status
    line can be made of it. *)
Definition reportable (h : Heartbeat) : bool :=
  match h with
  | HeartbeatText v => stringifiable v
  | HeartbeatOffline _ => true
  end.

(** The state of a scan that stopped at the status line of the probe:
    the lines are stored, the status still says that the probe is
    under way. *)
Definition report_failed (lines : list jsstring) : ScanState :=
  {| ocrLines := lines; bookResult := None; isLoading := false;
     aiStatus := StatusChecking; error := Some (Caught TypeError) |}.

(** The title can be made part of the address of a request. *)
Definition uri_encodable (title : JsValue) : bool :=
  stringifiable title && well_formed_text title.

Definition final_state (run : Outcome unit * (ScanState * Trace)) : ScanState :=
  fst (snd run).

Definition final_trace (run : Outcome unit * (ScanState * Trace)) : Trace :=
  snd (snd run).

(** The requests of the stages after Text Extraction: the
    connectivity probe, the metadata inference and the cover lookup. *)
Definition later_stage (ev : Event) : bool :=
  match ev with
  | Fetch HeartbeatRequest
  | Fetch (InferenceRequest _)
  | Fetch (CoverRequest _) => true
  | _ => false
  end.

(** The requests of the stages after the probe: the metadata
    inference and the cover lookup. *)
Definition after_probe (ev : Event) : bool :=
  match ev with
  | Fetch (InferenceRequest _)
  | Fetch (CoverRequest _) => true
  | _ => false
  end.

(** The request of a scan to the text-extraction service. *)
Definition ocr_request (jpeg : jsstring) : Event :=
  Fetch (OcrRequest (base64_of jpeg)).

(** Text Extraction fails: the request is rejected, the body cannot
    be read, or the reply does not pass [data.success && data.text]
    with a string. *)
Definition extraction_fails (net : Network) (base64 : JsValue) : Prop :=
  match net [] (OcrRequest base64) with
  | inl _ => True
  | inr res =>
      match json res with
      | inl _ => True
      | inr data =>
          nullish data = true
          \/ truthy (get data (js "success")) && truthy (get data (js "text")) = false
          \/ (forall t, get data (js "text") <> JStr t)
      end
  end.

(** [resultText]: the text of the first candidate of a reply of the
    inference endpoint. *)
Definition result_text (data : JsValue) : JsValue :=
  opt_chain (get data (js "candidates")) candidate_text_path.


(** What one turn of the loop adds to the trace when its request is
    answered with 429 ([inr]) or rejected ([inl]). *)
Definition turn_events (title : JsValue) (o : FetchOutcome) : list Event :=
  Fetch (CoverRequest title)
  :: match o with
     | inr _ => [Sleep 1000]
     | inl _ => []
     end.

(** The trace after [n] such turns. *)
Fixpoint exhausted_trace (net : Network) (title : JsValue) (n : nat) (tr : Trace)
  : Trace :=
  match n with
  | O => tr
  | S n' =>
      exhausted_trace net title n'
        (tr ++ turn_events title (net tr (CoverRequest title)))
  end.

Definition is_backoff (ev : Event) : bool :=
  match ev with
  | Sleep ms => (ms =? 1000)%N
  | _ => false
  end.



(** A computation that is never left pending. *)
Definition settles {S A : Type} (c : Comp S A) : Prop :=
  forall s, fst (c s) <> Pending.

(** A computation that always returns a value. *)
Definition returns {S A : Type} (c : Comp S A) : Prop :=
  forall s, exists a s', c s = (Returned a, s').

(** A computation that only adds to the trace. *)
Definition grows {A : Type} (c : Async A) : Prop :=
  forall tr o tr', c tr = (o, tr') -> exists more, tr' = tr ++ more.

End Spec.
Export Spec.

(** ** Validation and the HTTP handler of [index.js] *)

Module OcrService.

Local Open Scope N_scope.

Definition png_prefix : jsstring := js "data:image/png;base64,".
Definition jpeg_prefix : jsstring := js "data:image/jpeg;base64,".
Definition jpg_prefix : jsstring := js "data:image/jpg;base64,".

(** [image.replace(/^data:image\/(png|jpeg|jpg);base64,/, '')]: the
    pattern is anchored, so only a prefix is removed, and only once. *)
Definition strip_data_url (image : jsstring) : jsstring :=
  if starts_with png_prefix image then skipn (List.length png_prefix) image
  else if starts_with jpeg_prefix image then skipn (List.length jpeg_prefix) image
  else if starts_with jpg_prefix image then skipn (List.length jpg_prefix) image
  else image.

(** The class [[A-Za-z0-9+/]]. *)
Definition is_base64_char (c : N) : bool :=
  ((65 <=? c) && (c <=? 90)) || ((97 <=? c) && (c <=? 122))
  || ((48 <=? c) && (c <=? 57)) || (c =? 43) || (c =? 47).

(** [={0,2}$] *)
Definition is_padding (s : jsstring) : bool :=
  match s with
  | [] => true
  | [a] => a =? 61
  | [a; b] => (a =? 61) && (b =? 61)
  | _ => false
  end.

(** The rest of a match of [[A-Za-z0-9+/]+={0,2}$] once one code unit
    of the class was read: the class is left only for the padding. *)
Fixpoint base64_rest (s : jsstring) : bool :=
  match s with
  | [] => true
  | c :: r => if is_base64_char c then base64_rest r else is_padding s
  end.

(** [/^[A-Za-z0-9+/]+={0,2}$/.test(s)] *)
Definition is_base64 (s : jsstring) : bool :=
  match s with
  | [] => false
  | c :: r => is_base64_char c && base64_rest r
  end.

Definition invalid_body : jsstring :=
  jsq "Invalid request body. Missing 'image' property.".

Definition empty_image : jsstring := js "The image data cannot be empty.".

Definition not_base64 : jsstring := js "Image data is not a valid Base64 string.".

(** [validateRequest(body)]: the Base64 data, or what is thrown.  An
    [image] that is truthy and not a string has no [replace]. *)
Definition validateRequest (body : JsValue) : Exn + jsstring :=
  if negb (truthy body) then inl (Failure invalid_body)
  else if negb (truthy (get body (js "image"))) then inl (Failure invalid_body)
  else
    match get body (js "image") with
    | JStr image =>
        let base64Image := strip_data_url image in
        match base64Image with
        | [] => inl (Failure empty_image)
        | _ :: _ =>
            if negb (is_base64 base64Image) then inl (Failure not_base64)
            else inr base64Image
        end
    | _ => inl TypeError
    end.

(** [req.method] and [req.body], the body as the platform parsed it. *)
Record HttpRequest : Type := mkHttpRequest {
  method : jsstring;
  body : JsValue
}.

(** What [res.send] is given: a string or an object sent as JSON. *)
Inductive Sent : Type :=
| SentText (s : jsstring)
| SentJson (v : JsValue).

(** What the handler makes of [res]: the status, the headers set and
    the body sent. *)
Record HttpReply : Type := mkHttpReply {
  code : N;
  headers : list (jsstring * jsstring);
  sent : Sent
}.

(** What the handler does besides answering: the call of the Vision
    API with the image, and its three log lines. *)
Inductive Effect : Type :=
| AnnotateImage (content : jsstring)
| LogSize (bytes : nat)
| LogText (extractedText : jsstring)
| LogError (e : Exn).

(** [visionClient.annotateImage] for an image: rejected, or the first
    element of what it resolves to. *)
Definition Vision : Type := jsstring -> Exn + OcrFunction.AnnotateImageResponse.

(** [error.message]: the text given to [new Error], or the text the
    platform gives the errors it raises itself. *)
Definition message (platform_text : Exn -> jsstring) (e : Exn) : jsstring :=
  match e with
  | Failure m => m
  | _ => platform_text e
  end.

Definition allow_origin : jsstring * jsstring :=
  (js "Access-Control-Allow-Origin", js "*").

Definition preflight_headers : list (jsstring * jsstring) :=
  [(js "Access-Control-Allow-Methods", js "POST");
   (js "Access-Control-Allow-Headers", js "Content-Type");
   (js "Access-Control-Max-Age", js "3600")].

Definition method_not_allowed : JsValue :=
  JObj [(js "error", JStr (js "Method Not Allowed. Only POST is accepted."))].

(** The body sent with status 500. *)
Definition failure_body (platform_text : Exn -> jsstring) (e : Exn) : JsValue :=
  JObj [(js "success", JBool false);
        (js "error",
         JStr (js "An internal server error occurred during OCR processing."));
        (js "details", JStr (message platform_text e))].

(** [exports.ocrHandler]: the reply and what was done on the way, in
    order. *)
Definition ocrHandler (platform_text : Exn -> jsstring) (vision : Vision)
    (req : HttpRequest) : HttpReply * list Effect :=
  if JsString.eqb (method req) (js "OPTIONS") then
    ({| code := 204; headers := allow_origin :: preflight_headers;
        sent := SentText [] |}, [])
  else if negb (JsString.eqb (method req) (js "POST")) then
    ({| code := 405; headers := [allow_origin];
        sent := SentJson method_not_allowed |}, [])
  else
    match validateRequest (body req) with
    | inl error =>
        ({| code := 500; headers := [allow_origin];
            sent := SentJson (failure_body platform_text error) |},
         [LogError error])
    | inr base64Image =>
        match vision base64Image with
        | inl error =>
            ({| code := 500; headers := [allow_origin];
                sent := SentJson (failure_body platform_text error) |},
             [LogSize (List.length base64Image); AnnotateImage base64Image;
              LogError error])
        | inr result =>
            let extractedText := OcrFunction.performOcr result in
            ({| code := 200; headers := [allow_origin];
                sent := SentJson (OcrFunction.success_body extractedText) |},
             [LogSize (List.length base64Image); AnnotateImage base64Image;
              LogText extractedText])
        end
    end.

(** What the platform parses of [JSON.stringify({ image: base64 })]:
    a property whose value is [undefined] is left out.  [base64] is a
    string or [undefined]. *)
Definition posted_body (base64 : JsValue) : JsValue :=
  match base64 with
  | JUndefined => JObj []
  | _ => JObj [(js "image", base64)]
  end.

(** The response the client is given for a reply of the handler: an
    object that was sent is what [response.json()] resolves to, and
    the empty text of the pre-flight reply is not JSON. *)
Definition response_of (reply : HttpReply) : Response :=
  {| status := code reply;
     json := match sent reply with
             | SentJson v => inr v
             | SentText _ => inl SyntaxError
             end |}.

(** A network whose text-extraction endpoint is [ocrHandler], reached
    by the [POST] of [handleScanCover]. *)
Definition deployed (platform_text : Exn -> jsstring) (vision : Vision)
    (net : Network) : Network :=
  fun tr req =>
    match req with
    | OcrRequest base64 =>
        inr (response_of
               (fst (ocrHandler platform_text vision
                       {| method := js "POST"; body := posted_body base64 |})))
    | _ => net tr req
    end.

End OcrService.

(** ** What [BookScanner] renders *)

Module Page.

(** What React takes as a child: strings, numbers, [null], [undefined],
    booleans, and arrays of these; a plain object is refused with an
    error. *)
Fixpoint valid_child (v : JsValue) : bool :=
  match v with
  | JObj _ => false
  | JArr elems => forallb valid_child elems
  | _ => true
  end.

(** The child [bookResult.authors && <p>By {bookResult.authors.join(', ')}</p>]:
    the falsy value itself, or the line made of the array. *)
Inductive AuthorsChild : Type :=
| Falsy (v : JsValue)
| ByLine (elems : list JsValue).

Record Card : Type := mkCard {
  cover : option JsValue;
  title : JsValue;
  authors : AuthorsChild;
  publisher : JsValue;
  year : JsValue;
  description : JsValue
}.

Record View : Type := mkView {
  button_disabled : bool;
  status_line : option AiStatus;
  error_box : option ScanError;
  ocr_box : option (list jsstring);
  card : option Card
}.

(** [bookResult.authors && ... bookResult.authors.join(', ')]: only an
    array has a [join], and [join] converts each element to a string. *)
Definition authors_child (v : JsValue) : option AuthorsChild :=
  if truthy v then
    match v with
    | JArr elems => if forallb stringifiable elems then Some (ByLine elems) else None
    | _ => None
    end
  else Some (Falsy v).

(** The card of a [bookResult] that is truthy; [None] when building
    it throws. *)
Definition render_card (bookResult : JsValue) : option Card :=
  let coverUri := get bookResult (js "coverUri") in
  let card authors :=
    {| cover := if truthy coverUri then Some coverUri else None;
       title := get bookResult (js "title");
       authors := authors;
       publisher := or_else (get bookResult (js "publisher")) (JStr (js "Unknown"));
       year := or_else (get bookResult (js "year")) (JStr (js "N/A"));
       description := get bookResult (js "description") |} in
  match authors_child (get bookResult (js "authors")) with
  | None => None
  | Some authors =>
      if valid_child (get bookResult (js "title"))
         && valid_child (or_else (get bookResult (js "publisher")) (JStr (js "Unknown")))
         && valid_child (or_else (get bookResult (js "year")) (JStr (js "N/A")))
         && valid_child (get bookResult (js "description"))
      then Some (card authors)
      else None
  end.

(** The [return] of the component for a state: [None] when the render
    throws. *)
Definition render (st : ScanState) : option View :=
  let view card :=
    {| button_disabled := isLoading st;
       status_line := match aiStatus st with
                      | StatusNone => None
                      | s => Some s
                      end;
       error_box := error st;
       ocr_box := match ocrLines st with
                  | [] => None
                  | lines => Some lines
                  end;
       card := card |} in
  match bookResult st with
  | None => Some (view None)
  | Some r =>
      if truthy r then
        match render_card r with
        | Some c => Some (view (Some c))
        | None => None
        end
      else Some (view None)
  end.

End Page.

(** ** Vocabulary of the further properties *)

Module Behaviour.

(** Why [testAI] reports the service as offline, if it does: the
    request or the reading of the body is rejected, or the reply is
    [null]. *)
Definition heartbeat_failure (net : Network) (tr : Trace) : option Exn :=
  match net tr HeartbeatRequest with
  | inl e => Some e
  | inr res =>
      match json res with
      | inl e => Some e
      | inr data => if nullish data then Some TypeError else None
      end
  end.

(** The events of a cover lookup for [title]. *)
Definition cover_event (title : JsValue) (ev : Event) : Prop :=
  ev = Fetch (CoverRequest title) \/ ev = Sleep 1000.

(** The number of requests to the books API in a trace. *)
Definition cover_requests (tr : Trace) : nat :=
  List.length (filter is_cover_request tr).

Definition backoffs (tr : Trace) : nat := List.length (filter is_backoff tr).

(** The request for the cover sent after [tr] is answered 429 or
    rejected. *)
Definition turn_fails (net : Network) (title : JsValue) (tr : Trace) : Prop :=
  match net tr (CoverRequest title) with
  | inl _ => True
  | inr res => status res = 429%N
  end.

Definition is_request (ev : Event) : bool :=
  match ev with
  | Fetch _ => true
  | _ => false
  end.

(** The number of requests in a trace, to whatever service. *)
Definition requests (tr : Trace) : nat := List.length (filter is_request tr).

(** The time spent waiting in a trace, in milliseconds. *)
Definition waited (tr : Trace) : N :=
  fold_right (fun ev total =>
                match ev with
                | Sleep ms => (ms + total)%N
                | _ => total
                end) 0%N tr.

(** The code fence of a Markdown reply. *)
Definition fence : jsstring := js "```".

Definition optional_string (v : JsValue) : bool :=
  match v with
  | JUndefined | JStr _ => true
  | _ => false
  end.

Definition is_string (v : JsValue) : bool :=
  match v with
  | JStr _ => true
  | _ => false
  end.

Definition optional_strings (v : JsValue) : bool :=
  match v with
  | JUndefined => true
  | JArr elems => forallb is_string elems
  | _ => false
  end.

(** The fields the card shows have the types the interface
    [BookData] gives them: [title?: string], [authors?: string[]],
    [publisher?: string], [year?: string], [description?: string]. *)
Definition fits_BookData (props : list (jsstring * JsValue)) : bool :=
  optional_string (lookup (js "title") props)
  && optional_strings (lookup (js "authors") props)
  && optional_string (lookup (js "publisher") props)
  && optional_string (lookup (js "year") props)
  && optional_string (lookup (js "description") props).

(** The probe of the scan of [jpeg] resolved to [h], a report the
    status line can be made of. *)
Definition probe_reported (w : World) (jpeg : jsstring) (h : Heartbeat) : Prop :=
  testAI (network w) [ocr_request jpeg]
  = (Returned h, [ocr_request jpeg; Fetch HeartbeatRequest])
  /\ reportable h = true.

(** The page read the text [t] off the reply of the text-extraction
    service for the image [jpeg]. *)
Definition text_extracted (w : World) (jpeg t : jsstring) : Prop :=
  exists dataUrl res data,
    read_file w = ReadLoad dataUrl
    /\ decode_image w dataUrl = ImageLoad jpeg
    /\ network w [] (OcrRequest (base64_of jpeg)) = inr res
    /\ json res = inr data
    /\ nullish data = false
    /\ truthy (get data (js "success")) = true
    /\ get data (js "text") = JStr t
    /\ t <> [].

(** The model answered the request for [lines], sent after [tr],
    with a text that parses, once cleaned, to [bookData]. *)
Definition model_replied (net : Network) (tr : Trace) (lines : list jsstring)
    (bookData : JsValue) : Prop :=
  exists res data text,
    net tr (InferenceRequest (join [LF] lines)) = inr res
    /\ json res = inr data
    /\ nullish data = false
    /\ result_text data = JStr text
    /\ text <> []
    /\ Json.parse (cleanJson text) = Some bookData.

End Behaviour.
Export Behaviour.

(** ** Further scripted worlds *)

Module Cases.

Import Scenario.

(** The probe is rejected; the inference that follows is answered. *)
Definition probe_down_script : Script :=
  {| ocr := ok (ocr_reply true amichai_text);
     heartbeat := unreachable;
     inference := ok (ai_reply (JStr (jsq "{'title':'X'}")));
     covers := [ok (books_reply (JStr google_thumbnail))] |}.

(** The model cannot be reached at all. *)
Definition ai_down_script : Script :=
  {| ocr := ok (ocr_reply true amichai_text);
     heartbeat := unreachable;
     inference := unreachable;
     covers := [] |}.

(** The model names the author as a string, not as a list. *)
Definition byline_script : Script :=
  {| ocr := ok (ocr_reply true amichai_text);
     heartbeat := heartbeat_ok;
     inference :=
       ok (ai_reply (JStr (jsq "{'title':'שירי אהבה','authors':'יהודה עמיחי'}")));
     covers := [ok (books_reply (JStr google_thumbnail))] |}.

(** The model names an author that has no string form. *)
Definition opaque_author_script : Script :=
  {| ocr := ok (ocr_reply true amichai_text);
     heartbeat := heartbeat_ok;
     inference := ok (ai_reply (JStr (jsq "{'title':'X','authors':[{'toString':0}]}")));
     covers := [ok (books_reply (JStr google_thumbnail))] |}.

(** The Vision API finds the same result in every image. *)
Definition vision_reads (r : OcrFunction.AnnotateImageResponse) : OcrService.Vision :=
  fun _ => inr r.

(** The Vision API rejects every call. *)
Definition vision_down : OcrService.Vision :=
  fun _ => inl (Failure (js "7 PERMISSION_DENIED: Cloud Vision API has not been used")).

(** The texts of the errors the platform raises, as Node words them. *)
Definition node_text (e : Exn) : jsstring :=
  match e with
  | TypeError => js "body.image.replace is not a function"
  | SyntaxError => js "Unexpected end of JSON input"
  | URIError => js "URI malformed"
  | Failure m => m
  end.

(** A file that reads and decodes, in front of the cloud function. *)
Definition deployed_world (jpeg : jsstring) (vision : OcrService.Vision) (s : Script)
  : World :=
  {| read_file := ReadLoad (js "data:image/png;base64,iVBORw0KGgo=");
     decode_image := fun _ => ImageLoad jpeg;
     network := OcrService.deployed node_text vision (scripted s) |}.

(** What [toDataURL] gives for a canvas without pixels. *)
Definition blank_canvas_url : jsstring := js "data:,".

End Cases.

(** ** Vocabulary of the properties of the handler *)

Module Served.

(** The images the handler passed to the Vision API, in order. *)
Definition vision_calls (effects : list OcrService.Effect) : list jsstring :=
  flat_map (fun effect =>
              match effect with
              | OcrService.AnnotateImage content => [content]
              | _ => []
              end) effects.

End Served.
Export Served.

(* ===================================================================== *)
(** * Part II.  Properties                                                *)
(* ===================================================================== *)

(** ** The fuel of the parser is enough *)

Section Fuel.

Import Json.
Local Open Scope N_scope.

Lemma skip_ws_length (s : jsstring) : (List.length (skip_ws s) <= List.length s)%nat.
Proof.
  induction s as [|c s IH]; simpl; [lia|].
  destruct (is_json_ws c); simpl; lia.
Qed.

Lemma expect_length (c : N) (s r : jsstring) :
  expect c s = Some r -> (List.length r < List.length s)%nat.
Proof.
  unfold expect. pose proof (skip_ws_length s) as Hlen.
  destruct (skip_ws s) as [|x r']; [discriminate|].
  destruct (x =? c); [|discriminate].
  intros H. injection H as <-. simpl in Hlen. lia.
Qed.

Lemma parse_string_body_length (s body rest : jsstring) :
  parse_string_body s = Some (body, rest) -> (List.length rest < List.length s)%nat.
Proof.
  assert (H : forall n s, (List.length s <= n)%nat -> forall body rest,
             parse_string_body s = Some (body, rest) -> (List.length rest < List.length s)%nat).
  { clear. induction n as [|n IH]; intros s Hn body rest.
    - destruct s; [discriminate | simpl in Hn; lia].
    - destruct s as [|c s']; simpl; [discriminate|]. simpl in Hn.
      destruct (c =? 34).
      { intros H. injection H as _ <-. lia. }
      destruct (c <? 32); [discriminate|].
      destruct (c =? 92).
      + destruct s' as [|e s'']; [discriminate|].
        destruct (e =? 117).
        * destruct s'' as [|h1 [|h2 [|h3 [|h4 s3]]]]; try discriminate.
          destruct (hex4 h1 h2 h3 h4); [|discriminate].
          destruct (parse_string_body s3) as [[b r]|] eqn:Hrec; simpl; [|discriminate].
          intros H. injection H as _ <-.
          assert (List.length r < List.length s3)%nat
            by (apply (IH s3) with (body := b); [simpl in Hn; lia | exact Hrec]).
          simpl. lia.
        * destruct (escape_char e); [|discriminate].
          destruct (parse_string_body s'') as [[b r]|] eqn:Hrec; simpl; [|discriminate].
          intros H. injection H as _ <-.
          assert (List.length r < List.length s'')%nat
            by (apply (IH s'') with (body := b); [simpl in Hn; lia | exact Hrec]).
          simpl. lia.
      + destruct (parse_string_body s') as [[b r]|] eqn:Hrec; simpl; [|discriminate].
        intros H. injection H as _ <-.
        assert (List.length r < List.length s')%nat
          by (apply (IH s') with (body := b); [lia | exact Hrec]).
        lia. }
  apply (H (List.length s)). lia.
Qed.

Lemma take_digits_length (s ds r : jsstring) :
  take_digits s = (ds, r) -> (List.length r <= List.length s)%nat.
Proof.
  revert ds r. induction s as [|c s IH]; simpl; intros ds r.
  - intros H. injection H as _ <-. simpl. lia.
  - destruct (is_digit c).
    + destruct (take_digits s) as [ds' r'] eqn:Hrec.
      intros H. injection H as _ <-. specialize (IH ds' r' eq_refl). lia.
    + intros H. injection H as _ <-. simpl. lia.
Qed.

Lemma parse_int_length (s lit r : jsstring) :
  parse_int s = Some (lit, r) -> (List.length r < List.length s)%nat.
Proof.
  unfold parse_int. destruct s as [|c s']; [discriminate|].
  destruct (c =? 48).
  - intros H. injection H as _ <-. simpl. lia.
  - destruct (is_digit c); [|discriminate].
    destruct (take_digits s') as [ds r'] eqn:Hd.
    intros H. injection H as _ <-. apply take_digits_length in Hd. simpl. lia.
Qed.

Lemma parse_frac_length (s lit r : jsstring) :
  parse_frac s = Some (lit, r) -> (List.length r <= List.length s)%nat.
Proof.
  unfold parse_frac. destruct s as [|c s'].
  - intros H. injection H as _ <-. lia.
  - destruct (c =? 46).
    + destruct (take_digits s') as [[|d ds] r'] eqn:Hd; [discriminate|].
      intros H. injection H as _ <-. apply take_digits_length in Hd. simpl. lia.
    + intros H. injection H as _ <-. lia.
Qed.

Lemma parse_exp_length (s lit r : jsstring) :
  parse_exp s = Some (lit, r) -> (List.length r <= List.length s)%nat.
Proof.
  unfold parse_exp. destruct s as [|e s'].
  - intros H. injection H as _ <-. lia.
  - destruct ((e =? 101) || (e =? 69)).
    + destruct s' as [|x r0]; [discriminate|].
      destruct ((x =? 43) || (x =? 45)).
      * destruct (take_digits r0) as [[|d ds] r'] eqn:Hd; [discriminate|].
        intros H. injection H as _ <-. apply take_digits_length in Hd. simpl. lia.
      * destruct (take_digits (x :: r0)) as [[|d ds] r'] eqn:Hd; [discriminate|].
        intros H. injection H as _ <-. apply take_digits_length in Hd.
        simpl in *. lia.
    + intros H. injection H as _ <-. lia.
Qed.

Lemma parse_number_length (s lit r : jsstring) :
  parse_number s = Some (lit, r) -> (List.length r < List.length s)%nat.
Proof.
  assert (Hrest : forall sign s1,
            (List.length s1 <= List.length s)%nat ->
            match parse_int s1 with
            | None => None
            | Some (int_lit, s2) =>
                match parse_frac s2 with
                | None => None
                | Some (frac_lit, s3) =>
                    match parse_exp s3 with
                    | None => None
                    | Some (exp_lit, s4) =>
                        Some (sign ++ int_lit ++ frac_lit ++ exp_lit, s4)
                    end
                end
            end = Some (lit, r) -> (List.length r < List.length s)%nat).
  { intros sign s1 Hs.
    destruct (parse_int s1) as [[i s2]|] eqn:Hi; [|discriminate].
    destruct (parse_frac s2) as [[f s3]|] eqn:Hf; [|discriminate].
    destruct (parse_exp s3) as [[e s4]|] eqn:He; [|discriminate].
    intros H. injection H as _ <-.
    apply parse_int_length in Hi. apply parse_frac_length in Hf.
    apply parse_exp_length in He. lia. }
  unfold parse_number. destruct s as [|c s'].
  - apply Hrest. lia.
  - destruct (c =? 45); apply Hrest; simpl; lia.
Qed.

Lemma starts_with_length (pat s : jsstring) :
  starts_with pat s = true -> (List.length pat <= List.length s)%nat.
Proof.
  revert s. induction pat as [|a pat IH]; intros s; simpl; [lia|].
  destruct s as [|b s]; [discriminate|].
  intros H. apply andb_prop in H. destruct H as [_ H]. apply IH in H. simpl. lia.
Qed.

Lemma skipn_shorter (n : nat) (pat s : jsstring) :
  List.length pat = S n -> starts_with pat s = true -> (List.length (skipn (S n) s) < List.length s)%nat.
Proof.
  intros Hn Hs. apply starts_with_length in Hs. rewrite length_skipn. lia.
Qed.

Lemma parse_scalar_length (s : jsstring) (v : JsValue) (r : jsstring) :
  parse_scalar s = Some (v, r) -> (List.length r < List.length s)%nat.
Proof.
  unfold parse_scalar.
  destruct (starts_with (js "true") s) eqn:Ht.
  { pose proof (skipn_shorter 3 (js "true") s eq_refl Ht) as Hlen.
    intros H. injection H as _ <-. exact Hlen. }
  destruct (starts_with (js "false") s) eqn:Hf.
  { pose proof (skipn_shorter 4 (js "false") s eq_refl Hf) as Hlen.
    intros H. injection H as _ <-. exact Hlen. }
  destruct (starts_with (js "null") s) eqn:Hn.
  { pose proof (skipn_shorter 3 (js "null") s eq_refl Hn) as Hlen.
    intros H. injection H as _ <-. exact Hlen. }
  destruct (parse_number s) as [[lit r']|] eqn:Hnum; [|discriminate].
  intros H. injection H as _ <-. now apply parse_number_length in Hnum.
Qed.

Lemma value_step_consumes (elements members : Parser) :
  consumes elements -> consumes members -> consumes (value_step elements members).
Proof.
  intros He Hm s v rest. unfold value_step.
  destruct (expect 123 s) as [r|] eqn:H1.
  { apply expect_length in H1.
    destruct (expect 125 r) as [r'|] eqn:H2.
    - apply expect_length in H2. intros H. injection H as _ <-. lia.
    - intros H. apply Hm in H. lia. }
  destruct (expect 91 s) as [r|] eqn:H3.
  { apply expect_length in H3.
    destruct (expect 93 r) as [r'|] eqn:H4.
    - apply expect_length in H4. intros H. injection H as _ <-. lia.
    - intros H. apply He in H. lia. }
  destruct (expect 34 s) as [r|] eqn:H5.
  { apply expect_length in H5.
    destruct (parse_string_body r) as [[body r']|] eqn:H6; [|discriminate].
    apply parse_string_body_length in H6. intros H. injection H as _ <-. lia. }
  intros H. apply parse_scalar_length in H. pose proof (skip_ws_length s). lia.
Qed.

Lemma elements_step_consumes (value : Parser) (others : list JsValue -> Parser)
    (acc : list JsValue) :
  consumes value -> (forall acc', consumes (others acc')) ->
  consumes (elements_step value others acc).
Proof.
  intros Hv Ho s v rest. unfold elements_step.
  destruct (value s) as [[v1 r]|] eqn:H1; [|discriminate]. apply Hv in H1.
  destruct (expect 44 r) as [r'|] eqn:H2.
  { apply expect_length in H2. intros H. apply Ho in H. lia. }
  destruct (expect 93 r) as [r'|] eqn:H3; [|discriminate].
  apply expect_length in H3. intros H. injection H as _ <-. lia.
Qed.

Lemma members_step_consumes (value : Parser)
    (others : list (jsstring * JsValue) -> Parser) (acc : list (jsstring * JsValue)) :
  consumes value -> (forall acc', consumes (others acc')) ->
  consumes (members_step value others acc).
Proof.
  intros Hv Ho s v rest. unfold members_step.
  destruct (expect 34 s) as [r|] eqn:H1; [|discriminate]. apply expect_length in H1.
  destruct (parse_string_body r) as [[k r1]|] eqn:H2; [|discriminate].
  apply parse_string_body_length in H2.
  destruct (expect 58 r1) as [r2|] eqn:H3; [|discriminate]. apply expect_length in H3.
  destruct (value r2) as [[v1 r3]|] eqn:H4; [|discriminate]. apply Hv in H4.
  destruct (expect 44 r3) as [r4|] eqn:H5.
  { apply expect_length in H5. intros H. apply Ho in H. lia. }
  destruct (expect 125 r3) as [r4|] eqn:H6; [|discriminate].
  apply expect_length in H6. intros H. injection H as _ <-. lia.
Qed.

Lemma parse_consumes (fuel : nat) :
  consumes (parse_value fuel)
  /\ (forall acc, consumes (parse_elements fuel acc))
  /\ (forall acc, consumes (parse_members fuel acc)).
Proof.
  induction fuel as [|fuel (Hv & He & Hm)].
  - repeat split; intros; intros s v r; discriminate.
  - split; [|split]; simpl.
    + apply value_step_consumes; [apply He | apply Hm].
    + intros acc. apply elements_step_consumes; assumption.
    + intros acc. apply members_step_consumes; assumption.
Qed.

Lemma value_step_agree (e1 e2 m1 m2 : Parser) (s : jsstring) :
  (forall r, (List.length r < List.length s)%nat -> e1 r = e2 r) ->
  (forall r, (List.length r < List.length s)%nat -> m1 r = m2 r) ->
  value_step e1 m1 s = value_step e2 m2 s.
Proof.
  intros He Hm. unfold value_step.
  destruct (expect 123 s) as [r|] eqn:H1.
  { apply expect_length in H1. destruct (expect 125 r); [reflexivity | now apply Hm]. }
  destruct (expect 91 s) as [r|] eqn:H2; [|reflexivity].
  apply expect_length in H2. destruct (expect 93 r); [reflexivity | now apply He].
Qed.

Lemma elements_step_agree (v1 v2 : Parser) (o1 o2 : list JsValue -> Parser)
    (acc : list JsValue) (s : jsstring) :
  consumes v1 ->
  v1 s = v2 s ->
  (forall acc' r, (List.length r + 1 < List.length s)%nat -> o1 acc' r = o2 acc' r) ->
  elements_step v1 o1 acc s = elements_step v2 o2 acc s.
Proof.
  intros Hc Hv Ho. unfold elements_step. rewrite <- Hv.
  destruct (v1 s) as [[v r]|] eqn:H1; [|reflexivity]. apply Hc in H1.
  destruct (expect 44 r) as [r'|] eqn:H2; [|reflexivity].
  apply expect_length in H2. apply Ho. lia.
Qed.

Lemma members_step_agree (v1 v2 : Parser)
    (o1 o2 : list (jsstring * JsValue) -> Parser)
    (acc : list (jsstring * JsValue)) (s : jsstring) :
  consumes v1 ->
  (forall r, (List.length r < List.length s)%nat -> v1 r = v2 r) ->
  (forall acc' r, (List.length r + 1 < List.length s)%nat -> o1 acc' r = o2 acc' r) ->
  members_step v1 o1 acc s = members_step v2 o2 acc s.
Proof.
  intros Hc Hv Ho. unfold members_step.
  destruct (expect 34 s) as [r|] eqn:H1; [|reflexivity]. apply expect_length in H1.
  destruct (parse_string_body r) as [[k r1]|] eqn:H2; [|reflexivity].
  apply parse_string_body_length in H2.
  destruct (expect 58 r1) as [r2|] eqn:H3; [|reflexivity]. apply expect_length in H3.
  rewrite <- (Hv r2) by lia.
  destruct (v1 r2) as [[v r3]|] eqn:H4; [|reflexivity]. apply Hc in H4.
  destruct (expect 44 r3) as [r4|] eqn:H5; [|reflexivity].
  apply expect_length in H5. apply Ho. lia.
Qed.

(** One more unit of fuel changes nothing once there is enough. *)
Lemma parse_stable (fuel : nat) :
  (forall s, (2 * List.length s + 1 <= fuel)%nat ->
             parse_value (S fuel) s = parse_value fuel s)
  /\ (forall acc s, (2 * List.length s + 2 <= fuel)%nat ->
                    parse_elements (S fuel) acc s = parse_elements fuel acc s)
  /\ (forall acc s, (2 * List.length s + 2 <= fuel)%nat ->
                    parse_members (S fuel) acc s = parse_members fuel acc s).
Proof.
  induction fuel as [|fuel (Hv & He & Hm)].
  - repeat split; intros; lia.
  - destruct (parse_consumes (S fuel)) as (Hcv & _).
    split; [|split].
    + intros s Hs.
      change (value_step (parse_elements (S fuel) []) (parse_members (S fuel) []) s
              = value_step (parse_elements fuel []) (parse_members fuel []) s).
      apply value_step_agree; intros r Hr; [apply He | apply Hm]; lia.
    + intros acc s Hs.
      change (elements_step (parse_value (S fuel)) (parse_elements (S fuel)) acc s
              = elements_step (parse_value fuel) (parse_elements fuel) acc s).
      apply elements_step_agree; [exact Hcv | apply Hv; lia|].
      intros acc' r Hr. apply He. lia.
    + intros acc s Hs.
      change (members_step (parse_value (S fuel)) (parse_members (S fuel)) acc s
              = members_step (parse_value fuel) (parse_members fuel) acc s).
      apply members_step_agree; [exact Hcv | |].
      * intros r Hr. apply Hv. lia.
      * intros acc' r Hr. apply Hm. lia.
Qed.

(** The result of [JSON.parse] does not depend on the fuel, as long
    as there is as much as [parse] gives. *)
Lemma parse_fuel_enough (extra : nat) (text : jsstring) :
  parse_value (2 * List.length text + 2 + extra) text = parse_value (2 * List.length text + 2) text.
Proof.
  induction extra as [|extra IH]; [now rewrite Nat.add_0_r|].
  rewrite Nat.add_succ_r, <- IH.
  apply (proj1 (parse_stable (2 * List.length text + 2 + extra))). lia.
Qed.

End Fuel.

(** ** Sample runs of the parser *)

Example parse_record :
  Json.parse (jsq "{ 'title': 'X', 'authors': ['a', 'b'], 'year': '1955' }")
  = Some (JObj [(js "title", JStr (js "X"));
                (js "authors", JArr [JStr (js "a"); JStr (js "b")]);
                (js "year", JStr (js "1955"))]).
Proof. vm_compute. reflexivity. Qed.

Example parse_nested :
  Json.parse (jsq "|[[[[[]]]], {'a': {'b': [1, -2.5e3, true, null]}}]|")
  = Some (JArr [JArr [JArr [JArr [JArr []]]];
                JObj [(js "a",
                       JObj [(js "b",
                              JArr [JNum (js "1"); JNum (js "-2.5e3");
                                    JBool true; JNull])])]]).
Proof. vm_compute. reflexivity. Qed.

Example parse_duplicate_key :
  Json.parse (jsq "{'a': 1, 'b': 2, 'a': 3}")
  = Some (JObj [(js "a", JNum (js "3")); (js "b", JNum (js "2"))]).
Proof. vm_compute. reflexivity. Qed.

Example parse_escapes :
  Json.parse (jsq "'\u05e2\n\/'") = Some (JStr [0x5E2; 10; 47]%N).
Proof. vm_compute. reflexivity. Qed.

Example parse_rejects :
  map Json.parse
    [jsq ""; jsq "[1, 2,]"; jsq "{'a': 1,}"; jsq "01"; jsq "1."; jsq "tru";
     jsq "{} {}"; jsq "{a: 1}"; js "'a'"; jsq "Here is the JSON: {}"]
  = repeat None 10.
Proof. vm_compute. reflexivity. Qed.

(** Numbers in a condition: zero in any spelling is falsy, and so is a
    literal below half of the smallest Number ([5e-324]). *)
Example number_truthiness :
  map (fun lit => truthy (JNum (js lit)))
    ["0"; "-0"; "0.000E-3"; "1e-400"; "2e-324";
     "3e-324"; "5e-324"; "0.00001e3"; "1E400"; "429"; "-7.5"]%string
  = [false; false; false; false; false;
     true; true; true; true; true; true].
Proof. vm_compute. reflexivity. Qed.

Example js_hebrew_literal :
  js "עמיחי" = [0x5E2; 0x5DE; 0x5D9; 0x5D7; 0x5D9]%N.
Proof. reflexivity. Qed.

(** ** Strings *)

Section StringFacts.

Local Open Scope N_scope.

Lemma trimStart_white (c : N) (s : jsstring) :
  is_white_space c = true -> trimStart (c :: s) = trimStart s.
Proof. intros Hc. simpl. now rewrite Hc. Qed.

Lemma trimStart_black (c : N) (s : jsstring) :
  is_white_space c = false -> trimStart (c :: s) = c :: s.
Proof. intros Hc. simpl. now rewrite Hc. Qed.

Lemma trimEnd_white (c : N) (s : jsstring) :
  is_white_space c = true -> trimEnd (s ++ [c]) = trimEnd s.
Proof.
  intros Hc. unfold trimEnd. rewrite rev_app_distr. simpl. now rewrite Hc.
Qed.

Lemma trimEnd_black (c : N) (s : jsstring) :
  is_white_space c = false -> trimEnd (s ++ [c]) = s ++ [c].
Proof.
  intros Hc. unfold trimEnd. rewrite rev_app_distr. simpl. rewrite Hc.
  simpl. now rewrite rev_involutive.
Qed.

(** White space appended to a string does not survive [trim]. *)
Lemma trim_white_after (c : N) (s : jsstring) :
  is_white_space c = true -> trim (s ++ [c]) = trim s.
Proof.
  intros Hc. unfold trim. induction s as [|a s IH]; simpl.
  - now rewrite Hc.
  - destruct (is_white_space a) eqn:Ha; [exact IH|].
    change (a :: s ++ [c]) with ((a :: s) ++ [c]).
    now apply trimEnd_white.
Qed.

Lemma trim_white_before (c : N) (s : jsstring) :
  is_white_space c = true -> trim (c :: s) = trim s.
Proof. intros Hc. unfold trim. now rewrite trimStart_white. Qed.

Lemma starts_with_app (pat rest : jsstring) : starts_with pat (pat ++ rest) = true.
Proof.
  induction pat as [|a pat IH]; simpl; [reflexivity|].
  now rewrite N.eqb_refl, IH.
Qed.

(** A stretch free of the first code unit of the pattern is copied. *)
Lemma replace_global_skips (p : N) (pat rep s t : jsstring) :
  ~ In p s ->
  replace_global (p :: pat) rep (s ++ t) = s ++ replace_global (p :: pat) rep t.
Proof.
  unfold replace_global. induction s as [|c s IH]; intros Hs; [reflexivity|].
  simpl app. cbn [replace_global_from starts_with].
  destruct (N.eqb_spec p c) as [->|Hpc].
  - exfalso. apply Hs. now left.
  - cbn [andb]. f_equal. apply IH. intros Hin. apply Hs. now right.
Qed.

Lemma replace_global_absent (p : N) (pat rep s : jsstring) :
  ~ In p s -> replace_global (p :: pat) rep s = s.
Proof.
  intros Hs. rewrite <- (app_nil_r s) at 1.
  rewrite replace_global_skips by assumption.
  unfold replace_global. simpl. apply app_nil_r.
Qed.

Lemma trimStart_decompose (s : jsstring) :
  exists before, s = before ++ trimStart s /\ all_white before.
Proof.
  induction s as [|c s (before & Hs & Hb)]; simpl.
  - exists []. split; [reflexivity | constructor].
  - destruct (is_white_space c) eqn:Hc.
    + exists (c :: before). split; [simpl; congruence | now constructor].
    + exists []. split; [reflexivity | constructor].
Qed.

Lemma trimStart_head (s : jsstring) (c : N) (r : jsstring) :
  trimStart s = c :: r -> is_white_space c = false.
Proof.
  induction s as [|a s IH]; simpl; [discriminate|].
  destruct (is_white_space a) eqn:Ha; [exact IH|].
  intros H. injection H as -> _. exact Ha.
Qed.

Lemma trimEnd_decompose (s : jsstring) :
  exists after, s = trimEnd s ++ after /\ all_white after.
Proof.
  unfold trimEnd. destruct (trimStart_decompose (rev s)) as (b & Hs & Hb).
  exists (rev b). split.
  - rewrite <- rev_app_distr, <- Hs. now rewrite rev_involutive.
  - unfold all_white in *. now apply Forall_rev.
Qed.

Lemma trimEnd_last (s : jsstring) (d : N) :
  trimEnd s <> [] -> is_white_space (last (trimEnd s) d) = false.
Proof.
  unfold trimEnd.
  destruct (trimStart (rev s)) as [|c r] eqn:H; [simpl; congruence|].
  intros _. simpl rev. rewrite last_last. exact (trimStart_head _ _ _ H).
Qed.

(** Dropping white space at the end keeps a first code unit that is
    not white space. *)
Lemma trimEnd_keeps_head (c : N) (s : jsstring) :
  is_white_space c = false -> exists r, trimEnd (c :: s) = c :: r.
Proof.
  intros Hc. induction s as [|a s IH] using rev_ind.
  - exists []. change [c] with ([] ++ [c]). now rewrite trimEnd_black.
  - change (c :: s ++ [a]) with ((c :: s) ++ [a]).
    destruct (is_white_space a) eqn:Ha.
    + rewrite trimEnd_white by assumption. exact IH.
    + rewrite trimEnd_black by assumption. now exists (s ++ [a]).
Qed.

Lemma trim_black_ends (s : jsstring) : black_ends (trim s).
Proof.
  unfold trim. destruct (trimStart s) as [|c r] eqn:Hs; [exact I|].
  pose proof (trimStart_head _ _ _ Hs) as Hc.
  destruct (trimEnd_keeps_head c r Hc) as (r' & Hr).
  unfold black_ends. rewrite Hr. split; [exact Hc|].
  rewrite <- Hr. apply trimEnd_last. rewrite Hr. discriminate.
Qed.

(** [trim] meets its description. *)
Lemma trim_decompose (s : jsstring) : trimmed_of s (trim s).
Proof.
  split; [apply trim_black_ends|].
  destruct (trimStart_decompose s) as (before & Hs & Hb).
  destruct (trimEnd_decompose (trimStart s)) as (after & Ht & Ha).
  exists before, after. unfold trim. now rewrite <- Ht.
Qed.

Lemma split_not_nil (sep : N) (s : jsstring) : split sep s <> [].
Proof.
  destruct s as [|c s]; simpl; [discriminate|].
  destruct (c =? sep); [discriminate|]. destruct (split sep s); discriminate.
Qed.

(** The pieces, put together again with the separator, are the string. *)
Lemma join_split (sep : N) (s : jsstring) : join [sep] (split sep s) = s.
Proof.
  induction s as [|c s IH]; [reflexivity|].
  pose proof (split_not_nil sep s) as Hne.
  simpl split. destruct (N.eqb_spec c sep) as [->|Hc];
    destruct (split sep s) as [|p ps] eqn:Hsp; try congruence.
  - change (join [sep] ([] :: p :: ps)) with (sep :: join [sep] (p :: ps)).
    now rewrite IH.
  - destruct ps as [|p' ps]; simpl in *; congruence.
Qed.

Lemma split_pieces (sep : N) (s : jsstring) :
  Forall (fun piece => ~ In sep piece) (split sep s).
Proof.
  induction s as [|c s IH]; simpl.
  - constructor; [intros [] | constructor].
  - destruct (N.eqb_spec c sep) as [->|Hc].
    + constructor; [intros [] | exact IH].
    + destruct (split sep s) as [|p ps]; [constructor; [|constructor]|].
      * intros [H|[]]. congruence.
      * inversion IH as [|? ? Hp Hps]; subst. constructor; [|exact Hps].
        intros [H|H]; [congruence | now apply Hp].
Qed.

Lemma split_whole (sep : N) (s : jsstring) : ~ In sep s -> split sep s = [s].
Proof.
  induction s as [|c s IH]; intros Hs; [reflexivity|]. simpl.
  destruct (N.eqb_spec c sep) as [->|Hc]; [exfalso; apply Hs; now left|].
  rewrite IH; [reflexivity|]. intros H. apply Hs. now right.
Qed.

Lemma split_app (sep : N) (p s : jsstring) :
  ~ In sep p -> split sep (p ++ sep :: s) = p :: split sep s.
Proof.
  induction p as [|c p IH]; intros Hp; simpl.
  - now rewrite N.eqb_refl.
  - destruct (N.eqb_spec c sep) as [->|Hc]; [exfalso; apply Hp; now left|].
    rewrite IH; [reflexivity|]. intros H. apply Hp. now right.
Qed.

(** Pieces free of the separator are recovered from their join. *)
Lemma split_join (sep : N) (pieces : list jsstring) :
  pieces <> [] ->
  Forall (fun piece => ~ In sep piece) pieces ->
  split sep (join [sep] pieces) = pieces.
Proof.
  induction pieces as [|p ps IH]; intros Hne Hps; [congruence|].
  inversion Hps as [|? ? Hp Hps']; subst.
  destruct ps as [|q ps].
  - simpl. now apply split_whole.
  - change (join [sep] (p :: q :: ps)) with (p ++ sep :: join [sep] (q :: ps)).
    rewrite split_app by assumption. f_equal. apply IH; [discriminate | assumption].
Qed.

Lemma trimStart_all_white (b s : jsstring) :
  all_white b -> trimStart (b ++ s) = trimStart s.
Proof.
  induction 1 as [|c b Hc Hb IH]; [reflexivity|].
  simpl. now rewrite Hc.
Qed.

Lemma trimEnd_all_white (s a : jsstring) :
  all_white a -> trimEnd (s ++ a) = trimEnd s.
Proof.
  intros Ha. unfold trimEnd. rewrite rev_app_distr.
  rewrite trimStart_all_white; [reflexivity|].
  unfold all_white in *. now apply Forall_rev.
Qed.

(** A string whose last code unit is not white space survives
    [trimEnd], whatever follows it. *)
Lemma trimEnd_keeps_prefix (a x : jsstring) (d : N) :
  a <> [] -> is_white_space (last a d) = false ->
  exists x', trimEnd (a ++ x) = a ++ x'.
Proof.
  intros Hne Hlast. induction x as [|c x IH] using rev_ind.
  - exists []. rewrite app_nil_r.
    destruct (exists_last Hne) as (a' & l & ->).
    rewrite last_last in Hlast. now rewrite trimEnd_black.
  - rewrite app_assoc. destruct (is_white_space c) eqn:Hc.
    + rewrite trimEnd_white by assumption. exact IH.
    + rewrite trimEnd_black by assumption. exists (x ++ [c]).
      now rewrite app_assoc.
Qed.

Lemma trimEnd_black_end (a : jsstring) (d : N) :
  a <> [] -> is_white_space (last a d) = false -> trimEnd a = a.
Proof.
  intros Hne Hlast. destruct (exists_last Hne) as (a' & l & ->).
  rewrite last_last in Hlast. now apply trimEnd_black.
Qed.

(** The description of [trim] determines its result. *)
Lemma trimmed_of_trim (line trimmed : jsstring) :
  trimmed_of line trimmed -> trimmed = trim line.
Proof.
  intros (Hends & before & after & -> & Hb & Ha).
  unfold trim. rewrite trimStart_all_white by assumption.
  destruct trimmed as [|c r].
  - simpl. rewrite <- (app_nil_r after), trimStart_all_white by assumption.
    reflexivity.
  - destruct Hends as [Hc Hlast].
    change ((c :: r) ++ after) with (c :: (r ++ after)).
    rewrite trimStart_black by assumption.
    change (c :: (r ++ after)) with ((c :: r) ++ after).
    rewrite trimEnd_all_white by assumption.
    symmetry. apply (trimEnd_black_end (c :: r) c); [discriminate | assumption].
Qed.

Lemma trim_idempotent (s : jsstring) : trim (trim s) = trim s.
Proof.
  symmetry. apply trimmed_of_trim. split; [apply trim_black_ends|].
  exists [], []. rewrite app_nil_r. repeat split; constructor.
Qed.

(** What follows a string cannot shorten what [trim] keeps of it. *)
Lemma trim_app_length (p tail : jsstring) :
  (List.length (trim p) <= List.length (trim (p ++ tail)))%nat.
Proof.
  destruct (trim_decompose p) as (Hends & before & after & Hp & Hb & _).
  destruct (trim p) as [|c r] eqn:Ht; [apply Nat.le_0_l|].
  destruct Hends as [Hc Hlast].
  rewrite Hp. unfold trim. rewrite <- !app_assoc.
  rewrite trimStart_all_white by assumption.
  change ((c :: r) ++ after ++ tail) with (c :: (r ++ after ++ tail)).
  rewrite trimStart_black by assumption.
  change (c :: (r ++ after ++ tail)) with ((c :: r) ++ after ++ tail).
  destruct (trimEnd_keeps_prefix (c :: r) (after ++ tail) c) as (x' & ->);
    [discriminate | assumption |].
  rewrite length_app. apply Nat.le_add_r.
Qed.

Lemma replace_first_prefix (pat rep s : jsstring) :
  starts_with pat s = true ->
  replace_first pat rep s = rep ++ skipn (List.length pat) s.
Proof.
  destruct s as [|c s]; simpl; intros H; rewrite H; [|reflexivity].
  destruct pat; [simpl; now rewrite app_nil_r | discriminate H].
Qed.

Lemma replace_first_absent (pat rep s : jsstring) :
  includes pat s = false -> replace_first pat rep s = s.
Proof.
  induction s as [|c s IH]; simpl; intros H; apply orb_false_elim in H;
    destruct H as [Hhere Hlater]; rewrite Hhere; [reflexivity|].
  now rewrite IH.
Qed.

Lemma in_firstn {A : Type} (n : nat) (l : list A) (x : A) :
  In x (firstn n l) -> In x l.
Proof.
  intros H. rewrite <- (firstn_skipn n l). apply in_or_app. now left.
Qed.

Lemma in_trimStart (c : N) (s : jsstring) : In c (trimStart s) -> In c s.
Proof.
  induction s as [|a s IH]; simpl; [tauto|].
  destruct (is_white_space a); [intros H; right; now apply IH | tauto].
Qed.

Lemma in_trim (c : N) (s : jsstring) : In c (trim s) -> In c s.
Proof.
  unfold trim, trimEnd. intros H. apply in_trimStart.
  apply in_rev. apply in_trimStart. now apply in_rev in H.
Qed.

Lemma in_join (c : N) (sep : jsstring) (pieces : list jsstring) :
  In c (join sep pieces) -> In c sep \/ exists piece, In piece pieces /\ In c piece.
Proof.
  induction pieces as [|p ps IH]; [intros []|].
  destruct ps as [|q ps].
  - simpl. intros H. right. exists p. split; [now left | exact H].
  - change (join sep (p :: q :: ps)) with (p ++ sep ++ join sep (q :: ps)).
    intros H. apply in_app_or in H. destruct H as [H|H].
    + right. exists p. split; [now left | exact H].
    + apply in_app_or in H. destruct H as [H|H]; [now left|].
      destruct (IH H) as [Hs|(piece & Hin & Hc)]; [now left|].
      right. exists piece. split; [now right | exact Hc].
Qed.

End StringFacts.

(** ** The reply-cleaning step of [fetchBookData] *)

Section CleanJson.

Local Open Scope N_scope.

Lemma cleanJson_plain (s : jsstring) :
  ~ In BACKTICK s -> cleanJson s = trim s.
Proof.
  intros Hs. unfold cleanJson.
  change (js "```json") with (BACKTICK :: js "``json").
  change (js "```") with (BACKTICK :: js "``").
  rewrite (@replace_global_absent BACKTICK (js "``json") [] s Hs).
  now rewrite (@replace_global_absent BACKTICK (js "``") [] s Hs).
Qed.

Lemma cleanJson_fenced (s : jsstring) :
  ~ In BACKTICK s -> cleanJson (fenced s) = trim s.
Proof.
  intros Hs. unfold cleanJson, fenced.
  assert (Hinner : ~ In BACKTICK (LF :: s)).
  { intros [H|H]; [discriminate H | now apply Hs]. }
  assert (Hfirst :
    replace_global (js "```json") [] (js "```json" ++ [LF] ++ s ++ [LF] ++ js "```")
    = (LF :: s) ++ LF :: js "```").
  { transitivity (replace_global (js "```json") [] ((LF :: s) ++ LF :: js "```")).
    - reflexivity.
    - change (js "```json") with (BACKTICK :: js "``json").
      rewrite replace_global_skips by assumption. reflexivity. }
  rewrite Hfirst.
  assert (Hinner' : ~ In BACKTICK ((LF :: s) ++ [LF])).
  { intros H. apply in_app_or in H. destruct H as [H|[H|[]]];
      [now apply Hinner | discriminate H]. }
  change ((LF :: s) ++ LF :: js "```") with ((LF :: s) ++ [LF] ++ js "```").
  rewrite app_assoc.
  change (js "```") with (BACKTICK :: js "``") at 1.
  rewrite replace_global_skips by assumption.
  change (replace_global (BACKTICK :: js "``") [] (js "```")) with (@nil N).
  rewrite app_nil_r.
  rewrite trim_white_after by reflexivity.
  now apply trim_white_before.
Qed.

(** C6.  A reply [s] without backticks, wrapped in a [```json] fence,
    is cleaned to the same text as [s] itself, so that [JSON.parse]
    gives the same record (or the same [SyntaxError]) for both; and
    when [s] has no white space around it, that is the record that
    [JSON.parse(s)] gives. *)
Theorem fenced_reply_parses_as_unwrapped (s : jsstring) :
  ~ In BACKTICK s ->
  cleanJson (fenced s) = cleanJson s
  /\ Json.parse (cleanJson (fenced s)) = Json.parse (cleanJson s)
  /\ (trim s = s -> Json.parse (cleanJson (fenced s)) = Json.parse s).
Proof.
  intros Hs.
  assert (H : cleanJson (fenced s) = cleanJson s)
    by now rewrite cleanJson_fenced, cleanJson_plain.
  repeat split.
  - exact H.
  - now rewrite H.
  - intros Htrim. now rewrite cleanJson_fenced, Htrim.
Qed.

Lemma fenced_reply_parses_as_unwrapped_witness :
  ~ In BACKTICK (jsq "{'title':'X'}")
  /\ fenced (jsq "{'title':'X'}") = jsq "```json|{'title':'X'}|```"
  /\ Json.parse (cleanJson (jsq "```json|{'title':'X'}|```"))
     = Some (JObj [(js "title", JStr (js "X"))])
  /\ Json.parse (cleanJson (jsq "{'title':'X'}"))
     = Some (JObj [(js "title", JStr (js "X"))]).
Proof.
  assert (Hs : ~ In BACKTICK (jsq "{'title':'X'}")).
  { vm_compute. intuition discriminate. }
  split; [exact Hs|]. split; [reflexivity|].
  destruct (fenced_reply_parses_as_unwrapped (jsq "{'title':'X'}") Hs)
    as (_ & Hparse & _).
  split.
  - change (jsq "```json|{'title':'X'}|```") with (fenced (jsq "{'title':'X'}")).
    rewrite Hparse. reflexivity.
  - reflexivity.
Defined.

End CleanJson.

(** ** Computations that settle, computations that return *)

Section Settling.

Context {S : Type}.

Lemma settles_ret {A : Type} (a : A) : settles (@ret S A a).
Proof. intros s. discriminate. Qed.

Lemma settles_throw {A : Type} (e : Exn) : settles (@throw S A e).
Proof. intros s. discriminate. Qed.

Lemma settles_bind {A B : Type} (c : Comp S A) (k : A -> Comp S B) :
  settles c -> (forall a, settles (k a)) -> settles (bind c k).
Proof.
  intros Hc Hk s. unfold bind. specialize (Hc s).
  destruct (c s) as [[a|e|] s']; simpl in *;
    [apply Hk | discriminate | congruence].
Qed.

Lemma settles_try_catch {A : Type} (c : Comp S A) (h : Exn -> Comp S A) :
  settles c -> (forall e, settles (h e)) -> settles (try_catch c h).
Proof.
  intros Hc Hh s. unfold try_catch. specialize (Hc s).
  destruct (c s) as [[a|e|] s']; simpl in *;
    [discriminate | apply Hh | congruence].
Qed.

Lemma settles_of_sum {A : Type} (r : Exn + A) : settles (@of_sum S A r).
Proof. destruct r; [apply settles_throw | apply settles_ret]. Qed.

Lemma settles_as_string (v : JsValue) : settles (@as_string S v).
Proof. destruct v; first [apply settles_throw | apply settles_ret]. Qed.

Lemma settles_JSON_parse (text : jsstring) : settles (@JSON_parse S text).
Proof.
  unfold JSON_parse. destruct (Json.parse text);
    [apply settles_ret | apply settles_throw].
Qed.

Lemma settles_encodeURIComponent (v : JsValue) : settles (@encodeURIComponent S v).
Proof.
  unfold encodeURIComponent.
  destruct (negb (stringifiable v)); [apply settles_throw|].
  destruct (negb (well_formed_text v)); [apply settles_throw | apply settles_ret].
Qed.

Lemma returns_settles {A : Type} (c : Comp S A) : returns c -> settles c.
Proof. intros Hc s. destruct (Hc s) as (a & s' & ->). discriminate. Qed.

Lemma returns_ret {A : Type} (a : A) : returns (@ret S A a).
Proof. intros s. unfold ret. eauto. Qed.

Lemma returns_bind {A B : Type} (c : Comp S A) (k : A -> Comp S B) :
  returns c -> (forall a, returns (k a)) -> returns (bind c k).
Proof.
  intros Hc Hk s. unfold bind. destruct (Hc s) as (a & s' & ->). apply Hk.
Qed.

(** A [try] whose body settles and whose handler returns, returns. *)
Lemma returns_try_catch {A : Type} (c : Comp S A) (h : Exn -> Comp S A) :
  settles c -> (forall e, returns (h e)) -> returns (try_catch c h).
Proof.
  intros Hc Hh s. unfold try_catch. specialize (Hc s).
  destruct (c s) as [[a|e|] s']; simpl in *;
    [eauto | apply Hh | congruence].
Qed.

End Settling.

Lemma returns_emit (ev : Event) : returns (emit ev).
Proof. intros tr. unfold emit. eauto. Qed.

Lemma settles_fetch (net : Network) (req : Request) : settles (fetch net req).
Proof. intros tr. unfold fetch. destruct (net tr req); discriminate. Qed.

Create HintDb comp.

#[export] Hint Resolve settles_ret settles_throw settles_of_sum settles_as_string
  settles_JSON_parse settles_encodeURIComponent settles_fetch returns_ret
  returns_emit : comp.

(** Settling follows the shape of the program. *)
Ltac comp_step :=
  match goal with
  | |- settles (bind _ _) => apply settles_bind; [|intros ?]
  | |- settles (try_catch _ _) => apply settles_try_catch; [|intros ?]
  | |- returns (bind _ _) => apply returns_bind; [|intros ?]
  | |- returns (try_catch _ _) => apply returns_try_catch; [|intros ?]
  | |- settles (if ?b then _ else _) => destruct b
  | |- settles (match ?x with _ => _ end) => destruct x
  | |- returns (match ?x with _ => _ end) => destruct x
  | |- settles (sleep _) => apply returns_settles, returns_emit
  | |- settles (console_error _ _) => apply returns_settles, returns_emit
  | |- returns (console_error _ _) => apply returns_emit
  | |- settles (response_json _) => apply settles_of_sum
  | |- _ => progress cbv zeta
  | |- _ => solve [auto with comp]
  end.

(** ** Traces only grow *)

Section Growth.

Lemma grows_ret {A : Type} (a : A) : grows (ret a).
Proof. intros tr o tr' H. injection H as _ <-. exists []. now rewrite app_nil_r. Qed.

Lemma grows_throw {A : Type} (e : Exn) : grows (@throw Trace A e).
Proof. intros tr o tr' H. injection H as _ <-. exists []. now rewrite app_nil_r. Qed.

Lemma grows_emit (ev : Event) : grows (emit ev).
Proof. intros tr o tr' H. injection H as _ <-. now exists [ev]. Qed.

Lemma grows_fetch (net : Network) (req : Request) : grows (fetch net req).
Proof.
  intros tr o tr'. unfold fetch.
  destruct (net tr req); intros H; injection H as _ <-; now exists [Fetch req].
Qed.

Lemma grows_of_sum {A : Type} (r : Exn + A) : grows (of_sum r).
Proof. destruct r; [apply grows_throw | apply grows_ret]. Qed.

Lemma grows_as_string (v : JsValue) : grows (as_string v).
Proof. destruct v; first [apply grows_throw | apply grows_ret]. Qed.

Lemma grows_JSON_parse (text : jsstring) : grows (JSON_parse text).
Proof.
  unfold JSON_parse. destruct (Json.parse text); [apply grows_ret | apply grows_throw].
Qed.

Lemma grows_encodeURIComponent (v : JsValue) : grows (encodeURIComponent v).
Proof.
  unfold encodeURIComponent.
  destruct (negb (stringifiable v)); [apply grows_throw|].
  destruct (negb (well_formed_text v)); [apply grows_throw | apply grows_ret].
Qed.

Lemma grows_bind {A B : Type} (c : Async A) (k : A -> Async B) :
  grows c -> (forall a, grows (k a)) -> grows (bind c k).
Proof.
  intros Hc Hk tr o tr'. unfold bind.
  destruct (c tr) as [[a|e|] tr1] eqn:Hrun; intros H;
    destruct (Hc _ _ _ Hrun) as (more1 & ->).
  - destruct (Hk a _ _ _ H) as (more2 & ->).
    exists (more1 ++ more2). now rewrite app_assoc.
  - injection H as _ <-. now exists more1.
  - injection H as _ <-. now exists more1.
Qed.

Lemma grows_try_catch {A : Type} (c : Async A) (h : Exn -> Async A) :
  grows c -> (forall e, grows (h e)) -> grows (try_catch c h).
Proof.
  intros Hc Hh tr o tr'. unfold try_catch.
  destruct (c tr) as [[a|e|] tr1] eqn:Hrun; intros H;
    destruct (Hc _ _ _ Hrun) as (more1 & ->).
  - injection H as _ <-. now exists more1.
  - destruct (Hh e _ _ _ H) as (more2 & ->).
    exists (more1 ++ more2). now rewrite app_assoc.
  - injection H as _ <-. now exists more1.
Qed.

End Growth.

#[export] Hint Resolve grows_ret grows_throw grows_emit grows_fetch grows_of_sum
  grows_as_string grows_JSON_parse grows_encodeURIComponent : comp.

Ltac grows_step :=
  match goal with
  | |- grows (bind _ _) => apply grows_bind; [|intros ?]
  | |- grows (try_catch _ _) => apply grows_try_catch; [|intros ?]
  | |- grows (if ?b then _ else _) => destruct b
  | |- grows (match ?x with _ => _ end) => destruct x
  | |- grows (sleep _) => apply grows_emit
  | |- grows (console_error _ _) => apply grows_emit
  | |- grows (response_json _) => apply grows_of_sum
  | |- _ => progress cbv zeta
  | |- _ => solve [auto with comp]
  end.

(** ** The computations of [fetchBookData.ts] always return *)

Section Totality.

Variable net : Network.

Lemma cover_attempt_returns (title : JsValue) : returns (cover_attempt net title).
Proof. unfold cover_attempt. repeat comp_step. Qed.

Lemma fetchCoverWithRetry_returns (title : JsValue) (retries : nat) :
  returns (fetchCoverWithRetry net title retries).
Proof.
  unfold fetchCoverWithRetry.
  induction retries as [|n IH]; simpl; [apply returns_ret|].
  apply returns_bind; [apply cover_attempt_returns|].
  intros [|v]; [exact IH | apply returns_ret].
Qed.

(** [testAI] never throws outward. *)
Lemma testAI_returns : returns (testAI net).
Proof. unfold testAI. repeat comp_step. Qed.

(** [fetchBookData] resolves, to a record or to [undefined]. *)
Lemma fetchBookData_returns (lines : list jsstring) :
  returns (fetchBookData net lines).
Proof.
  unfold fetchBookData. repeat comp_step.
  apply returns_settles, fetchCoverWithRetry_returns.
Qed.

Lemma fetchCoverWithRetry_grows (title : JsValue) (retries : nat) :
  grows (fetchCoverWithRetry net title retries).
Proof.
  unfold fetchCoverWithRetry.
  induction retries as [|n IH]; simpl; [apply grows_ret|].
  apply grows_bind.
  - unfold cover_attempt. repeat grows_step.
  - intros [|v]; [exact IH | apply grows_ret].
Qed.

(** [testAI] sends its one request and nothing else. *)
Lemma testAI_trace (tr : Trace) (o : Outcome Heartbeat) (tr' : Trace) :
  testAI net tr = (o, tr') -> tr' = tr ++ [Fetch HeartbeatRequest].
Proof.
  unfold testAI, try_catch, bind, fetch, response_json, of_sum, member, ret, throw.
  destruct (net tr HeartbeatRequest) as [e|res]; [congruence|].
  destruct (json res) as [e|data]; [congruence|].
  destruct (nullish data); congruence.
Qed.

(** [fetchBookData] starts with its request to the inference endpoint. *)
Lemma fetchBookData_trace (lines : list jsstring) (tr : Trace)
    (o : Outcome JsValue) (tr' : Trace) :
  fetchBookData net lines tr = (o, tr') ->
  exists more, tr' = tr ++ Fetch (InferenceRequest (join [LF] lines)) :: more.
Proof.
  unfold fetchBookData. unfold try_catch. unfold bind at 1. unfold fetch at 1.
  destruct (net tr (InferenceRequest (join [LF] lines))) as [e|res].
  - intros H. injection H as _ <-.
    exists [ConsoleError (js "Agent Logic Error:") e].
    now rewrite <- app_assoc.
  - match goal with
    | |- match ?c ?t with _ => _ end = _ -> _ =>
        assert (Hk : grows c);
        [|destruct (c t) as [[v|e|] tr1] eqn:Hrun;
          destruct (Hk _ _ _ Hrun) as (more & ->)]
    end.
    + repeat grows_step. apply fetchCoverWithRetry_grows.
    + intros H. injection H as _ <-. exists more. now rewrite <- app_assoc.
    + intros H. injection H as _ <-.
      exists (more ++ [ConsoleError (js "Agent Logic Error:") e]).
      now rewrite <- !app_assoc.
    + intros H. injection H as _ <-. exists more. now rewrite <- app_assoc.
Qed.

(** What [fetchBookData] resolves to is [undefined] or an object. *)
Lemma fetchBookData_shape (lines : list jsstring) (tr : Trace)
    (result : JsValue) (tr' : Trace) :
  fetchBookData net lines tr = (Returned result, tr') ->
  result = JUndefined \/ exists props, result = JObj props.
Proof.
  unfold fetchBookData, try_catch, bind, fetch, response_json, of_sum, as_string,
    JSON_parse, member, console_error, emit, ret, throw.
  destruct (net tr (InferenceRequest (join [LF] lines))) as [e|res];
    [intros H; injection H as <- _; now left|].
  destruct (json res) as [e|data]; [intros H; injection H as <- _; now left|].
  destruct (nullish data); [intros H; injection H as <- _; now left|].
  destruct (truthy (opt_chain (get data (js "candidates")) candidate_text_path));
    cbn [negb]; [|intros H; injection H as <- _; now left].
  destruct (opt_chain (get data (js "candidates")) candidate_text_path);
    try (intros H; injection H as <- _; now left).
  destruct (Json.parse (cleanJson s)) as [bookData|];
    [|intros H; injection H as <- _; now left].
  destruct (nullish bookData); [intros H; injection H as <- _; now left|].
  destruct (fetchCoverWithRetry net (or_else (get bookData (js "title")) (JStr []))
              default_retries
              (tr ++ [Fetch (InferenceRequest (join [LF] lines))]))
    as [[coverUri|e|] tr1]; intros H;
    first [discriminate H | injection H as <- _; eauto].
Qed.

End Totality.

(** ** The orchestrator *)

Ltac run_scan :=
  unfold scan, handleScanCover;
  cbv [bind setOcrLines setBookResult setAiStatus setError setIsLoading update
       try_finally try_catch encode_image ret throw never lift of_sum member
       as_string fetch response_json
       ocrLines bookResult isLoading aiStatus error].

Lemma status_report_shown {S : Type} (h : Heartbeat) (s : S) :
  reportable h = true -> status_report h s = (Returned (StatusReport h), s).
Proof.
  destruct h as [v|e]; simpl; [|reflexivity]. now intros ->.
Qed.

Lemma status_report_throws {S : Type} (h : Heartbeat) (s : S) :
  reportable h = false -> status_report h s = (Threw TypeError, s).
Proof.
  destruct h as [v|e]; simpl; [|discriminate]. now intros ->.
Qed.

Section Scan.

Variable w : World.
Variable st : ScanState.

Lemma scan_read_error :
  read_file w = ReadError ->
  scan w st = (Returned tt, (failed_with (Caught (Failure (js "Read failed"))), [])).
Proof. intros Hread. run_scan. rewrite Hread. reflexivity. Qed.

(** No handler waits for the image to fail. *)
Lemma scan_image_error (dataUrl : jsstring) :
  read_file w = ReadLoad dataUrl ->
  decode_image w dataUrl = ImageError ->
  scan w st = (Pending, (suspended, [])).
Proof. intros Hread Hdecode. run_scan. rewrite Hread, Hdecode. reflexivity. Qed.

Section Encoded.

Variables dataUrl jpeg : jsstring.
Hypothesis Hread : read_file w = ReadLoad dataUrl.
Hypothesis Hdecode : decode_image w dataUrl = ImageLoad jpeg.

Lemma scan_fetch_rejected (e : Exn) :
  network w [] (OcrRequest (base64_of jpeg)) = inl e ->
  scan w st = (Returned tt, (failed_with (Caught e), [ocr_request jpeg])).
Proof.
  intros Hnet. run_scan. rewrite Hread, Hdecode. cbv beta iota. simpl app.
  rewrite Hnet. reflexivity.
Qed.

Section Answered.

Variable res : Response.
Hypothesis Hnet : network w [] (OcrRequest (base64_of jpeg)) = inr res.

Lemma scan_body_rejected (e : Exn) :
  json res = inl e ->
  scan w st = (Returned tt, (failed_with (Caught e), [ocr_request jpeg])).
Proof.
  intros Hjson. run_scan. rewrite Hread, Hdecode. cbv beta iota. simpl app.
  rewrite Hnet. cbv beta iota. rewrite Hjson. reflexivity.
Qed.

Lemma scan_null_reply (data : JsValue) :
  json res = inr data ->
  nullish data = true ->
  scan w st = (Returned tt, (failed_with (Caught TypeError), [ocr_request jpeg])).
Proof.
  intros Hjson Hdata. run_scan. rewrite Hread, Hdecode. cbv beta iota.
  simpl app. rewrite Hnet. cbv beta iota. rewrite Hjson, Hdata. reflexivity.
Qed.

Section Replied.

Variable data : JsValue.
Hypothesis Hjson : json res = inr data.
Hypothesis Hdata : nullish data = false.

(** A reply that does not pass the guard ends the scan with the
    no-text error, right after the request to the service. *)
Lemma scan_no_text :
  truthy (get data (js "success")) && truthy (get data (js "text")) = false ->
  scan w st = (Returned tt, (failed_with NoTextDetected, [ocr_request jpeg])).
Proof.
  intros Hguard. run_scan.
  rewrite Hread, Hdecode. cbv beta iota. simpl app. rewrite Hnet.
  cbv beta iota. rewrite Hjson, Hdata. cbv beta iota.
  destruct (truthy (get data (js "success"))) eqn:Hsuccess.
  - simpl in Hguard. rewrite Hguard. reflexivity.
  - rewrite Hsuccess. reflexivity.
Qed.

(** A [text] that is truthy but not a string has no [split]. *)
Lemma scan_text_not_string :
  truthy (get data (js "success")) = true ->
  truthy (get data (js "text")) = true ->
  (forall t, get data (js "text") <> JStr t) ->
  scan w st = (Returned tt, (failed_with (Caught TypeError), [ocr_request jpeg])).
Proof.
  intros Hsuccess Htruthy Htext. run_scan.
  rewrite Hread, Hdecode. cbv beta iota. simpl app. rewrite Hnet.
  cbv beta iota. rewrite Hjson, Hdata. cbv beta iota.
  rewrite Hsuccess, Htruthy.
  destruct (get data (js "text")) as [| |b|lit|t|elems|props];
    try reflexivity.
  now elim (Htext t).
Qed.

(** A reply that passes the guard with a string takes the scan to
    the probe, which always reports. *)
Lemma scan_probed :
  exists h,
    testAI (network w) [ocr_request jpeg]
    = (Returned h, [ocr_request jpeg; Fetch HeartbeatRequest]).
Proof.
  destruct (testAI_returns (network w) [ocr_request jpeg]) as (h & tr1 & Hh).
  pose proof (testAI_trace _ _ _ _ Hh) as Htr1. simpl in Htr1. subst tr1.
  now exists h.
Qed.

Section Probed.

Variable t : jsstring.
Variable h : Heartbeat.
Hypothesis Hsuccess : truthy (get data (js "success")) = true.
Hypothesis Htext : get data (js "text") = JStr t.
Hypothesis Ht : t <> [].
Hypothesis Hh :
  testAI (network w) [ocr_request jpeg]
  = (Returned h, [ocr_request jpeg; Fetch HeartbeatRequest]).

(** A report that has no string form stops the scan at the status
    line: the [TypeError] is recorded, the lines stay, and the
    inference is not asked for. *)
Lemma scan_report_throws :
  reportable h = false ->
  scan w st
  = (Returned tt,
     (report_failed (ocr_lines t), [ocr_request jpeg; Fetch HeartbeatRequest])).
Proof.
  intros Hreport. run_scan.
  rewrite Hread, Hdecode. cbv beta iota. simpl app. rewrite Hnet.
  cbv beta iota. rewrite Hjson, Hdata. cbv beta iota.
  rewrite Hsuccess, Htext.
  destruct t as [|c t']; [congruence|]. cbn [truthy]. cbv beta iota zeta.
  fold (ocr_request jpeg). rewrite Hh. cbv beta iota zeta.
  rewrite (status_report_throws h _ Hreport). reflexivity.
Qed.

(** Any other report is shown, and the scan goes on to the
    inference; no error is recorded whatever the inference comes
    to. *)
Lemma scan_proceeds :
  reportable h = true ->
  exists result more,
    fetchBookData (network w) (ocr_lines t) [ocr_request jpeg; Fetch HeartbeatRequest]
    = (Returned result,
       ocr_request jpeg :: Fetch HeartbeatRequest
       :: Fetch (InferenceRequest (join [LF] (ocr_lines t))) :: more)
    /\ scan w st
       = (Returned tt,
          (completed (ocr_lines t) h result,
           ocr_request jpeg :: Fetch HeartbeatRequest
           :: Fetch (InferenceRequest (join [LF] (ocr_lines t))) :: more)).
Proof.
  intros Hreport.
  destruct (fetchBookData_returns (network w) (ocr_lines t)
              [ocr_request jpeg; Fetch HeartbeatRequest])
    as (result & tr2 & Hr).
  destruct (fetchBookData_trace _ _ _ _ _ Hr) as (more & Htr2).
  simpl in Htr2. subst tr2.
  exists result, more. split; [exact Hr|].
  run_scan.
  rewrite Hread, Hdecode. cbv beta iota. simpl app. rewrite Hnet.
  cbv beta iota. rewrite Hjson, Hdata. cbv beta iota.
  rewrite Hsuccess, Htext.
  destruct t as [|c t']; [congruence|]. cbn [truthy]. cbv beta iota zeta.
  fold (ocr_request jpeg). rewrite Hh. cbv beta iota zeta.
  rewrite (status_report_shown h _ Hreport). cbv beta iota zeta.
  rewrite Hr. cbv beta iota zeta.
  unfold completed. destruct (truthy result); reflexivity.
Qed.

End Probed.

End Replied.

End Answered.

(** Once encoded, a scan whose extraction fails records an error
    and has sent one request. *)
Lemma scan_extraction_fails :
  extraction_fails (network w) (base64_of jpeg) ->
  exists e, scan w st = (Returned tt, (failed_with e, [ocr_request jpeg])).
Proof.
  unfold extraction_fails.
  destruct (network w [] (OcrRequest (base64_of jpeg))) as [e|res] eqn:Hnet.
  { intros _. exists (Caught e). now apply scan_fetch_rejected. }
  destruct (json res) as [e|data] eqn:Hjson.
  { intros _. exists (Caught e). now apply (scan_body_rejected res). }
  destruct (nullish data) eqn:Hdata.
  { intros _. exists (Caught TypeError). now apply (scan_null_reply res Hnet data). }
  destruct (truthy (get data (js "success")) && truthy (get data (js "text")))
    eqn:Hguard.
  2:{ intros _. exists NoTextDetected. now apply (scan_no_text res Hnet data). }
  intros [H|[H|H]]; try discriminate H.
  apply andb_prop in Hguard. destruct Hguard as [Hsuccess Htruthy].
  exists (Caught TypeError). now apply (scan_text_not_string res Hnet data).
Qed.

(** Otherwise it stores the lines and asks the probe; it stops
    there when the report has no string form, and else goes through
    all its stages. *)
Lemma scan_extraction_succeeds :
  ~ extraction_fails (network w) (base64_of jpeg) ->
  (exists lines,
     scan w st
     = (Returned tt,
        (report_failed lines, [ocr_request jpeg; Fetch HeartbeatRequest])))
  \/ exists lines h result tr, scan w st = (Returned tt, (completed lines h result, tr)).
Proof.
  unfold extraction_fails.
  destruct (network w [] (OcrRequest (base64_of jpeg))) as [e|res] eqn:Hnet;
    [intros H; now elim H|].
  destruct (json res) as [e|data] eqn:Hjson; [intros H; now elim H|].
  intros Hok.
  destruct (nullish data) eqn:Hdata; [elim Hok; now left|].
  destruct (truthy (get data (js "success"))) eqn:Hsuccess;
    [|elim Hok; right; now left].
  destruct (get data (js "text")) as [| |b|lit|t|elems|props] eqn:Htext;
    try (elim Hok; right; right; intros t'; discriminate).
  assert (Ht : t <> []).
  { intros ->. elim Hok. right; now left. }
  destruct scan_probed as (h & Hh).
  destruct (reportable h) eqn:Hreport.
  - right.
    destruct (scan_proceeds res Hnet data Hjson Hdata t h Hsuccess Htext Ht Hh Hreport)
      as (result & more & _ & Hscan).
    eauto.
  - left. exists (ocr_lines t).
    exact (scan_report_throws res Hnet data Hjson Hdata t h Hsuccess Htext Ht Hh Hreport).
Qed.

End Encoded.

(** The four ways a scan can end. *)
Lemma scan_outcomes :
  scan w st = (Pending, (suspended, []))
  \/ (exists e tr,
        scan w st = (Returned tt, (failed_with e, tr))
        /\ (tr = [] \/ exists base64, tr = [Fetch (OcrRequest base64)]))
  \/ (exists lines base64,
        scan w st
        = (Returned tt,
           (report_failed lines, [Fetch (OcrRequest base64); Fetch HeartbeatRequest])))
  \/ (exists lines h result tr,
        scan w st = (Returned tt, (completed lines h result, tr))).
Proof.
  destruct (read_file w) as [|dataUrl] eqn:Hread.
  { right; left. eexists _, []. split; [now apply scan_read_error | now left]. }
  destruct (decode_image w dataUrl) as [|jpeg] eqn:Hdecode.
  { left. now apply (scan_image_error dataUrl). }
  assert (Hcases : extraction_fails (network w) (base64_of jpeg)
                   \/ ~ extraction_fails (network w) (base64_of jpeg)).
  { unfold extraction_fails.
    destruct (network w [] (OcrRequest (base64_of jpeg))) as [e|res]; [now left|].
    destruct (json res) as [e|data]; [now left|].
    destruct (nullish data); [left; now left|].
    destruct (truthy (get data (js "success")) && truthy (get data (js "text")));
      [|left; right; now left].
    destruct (get data (js "text")) as [| |b|lit|t|elems|props];
      try (left; right; right; intros t'; discriminate).
    right. intros [H|[H|H]]; try discriminate H. now elim (H t). }
  destruct Hcases as [Hfails|Hok].
  - right; left.
    destruct (scan_extraction_fails dataUrl jpeg Hread Hdecode Hfails) as (e & He).
    exists e, [Fetch (OcrRequest (base64_of jpeg))]. split; [exact He|].
    right. now exists (base64_of jpeg).
  - destruct (scan_extraction_succeeds dataUrl jpeg Hread Hdecode Hok)
      as [(lines & Hscan)|Hscan].
    + right; right; left. now exists lines, (base64_of jpeg).
    + right; right; right. exact Hscan.
Qed.

End Scan.

(** ** Text Extraction *)

Section TextExtraction.

Lemma trimmed_of_map_trim (pieces : list jsstring) :
  Forall2 trimmed_of pieces (map trim pieces).
Proof.
  induction pieces as [|p ps IH]; constructor; [apply trim_decompose | exact IH].
Qed.

Lemma trimmed_of_all (pieces trimmed : list jsstring) :
  Forall2 trimmed_of pieces trimmed -> trimmed = map trim pieces.
Proof.
  induction 1 as [|p t ps ts Hp _ IH]; [reflexivity|].
  simpl. now rewrite <- (trimmed_of_trim p t Hp), IH.
Qed.

(** The lines the code computes are those the specification describes. *)
Lemma ocr_lines_extraction (text : jsstring) : extraction_of text (ocr_lines text).
Proof.
  exists (split LF text), (map trim (split LF text)).
  repeat split.
  - apply split_not_nil.
  - apply join_split.
  - apply split_pieces.
  - apply trimmed_of_map_trim.
Qed.

(** And the description fits no other list. *)
Lemma extraction_of_unique (text : jsstring) (lines : list jsstring) :
  extraction_of text lines -> lines = ocr_lines text.
Proof.
  intros (pieces & trimmed & Hne & Hjoin & Hfree & Htrim & ->).
  unfold ocr_lines. rewrite <- Hjoin, (split_join LF pieces Hne Hfree).
  now rewrite (trimmed_of_all pieces trimmed Htrim).
Qed.

(** C4.  When the service replies with a text, the lines the scan
    stores are the pieces of the text between line breaks, trimmed,
    without those of length at most 1, in their order: the stored list
    fits the description of the specification, and it is the only list
    that does. *)
Theorem extraction_output (w : World) (st : ScanState) (data : JsValue)
    (text : jsstring) :
  service_replied w data ->
  nullish data = false ->
  truthy (get data (js "success")) = true ->
  get data (js "text") = JStr text ->
  ocrLines (final_state (scan w st))
  = filter (fun l => 1 <? List.length l) (map trim (split LF text))
  /\ extraction_of text (ocrLines (final_state (scan w st)))
  /\ (forall lines,
        extraction_of text lines -> lines = ocrLines (final_state (scan w st))).
Proof.
  intros (dataUrl & jpeg & res & Hread & Hdecode & Hnet & Hjson)
    Hdata Hsuccess Htext.
  assert (Hlines : ocrLines (final_state (scan w st)) = ocr_lines text).
  { destruct text as [|c text'] eqn:Hshape.
    - rewrite (scan_no_text w st dataUrl jpeg Hread Hdecode res Hnet data Hjson Hdata);
        [reflexivity|].
      now rewrite Hsuccess, Htext.
    - assert (Hne : c :: text' <> []) by discriminate.
      destruct (scan_probed w jpeg) as (h & Hh).
      destruct (reportable h) eqn:Hreport.
      + destruct (scan_proceeds w st dataUrl jpeg Hread Hdecode res Hnet data Hjson
                    Hdata (c :: text') h Hsuccess Htext Hne Hh Hreport)
          as (result & more & _ & ->).
        reflexivity.
      + now rewrite (scan_report_throws w st dataUrl jpeg Hread Hdecode res Hnet data
                       Hjson Hdata (c :: text') h Hsuccess Htext Hne Hh Hreport). }
  rewrite Hlines.
  split; [reflexivity|]. split; [apply ocr_lines_extraction|].
  apply extraction_of_unique.
Qed.

Lemma extraction_output_witness :
  service_replied (Scenario.world_of Scenario.jpeg_url Scenario.amichai_script)
    (Scenario.ocr_reply true (jsq "עמיחי||ת|שירי אהבה"))
  /\ ocrLines (final_state
                 (scan (Scenario.world_of Scenario.jpeg_url Scenario.amichai_script)
                       initial_state))
     = [js "עמיחי"; js "שירי אהבה"].
Proof.
  assert (Hreply :
    service_replied (Scenario.world_of Scenario.jpeg_url Scenario.amichai_script)
      (Scenario.ocr_reply true (jsq "עמיחי||ת|שירי אהבה"))).
  { exists (js "data:image/png;base64,iVBORw0KGgo="), Scenario.jpeg_url,
      (mkResponse 200 (inr (Scenario.ocr_reply true Scenario.amichai_text))).
    repeat split; reflexivity. }
  split; [exact Hreply|].
  destruct (extraction_output
              (Scenario.world_of Scenario.jpeg_url Scenario.amichai_script)
              initial_state
              (Scenario.ocr_reply true (jsq "עמיחי||ת|שירי אהבה"))
              (jsq "עמיחי||ת|שירי אהבה")
              Hreply eq_refl eq_refl eq_refl)
    as (Hlines & _).
  rewrite Hlines. reflexivity.
Defined.

End TextExtraction.

(** ** The OCR cloud function *)

Section PerformOcr.

Import OcrFunction.

Lemma performOcr_unfold (r : AnnotateImageResponse) :
  performOcr r = trim (join [SPACE] (firstn 3 (qualifying_lines r))).
Proof.
  unfold performOcr, qualifying_lines, detected_text.
  destruct (fullTextAnnotation r) as [annotation|]; [|reflexivity].
  destruct (text annotation); reflexivity.
Qed.

Lemma performOcr_single_line (r : AnnotateImageResponse) : ~ In LF (performOcr r).
Proof.
  rewrite performOcr_unfold. intros H. apply in_trim, in_join in H.
  destruct H as [[H|[]]|(piece & Hin & H)]; [discriminate H|].
  apply in_firstn in Hin. unfold qualifying_lines in Hin.
  apply filter_In in Hin. destruct Hin as [Hin _].
  pose proof (split_pieces LF (detected_text r)) as Hfree.
  rewrite Forall_forall in Hfree. exact (Hfree piece Hin H).
Qed.

(** A text that is returned has at least two code units. *)
Lemma performOcr_long (r : AnnotateImageResponse) :
  performOcr r <> [] -> (1 < List.length (performOcr r))%nat.
Proof.
  rewrite performOcr_unfold.
  destruct (firstn 3 (qualifying_lines r)) as [|p rest] eqn:Hkept;
    [intros H; now elim H|].
  intros _.
  assert (Hp : keeps p = true).
  { assert (Hin : In p (qualifying_lines r)).
    { apply (in_firstn 3). rewrite Hkept. now left. }
    unfold qualifying_lines in Hin. now apply filter_In in Hin. }
  unfold keeps in Hp. apply Nat.ltb_lt in Hp.
  assert (Hjoin : exists tail, join [SPACE] (p :: rest) = p ++ tail).
  { destruct rest as [|q rest]; [exists []; simpl; now rewrite app_nil_r|].
    now exists ([SPACE] ++ join [SPACE] (q :: rest)). }
  destruct Hjoin as (tail & ->).
  eapply Nat.lt_le_trans; [exact Hp | apply trim_app_length].
Qed.

(** What the client makes of the text the function returns: the
    text is one line, already trimmed. *)
Lemma ocr_lines_performOcr (r : AnnotateImageResponse) :
  ocr_lines (performOcr r)
  = match performOcr r with
    | [] => []
    | _ :: _ => [performOcr r]
    end.
Proof.
  unfold ocr_lines. rewrite (split_whole LF _ (performOcr_single_line r)).
  simpl map.
  assert (Htrim : trim (performOcr r) = performOcr r).
  { rewrite performOcr_unfold. apply trim_idempotent. }
  rewrite Htrim. pose proof (performOcr_long r) as Hlong.
  destruct (performOcr r) as [|c x] eqn:Hx; [reflexivity|].
  assert (H : (1 <? List.length (c :: x)) = true).
  { apply Nat.ltb_lt. apply Hlong. discriminate. }
  change (filter (fun l => 1 <? List.length l) [c :: x])
    with (if 1 <? List.length (c :: x) then [c :: x] else []).
  now rewrite H.
Qed.

(** C10.  The text [performOcr] returns is made of the first three
    lines, at most, of the detected text whose trimmed length exceeds
    1, joined by single spaces and trimmed; it does not depend on any
    later line; and the client, which splits it on line breaks,
    obtains no line at all or this one text as its single line. *)
Theorem performOcr_first_three_lines (r : AnnotateImageResponse) :
  (List.length (firstn 3 (qualifying_lines r)) <= 3)%nat
  /\ performOcr r = trim (join [SPACE] (firstn 3 (qualifying_lines r)))
  /\ (forall r',
        firstn 3 (qualifying_lines r') = firstn 3 (qualifying_lines r) ->
        performOcr r' = performOcr r)
  /\ ocr_lines (performOcr r)
     = match performOcr r with
       | [] => []
       | _ :: _ => [performOcr r]
       end
  /\ (List.length (ocr_lines (performOcr r)) <= 1)%nat.
Proof.
  split; [apply firstn_le_length|].
  split; [apply performOcr_unfold|].
  split; [intros r' H; now rewrite !performOcr_unfold, H|].
  split; [apply ocr_lines_performOcr|].
  rewrite ocr_lines_performOcr. destruct (performOcr r); simpl; auto.
Qed.

Lemma performOcr_first_three_lines_witness :
  qualifying_lines Scenario.five_lines
  = [js "יהודה עמיחי"; js "שירי אהבה"; js " שוקן "; js "ירושלים"; js "89.00"]
  /\ performOcr Scenario.five_lines = js "יהודה עמיחי שירי אהבה  שוקן"
  /\ ocr_lines (performOcr Scenario.five_lines) = [js "יהודה עמיחי שירי אהבה  שוקן"].
Proof.
  destruct (performOcr_first_three_lines Scenario.five_lines)
    as (_ & Htext & _ & Hclient & _).
  split; [reflexivity|]. split.
  - rewrite Htext. reflexivity.
  - rewrite Hclient. reflexivity.
Defined.

End PerformOcr.

(** ** Cover lookup *)

Section CoverLookup.

Import Scenario.

Variable net : Network.
Variable title : JsValue.

Lemma encodeURIComponent_returns {S : Type} (v : JsValue) (s : S) :
  uri_encodable v = true -> encodeURIComponent v s = (Returned tt, s).
Proof.
  unfold uri_encodable, encodeURIComponent. intros H.
  apply andb_prop in H. destruct H as [-> ->]. reflexivity.
Qed.

Lemma encodeURIComponent_throws {S : Type} (v : JsValue) (s : S) :
  uri_encodable v = false -> exists e, encodeURIComponent v s = (Threw e, s).
Proof.
  unfold uri_encodable, encodeURIComponent.
  destruct (stringifiable v); simpl; [|now exists TypeError].
  intros ->. now exists URIError.
Qed.

(** A title that cannot be encoded: the turn is over before any
    request is sent, and the loop goes on at once. *)
Lemma cover_attempt_unencodable (tr : Trace) :
  uri_encodable title = false ->
  cover_attempt net title tr = (Returned Continue, tr).
Proof.
  intros H. unfold cover_attempt, try_catch. unfold bind at 1.
  destruct (encodeURIComponent_throws title tr H) as (e & ->). reflexivity.
Qed.

Lemma cover_lookup_unencodable (retries : nat) (tr : Trace) :
  uri_encodable title = false ->
  fetchCoverWithRetry net title retries tr = (Returned JUndefined, tr).
Proof.
  intros H. unfold fetchCoverWithRetry.
  induction retries as [|n IH]; [reflexivity|].
  simpl. unfold bind at 1. now rewrite (cover_attempt_unencodable tr H).
Qed.



Lemma exhausted_trace_added (retries : nat) :
  forall tr, exists added,
    exhausted_trace net title retries tr = tr ++ added
    /\ List.length (filter is_cover_request added) = retries
    /\ Forall (fun ev => ev = Fetch (CoverRequest title) \/ ev = Sleep 1000) added.
Proof.
  induction retries as [|n IH]; intros tr; simpl.
  - exists []. rewrite app_nil_r. repeat split. constructor.
  - destruct (IH (tr ++ turn_events title (net tr (CoverRequest title))))
      as (added & -> & Hcount & Hall).
    exists (turn_events title (net tr (CoverRequest title)) ++ added).
    rewrite app_assoc. split; [reflexivity|]. split.
    + rewrite filter_app, length_app, Hcount.
      unfold turn_events. destruct (net tr (CoverRequest title)); reflexivity.
    + apply Forall_app. split; [|exact Hall].
      unfold turn_events. destruct (net tr (CoverRequest title)).
      * constructor; [now left | constructor].
      * constructor; [now left|]. constructor; [now right | constructor].
Qed.




Section Answer.

Variable tr : Trace.
Variable res : Response.
Variable data : JsValue.
Hypothesis Hnet : net tr (CoverRequest title) = inr res.
Hypothesis Hstatus : status res <> 429%N.
Hypothesis Hjson : json res = inr data.
Hypothesis Hdata : nullish data = false.
Hypothesis Hencodable : uri_encodable title = true.

(** The first answer other than 429 decides, when its thumbnail is a
    string or is missing. *)
Lemma cover_lookup_thumbnail (n : nat) (t : jsstring) :
  opt_chain (get data (js "items")) thumbnail_path = JStr t ->
  t <> [] ->
  fetchCoverWithRetry net title (S n) tr
  = (Returned (JStr (replace_first (js "http:") (js "https:") t)),
     tr ++ [Fetch (CoverRequest title)]).
Proof.
  intros Ht Hne. unfold fetchCoverWithRetry. simpl. unfold bind at 1.
  unfold cover_attempt, try_catch. unfold bind at 1.
  rewrite (encodeURIComponent_returns title tr Hencodable).
  unfold bind, fetch, response_json, of_sum, member, as_string, ret.
  rewrite Hnet. apply N.eqb_neq in Hstatus. rewrite Hstatus, Hjson, Hdata.
  cbv zeta. rewrite Ht. destruct t; [congruence | reflexivity].
Qed.

Lemma cover_lookup_no_thumbnail (n : nat) :
  truthy (opt_chain (get data (js "items")) thumbnail_path) = false ->
  fetchCoverWithRetry net title (S n) tr
  = (Returned JUndefined, tr ++ [Fetch (CoverRequest title)]).
Proof.
  intros Ht. unfold fetchCoverWithRetry. simpl. unfold bind at 1.
  unfold cover_attempt, try_catch. unfold bind at 1.
  rewrite (encodeURIComponent_returns title tr Hencodable).
  unfold bind, fetch, response_json, of_sum, member, as_string, ret.
  rewrite Hnet. apply N.eqb_neq in Hstatus. rewrite Hstatus, Hjson, Hdata.
  cbv zeta. now rewrite Ht.
Qed.

End Answer.

(** C8, amended.  When the first answer other than 429 carries a
    thumbnail, the cover of a title that can be encoded is that string
    with its first [http:], wherever it stands, replaced by [https:]:
    a thumbnail that starts with [http:] starts with [https:] instead,
    and a thumbnail that holds no [http:] is returned unchanged.  When
    the answer carries no thumbnail, the cover is [undefined].  For a
    title that cannot be encoded no request is sent, whatever the
    answer would be, and the cover is [undefined]. *)
Theorem cover_is_thumbnail_with_first_http_replaced (tr : Trace) (res : Response)
    (data : JsValue) (n : nat) :
  net tr (CoverRequest title) = inr res ->
  status res <> 429%N ->
  json res = inr data ->
  nullish data = false ->
  (uri_encodable title = true ->
   (forall t,
      opt_chain (get data (js "items")) thumbnail_path = JStr t ->
      t <> [] ->
      fetchCoverWithRetry net title (S n) tr
      = (Returned (JStr (replace_first (js "http:") (js "https:") t)),
         tr ++ [Fetch (CoverRequest title)])
      /\ (starts_with (js "http:") t = true ->
          replace_first (js "http:") (js "https:") t = js "https:" ++ skipn 5 t)
      /\ (includes (js "http:") t = false ->
          replace_first (js "http:") (js "https:") t = t))
   /\ (truthy (opt_chain (get data (js "items")) thumbnail_path) = false ->
       fetchCoverWithRetry net title (S n) tr
       = (Returned JUndefined, tr ++ [Fetch (CoverRequest title)])))
  /\ (uri_encodable title = false ->
      fetchCoverWithRetry net title (S n) tr = (Returned JUndefined, tr)).
Proof.
  intros Hnet Hstatus Hjson Hdata. split.
  - intros Henc. split.
    + intros t Ht Hne. split; [|split].
      * now apply (cover_lookup_thumbnail tr res data).
      * apply replace_first_prefix.
      * apply replace_first_absent.
    + now apply (cover_lookup_no_thumbnail tr res data).
  - apply cover_lookup_unencodable.
Qed.

End CoverLookup.

Section CoverLookupExamples.

Import Scenario.




(** C8, as stated, fails: a thumbnail that is already served over
    https is not returned unchanged when an [http:] stands further on. *)
Lemma https_thumbnail_is_changed :
  starts_with (js "https:") proxied_thumbnail = true
  /\ fetchCoverWithRetry (scripted proxied_script) (JStr (js "X")) default_retries []
     = (Returned (JStr (js "https://covers.example/img?src=https://cdn.example/1.jpg")),
        [Fetch (CoverRequest (JStr (js "X")))])
  /\ js "https://covers.example/img?src=https://cdn.example/1.jpg"
     <> proxied_thumbnail.
Proof.
  split; [vm_compute; reflexivity|]. split; [vm_compute; reflexivity|].
  vm_compute. discriminate.
Qed.

Lemma cover_is_thumbnail_with_first_http_replaced_witness :
  scripted amichai_script [Fetch (CoverRequest (JStr (js "X"))); Sleep 1000]
    (CoverRequest (JStr (js "X")))
  = ok (books_reply (JStr google_thumbnail))
  /\ starts_with (js "http:") google_thumbnail = true
  /\ fetchCoverWithRetry (scripted amichai_script) (JStr (js "X")) 1
       [Fetch (CoverRequest (JStr (js "X"))); Sleep 1000]
     = (Returned (JStr (js "https://books.google.com/books/content?id=1&img=1")),
        [Fetch (CoverRequest (JStr (js "X"))); Sleep 1000;
         Fetch (CoverRequest (JStr (js "X")))]).
Proof.
  assert (Hnet :
    scripted amichai_script [Fetch (CoverRequest (JStr (js "X"))); Sleep 1000]
      (CoverRequest (JStr (js "X")))
    = ok (books_reply (JStr google_thumbnail))) by reflexivity.
  assert (Hstatus : 200%N <> 429%N) by discriminate.
  assert (Hthumbnail :
    opt_chain (get (books_reply (JStr google_thumbnail)) (js "items")) thumbnail_path
    = JStr google_thumbnail) by (vm_compute; reflexivity).
  assert (Hne : google_thumbnail <> []) by (vm_compute; discriminate).
  assert (Hhttp : starts_with (js "http:") google_thumbnail = true)
    by (vm_compute; reflexivity).
  split; [exact Hnet|]. split; [exact Hhttp|].
  assert (Henc : uri_encodable (JStr (js "X")) = true) by (vm_compute; reflexivity).
  destruct (cover_is_thumbnail_with_first_http_replaced
              (scripted amichai_script) (JStr (js "X"))
              [Fetch (CoverRequest (JStr (js "X"))); Sleep 1000]
              (mkResponse 200 (inr (books_reply (JStr google_thumbnail))))
              (books_reply (JStr google_thumbnail)) 0
              Hnet Hstatus eq_refl eq_refl) as (Hgood & _).
  destruct (Hgood Henc) as (Hthumb & _).
  destruct (Hthumb google_thumbnail Hthumbnail Hne) as (Hrun & Hprefix & _).
  rewrite Hrun, (Hprefix Hhttp). vm_compute. reflexivity.
Defined.

End CoverLookupExamples.

(** ** Metadata inference *)

Section Inference.

Import Scenario.

Variable net : Network.
Variable lines : list jsstring.
Variable tr : Trace.
Variable res : Response.
Variable data : JsValue.
Hypothesis Hnet : net tr (InferenceRequest (join [LF] lines)) = inr res.
Hypothesis Hjson : json res = inr data.
Hypothesis Hdata : nullish data = false.

Ltac run_inference :=
  unfold fetchBookData, try_catch, bind, fetch, response_json, of_sum, member,
    as_string, JSON_parse, console_error, emit, ret, throw;
  rewrite Hnet, Hjson, Hdata; cbv zeta; fold (result_text data).

(** A reply without text: [undefined], at once and silently. *)
Lemma fetchBookData_empty :
  truthy (result_text data) = false ->
  fetchBookData net lines tr
  = (Returned JUndefined, tr ++ [Fetch (InferenceRequest (join [LF] lines))]).
Proof. intros Hempty. run_inference. rewrite Hempty. reflexivity. Qed.

(** A text that is not JSON once cleaned: [undefined], after the
    [SyntaxError] was logged; no cover is looked up. *)
Lemma fetchBookData_malformed (text : jsstring) :
  result_text data = JStr text ->
  text <> [] ->
  Json.parse (cleanJson text) = None ->
  fetchBookData net lines tr
  = (Returned JUndefined,
     tr ++ [Fetch (InferenceRequest (join [LF] lines));
            ConsoleError (js "Agent Logic Error:") SyntaxError]).
Proof.
  intros Htext Hne Hparse. run_inference. rewrite Htext.
  destruct text as [|c text']; [congruence|]. cbn [truthy negb].
  cbv beta iota. rewrite Hparse. cbv beta iota. now rewrite <- app_assoc.
Qed.

(** A record is returned only for a text that parses, and holds
    every property of the value parsed. *)
Lemma fetchBookData_record (result : JsValue) (tr' : Trace) :
  fetchBookData net lines tr = (Returned result, tr') ->
  result = JUndefined
  \/ exists text bookData coverUri,
       result_text data = JStr text
       /\ Json.parse (cleanJson text) = Some bookData
       /\ result = JObj (set_prop (js "coverUri") coverUri (own_props bookData)).
Proof.
  run_inference.
  destruct (truthy (result_text data)); cbn [negb];
    [|intros H; injection H as <- _; now left].
  destruct (result_text data) as [| |b|lit|text|elems|items];
    try (intros H; injection H as <- _; now left).
  destruct (Json.parse (cleanJson text)) as [bookData|] eqn:Hparse;
    [|intros H; injection H as <- _; now left].
  destruct (nullish bookData); [intros H; injection H as <- _; now left|].
  destruct (fetchCoverWithRetry net (or_else (get bookData (js "title")) (JStr []))
              default_retries
              (tr ++ [Fetch (InferenceRequest (join [LF] lines))]))
    as [[coverUri|e|] tr1]; intros H;
    first [discriminate H | injection H as <- _].
  - right. exists text, bookData, coverUri. now repeat split.
  - now left.
Qed.

End Inference.

(** Whatever the network does. *)
Lemma fetchBookData_result (net : Network) (lines : list jsstring) (tr : Trace)
    (result : JsValue) (tr' : Trace) :
  fetchBookData net lines tr = (Returned result, tr') ->
  result = JUndefined
  \/ exists res data text bookData coverUri,
       net tr (InferenceRequest (join [LF] lines)) = inr res
       /\ json res = inr data
       /\ result_text data = JStr text
       /\ Json.parse (cleanJson text) = Some bookData
       /\ result = JObj (set_prop (js "coverUri") coverUri (own_props bookData)).
Proof.
  destruct (net tr (InferenceRequest (join [LF] lines))) as [e|res] eqn:Hnet.
  { unfold fetchBookData, try_catch, bind, fetch, console_error, emit, ret.
    rewrite Hnet. intros H. injection H as <- _. now left. }
  destruct (json res) as [e|data] eqn:Hjson.
  { unfold fetchBookData, try_catch, bind, fetch, response_json, of_sum,
      console_error, emit, ret, throw.
    rewrite Hnet, Hjson. intros H. injection H as <- _. now left. }
  destruct (nullish data) eqn:Hdata.
  { unfold fetchBookData, try_catch, bind, fetch, response_json, of_sum, member,
      console_error, emit, ret, throw.
    rewrite Hnet, Hjson, Hdata. intros H. injection H as <- _. now left. }
  intros H.
  destruct (fetchBookData_record net lines tr res data Hnet Hjson Hdata result tr' H)
    as [->|(text & bookData & coverUri & Htext & Hparse & ->)]; [now left|].
  right. exists res, data, text, bookData, coverUri. now repeat split.
Qed.

(** C7.  When the inference endpoint replies without text,
    [fetchBookData] resolves to [undefined] at once; when the text of
    the reply, its fences stripped, is not JSON, [fetchBookData] logs
    the [SyntaxError] of [JSON.parse] and resolves to [undefined]
    without looking up a cover.  Whatever the reply, the result is
    [undefined] or the record of a text that parsed, with every
    property of the value parsed: never a record filled in part. *)
Theorem failed_inference_yields_no_record (net : Network) (lines : list jsstring)
    (tr : Trace) :
  (forall res data,
     net tr (InferenceRequest (join [LF] lines)) = inr res ->
     json res = inr data ->
     nullish data = false ->
     truthy (result_text data) = false ->
     fetchBookData net lines tr
     = (Returned JUndefined, tr ++ [Fetch (InferenceRequest (join [LF] lines))]))
  /\ (forall res data text,
        net tr (InferenceRequest (join [LF] lines)) = inr res ->
        json res = inr data ->
        nullish data = false ->
        result_text data = JStr text ->
        text <> [] ->
        Json.parse (cleanJson text) = None ->
        fetchBookData net lines tr
        = (Returned JUndefined,
           tr ++ [Fetch (InferenceRequest (join [LF] lines));
                  ConsoleError (js "Agent Logic Error:") SyntaxError]))
  /\ (forall result tr',
        fetchBookData net lines tr = (Returned result, tr') ->
        result = JUndefined
        \/ exists res data text bookData coverUri,
             net tr (InferenceRequest (join [LF] lines)) = inr res
             /\ json res = inr data
             /\ result_text data = JStr text
             /\ Json.parse (cleanJson text) = Some bookData
             /\ result = JObj (set_prop (js "coverUri") coverUri (own_props bookData))).
Proof.
  split; [|split].
  - intros res data. apply fetchBookData_empty.
  - intros res data text Hnet Hjson Hdata.
    now apply (fetchBookData_malformed net lines tr res data).
  - apply fetchBookData_result.
Qed.

Lemma failed_inference_yields_no_record_witness :
  Json.parse (cleanJson (js "I could not identify this book.")) = None
  /\ fetchBookData (Scenario.scripted Scenario.prose_script) [js "עמיחי"] []
     = (Returned JUndefined,
        [Fetch (InferenceRequest (js "עמיחי"));
         ConsoleError (js "Agent Logic Error:") SyntaxError])
  /\ fetchBookData (Scenario.scripted Scenario.silent_script) [js "עמיחי"] []
     = (Returned JUndefined, [Fetch (InferenceRequest (js "עמיחי"))]).
Proof.
  assert (Hparse :
    Json.parse (cleanJson (js "I could not identify this book.")) = None)
    by (vm_compute; reflexivity).
  split; [exact Hparse|]. split.
  - destruct (failed_inference_yields_no_record
                (Scenario.scripted Scenario.prose_script) [js "עמיחי"] [])
      as (_ & Hmalformed & _).
    assert (Htext :
      result_text (Scenario.ai_reply (JStr (js "I could not identify this book.")))
      = JStr (js "I could not identify this book.")) by (vm_compute; reflexivity).
    assert (Hne : js "I could not identify this book." <> [])
      by (vm_compute; discriminate).
    exact (Hmalformed _ _ _ eq_refl eq_refl eq_refl Htext Hne Hparse).
  - destruct (failed_inference_yields_no_record
                (Scenario.scripted Scenario.silent_script) [js "עמיחי"] [])
      as (Hempty & _).
    apply (Hempty _ (JObj [(js "candidates", JArr [])]) eq_refl eq_refl eq_refl).
    vm_compute. reflexivity.
Defined.

(** ** What a scan reports *)

Section Reports.

Import Scenario.

Lemma service_replied_scripted (jpeg : jsstring) (sc : Script) (data : JsValue) :
  ocr sc = ok data -> service_replied (world_of jpeg sc) data.
Proof.
  intros Hocr.
  exists (js "data:image/png;base64,iVBORw0KGgo="), jpeg, (mkResponse 200 (inr data)).
  repeat split. simpl. exact Hocr.
Qed.

(** C3.  A scan that has recorded an error has returned and is
    presented as failed, not loading and without a record, and it has
    asked neither for the inference nor for a cover.  Either the error
    was recorded before the probe: then no request of a later stage
    was sent (nothing at all, or only the request to the extraction
    service), and the page has no lines and no status.  Or it is the
    [TypeError] of the status line of the probe: then the request to
    the extraction service and the probe are all that was sent.  In
    particular, when the image was encoded and Text Extraction fails,
    an error is recorded and the request to the extraction service is
    the only one sent: neither the probe, nor the inference, nor the
    cover lookup is invoked. *)
Theorem error_stops_the_scan (w : World) (st : ScanState) :
  (error (final_state (scan w st)) <> None ->
   fst (scan w st) = Returned tt
   /\ isLoading (final_state (scan w st)) = false
   /\ bookResult (final_state (scan w st)) = None
   /\ filter after_probe (final_trace (scan w st)) = []
   /\ ((filter later_stage (final_trace (scan w st)) = []
        /\ (final_trace (scan w st) = []
            \/ exists base64, final_trace (scan w st) = [Fetch (OcrRequest base64)])
        /\ ocrLines (final_state (scan w st)) = []
        /\ aiStatus (final_state (scan w st)) = StatusNone)
       \/ (error (final_state (scan w st)) = Some (Caught TypeError)
           /\ aiStatus (final_state (scan w st)) = StatusChecking
           /\ exists base64,
                final_trace (scan w st)
                = [Fetch (OcrRequest base64); Fetch HeartbeatRequest])))
  /\ (forall dataUrl jpeg,
        read_file w = ReadLoad dataUrl ->
        decode_image w dataUrl = ImageLoad jpeg ->
        extraction_fails (network w) (base64_of jpeg) ->
        error (final_state (scan w st)) <> None
        /\ final_trace (scan w st) = [Fetch (OcrRequest (base64_of jpeg))]).
Proof.
  split.
  - destruct (scan_outcomes w st)
      as [Hrun|[(e & tr & Hrun & Htr)|[(lines & base64 & Hrun)
         |(lines & h & result & tr & Hrun)]]];
      rewrite Hrun; simpl; try congruence.
    + intros _. repeat split; try reflexivity.
      * destruct Htr as [->|(base64 & ->)]; reflexivity.
      * left. repeat split; try reflexivity.
        -- destruct Htr as [->|(base64 & ->)]; reflexivity.
        -- exact Htr.
    + intros _. repeat split; try reflexivity.
      right. repeat split. now exists base64.
  - intros dataUrl jpeg Hread Hdecode Hfails.
    destruct (scan_extraction_fails w st dataUrl jpeg Hread Hdecode Hfails)
      as (e & ->).
    split; [discriminate | reflexivity].
Qed.

Lemma error_stops_the_scan_witness :
  error (final_state (scan (world_of jpeg_url offline_script) initial_state))
  = Some (Caught (Failure (js "Failed to fetch")))
  /\ extraction_fails (scripted offline_script) (base64_of jpeg_url)
  /\ filter after_probe
       (final_trace (scan (world_of jpeg_url offline_script) initial_state)) = []
  /\ final_trace (scan (world_of jpeg_url offline_script) initial_state)
     = [Fetch (OcrRequest (JStr (js "/9j/4AAQ")))]
  /\ scan (world_of jpeg_url opaque_probe_script) initial_state
     = (Returned tt,
        (report_failed [js "עמיחי"; js "שירי אהבה"],
         [Fetch (OcrRequest (JStr (js "/9j/4AAQ"))); Fetch HeartbeatRequest])).
Proof.
  assert (Herror :
    error (final_state (scan (world_of jpeg_url offline_script) initial_state))
    = Some (Caught (Failure (js "Failed to fetch")))) by reflexivity.
  assert (Hfails : extraction_fails (scripted offline_script) (base64_of jpeg_url))
    by exact I.
  destruct (error_stops_the_scan (world_of jpeg_url offline_script) initial_state)
    as [Hstops Hextraction].
  split; [exact Herror|]. split; [exact Hfails|]. split; [|split].
  - apply Hstops. rewrite Herror. discriminate.
  - exact (proj2 (Hextraction _ jpeg_url eq_refl eq_refl Hfails)).
  - vm_compute. reflexivity.
Defined.

(** C9 (the code does otherwise).  When the file reads but the image
    cannot be decoded, the promise of the encoder is never settled:
    the scan stays suspended, loading, with no error recorded and no
    request sent. *)
Theorem undecodable_image_suspends_the_scan (w : World) (st : ScanState)
    (dataUrl : jsstring) :
  read_file w = ReadLoad dataUrl ->
  decode_image w dataUrl = ImageError ->
  fst (scan w st) = Pending
  /\ error (final_state (scan w st)) = None
  /\ isLoading (final_state (scan w st)) = true
  /\ final_trace (scan w st) = [].
Proof.
  intros Hread Hdecode. rewrite (scan_image_error w st dataUrl Hread Hdecode).
  repeat split.
Qed.

Lemma undecodable_image_suspends_the_scan_witness :
  read_file undecodable_world = ReadLoad (js "data:image/heic;base64,AAAAGGZ0eXBoZWlj")
  /\ decode_image undecodable_world (js "data:image/heic;base64,AAAAGGZ0eXBoZWlj")
     = ImageError
  /\ scan undecodable_world initial_state = (Pending, (suspended, [])).
Proof.
  split; [reflexivity|]. split; [reflexivity|].
  pose proof (undecodable_image_suspends_the_scan undecodable_world initial_state
                (js "data:image/heic;base64,AAAAGGZ0eXBoZWlj") eq_refl eq_refl)
    as (Hout & _).
  destruct (scan undecodable_world initial_state) as [o [st' tr]] eqn:Hscan.
  simpl in Hout. subst o. injection Hscan as <- <-. reflexivity.
Defined.

(** C1, as stated, fails: the service replies with the single mark
    [.]; no line is left of it, and yet no error is recorded and the
    scan goes on to the probe, the inference and the cover lookup. *)
Lemma empty_remainder_is_not_reported :
  service_replied (world_of jpeg_url noise_script) (ocr_reply true (js "."))
  /\ ocr_lines (js ".") = []
  /\ error (final_state (scan (world_of jpeg_url noise_script) initial_state)) = None
  /\ final_trace (scan (world_of jpeg_url noise_script) initial_state)
     = [Fetch (OcrRequest (JStr (js "/9j/4AAQ")));
        Fetch HeartbeatRequest;
        Fetch (InferenceRequest []);
        Fetch (CoverRequest (JStr []))].
Proof.
  split; [now apply service_replied_scripted|]. repeat split.
Qed.

(** C1, amended.  For every reply of the extraction service that is
    not [null], the scan reports the no-text error exactly when
    [success] or [text] of the reply is falsy (missing, empty,
    [false]), and then sends nothing more.  A reply with a truthy
    [success] and a non-empty text is not reported this way even if
    no line is left of it: the scan stores the lines and asks the
    probe; it then goes on to the inference without recording an
    error, unless the report of the probe has no string form, in which
    case the [TypeError] of the status line is recorded instead.  For
    a reply of the repository's own function, whose body holds the
    text that [performOcr] returns, the two agree: when no line is
    left, the text is empty and the no-text error is reported. *)
Theorem no_text_detected_on_empty_text (w : World) (st : ScanState) (data : JsValue) :
  service_replied w data ->
  nullish data = false ->
  (truthy (get data (js "success")) && truthy (get data (js "text")) = false ->
   fst (scan w st) = Returned tt
   /\ error (final_state (scan w st)) = Some NoTextDetected
   /\ exists base64, final_trace (scan w st) = [Fetch (OcrRequest base64)])
  /\ (truthy (get data (js "success")) && truthy (get data (js "text")) = true ->
      error (final_state (scan w st)) <> Some NoTextDetected)
  /\ (forall text,
        truthy (get data (js "success")) = true ->
        get data (js "text") = JStr text ->
        text <> [] ->
        ocrLines (final_state (scan w st)) = ocr_lines text
        /\ exists base64 h,
             testAI (network w) [Fetch (OcrRequest base64)]
             = (Returned h, [Fetch (OcrRequest base64); Fetch HeartbeatRequest])
             /\ if reportable h
                then error (final_state (scan w st)) = None
                     /\ exists more,
                          final_trace (scan w st)
                          = Fetch (OcrRequest base64) :: Fetch HeartbeatRequest
                            :: Fetch (InferenceRequest (join [LF] (ocr_lines text)))
                            :: more
                else error (final_state (scan w st)) = Some (Caught TypeError)
                     /\ final_trace (scan w st)
                        = [Fetch (OcrRequest base64); Fetch HeartbeatRequest])
  /\ (forall r,
        data = OcrFunction.success_body (OcrFunction.performOcr r) ->
        ocr_lines (OcrFunction.performOcr r) = [] ->
        error (final_state (scan w st)) = Some NoTextDetected).
Proof.
  intros (dataUrl & jpeg & res & Hread & Hdecode & Hnet & Hjson) Hdata.
  assert (Hgoes : forall text,
            truthy (get data (js "success")) = true ->
            get data (js "text") = JStr text ->
            text <> [] ->
            ocrLines (final_state (scan w st)) = ocr_lines text
            /\ exists base64 h,
                 testAI (network w) [Fetch (OcrRequest base64)]
                 = (Returned h, [Fetch (OcrRequest base64); Fetch HeartbeatRequest])
                 /\ if reportable h
                    then error (final_state (scan w st)) = None
                         /\ exists more,
                              final_trace (scan w st)
                              = Fetch (OcrRequest base64) :: Fetch HeartbeatRequest
                                :: Fetch (InferenceRequest (join [LF] (ocr_lines text)))
                                :: more
                    else error (final_state (scan w st)) = Some (Caught TypeError)
                         /\ final_trace (scan w st)
                            = [Fetch (OcrRequest base64); Fetch HeartbeatRequest]).
  { intros text Hsuccess Htext Hne.
    destruct (scan_probed w jpeg) as (h & Hh).
    destruct (reportable h) eqn:Hreport.
    - destruct (scan_proceeds w st dataUrl jpeg Hread Hdecode res Hnet data Hjson
                  Hdata text h Hsuccess Htext Hne Hh Hreport)
        as (result & more & _ & Hscan).
      rewrite Hscan. split; [reflexivity|].
      exists (base64_of jpeg), h. split; [exact Hh|]. rewrite Hreport.
      split; [reflexivity|]. now exists more.
    - rewrite (scan_report_throws w st dataUrl jpeg Hread Hdecode res Hnet data Hjson
                 Hdata text h Hsuccess Htext Hne Hh Hreport).
      split; [reflexivity|].
      exists (base64_of jpeg), h. split; [exact Hh|]. rewrite Hreport.
      now split. }
  split; [|split; [|split]].
  - intros Hguard.
    rewrite (scan_no_text w st dataUrl jpeg Hread Hdecode res Hnet data Hjson Hdata
               Hguard).
    repeat split. now exists (base64_of jpeg).
  - intros Hguard. apply andb_prop in Hguard. destruct Hguard as [Hsuccess Htruthy].
    destruct (get data (js "text")) as [| |b|lit|text|elems|props] eqn:Htext;
      try discriminate Htruthy;
      try (rewrite (scan_text_not_string w st dataUrl jpeg Hread Hdecode res Hnet data
                      Hjson Hdata Hsuccess);
           [discriminate | now rewrite Htext | intros t'; rewrite Htext; discriminate]).
    assert (Hne : text <> []) by (destruct text; [discriminate Htruthy | discriminate]).
    destruct (Hgoes text Hsuccess eq_refl Hne) as (_ & base64 & h & _ & Hcase).
    destruct (reportable h); destruct Hcase as (-> & _); discriminate.
  - exact Hgoes.
  - intros r -> Hlines. rewrite ocr_lines_performOcr in Hlines.
    destruct (OcrFunction.performOcr r) as [|c x]; [|discriminate Hlines].
    now rewrite (scan_no_text w st dataUrl jpeg Hread Hdecode res Hnet _ Hjson Hdata).
Qed.

Lemma no_text_detected_on_empty_text_witness :
  service_replied (world_of jpeg_url
                     {| ocr := ok (ocr_reply true []); heartbeat := heartbeat_ok;
                        inference := unreachable; covers := [] |})
    (ocr_reply true [])
  /\ scan (world_of jpeg_url
             {| ocr := ok (ocr_reply true []); heartbeat := heartbeat_ok;
                inference := unreachable; covers := [] |}) initial_state
     = (Returned tt,
        (failed_with NoTextDetected, [Fetch (OcrRequest (JStr (js "/9j/4AAQ")))]))
  /\ error (final_state (scan (world_of jpeg_url noise_script) initial_state)) = None.
Proof.
  assert (Hreply :
    service_replied (world_of jpeg_url
                       {| ocr := ok (ocr_reply true []); heartbeat := heartbeat_ok;
                          inference := unreachable; covers := [] |})
      (ocr_reply true [])) by now apply service_replied_scripted.
  split; [exact Hreply|]. split.
  - reflexivity.
  - pose proof (no_text_detected_on_empty_text (world_of jpeg_url noise_script)
                  initial_state (ocr_reply true (js "."))
                  (service_replied_scripted jpeg_url noise_script _ eq_refl) eq_refl)
      as (_ & _ & Hgoes & _).
    assert (Hne : js "." <> []) by discriminate.
    destruct (Hgoes (js ".") eq_refl eq_refl Hne) as (_ & base64 & h & Hh & Hcase).
    vm_compute in Hh. injection Hh as <-. exact (proj1 Hcase).
Defined.

(** C2, as stated, fails: the inference gives a record whose title is
    empty; the scan completes without error and shows that record, not
    the placeholder. *)
Lemma untitled_record_is_displayed :
  fst (scan (world_of jpeg_url untitled_script) initial_state) = Returned tt
  /\ error (final_state (scan (world_of jpeg_url untitled_script) initial_state)) = None
  /\ bookResult (final_state (scan (world_of jpeg_url untitled_script) initial_state))
     = Some (JObj [(js "title", JStr []); (js "authors", JArr []);
                   (js "coverUri", JUndefined)])
  /\ bookResult (final_state (scan (world_of jpeg_url untitled_script) initial_state))
     <> Some identification_failed.
Proof.
  split; [vm_compute; reflexivity|]. split; [vm_compute; reflexivity|].
  split; [vm_compute; reflexivity|]. vm_compute. discriminate.
Qed.

(** C2, amended.  A scan whose extraction gave a text asks the
    probe, and returns.  When the report of the probe can be shown,
    the scan completes without error whatever the inference comes to:
    it shows the placeholder record exactly when [fetchBookData]
    resolves to [undefined]; a record that [fetchBookData] resolves to
    is shown as it is, with or without a title.  When the report has
    no string form, the scan ends at the status line with a
    [TypeError] and shows no record, not even the placeholder. *)
Theorem placeholder_when_no_record (w : World) (st : ScanState) (data : JsValue)
    (text : jsstring) :
  service_replied w data ->
  nullish data = false ->
  truthy (get data (js "success")) = true ->
  get data (js "text") = JStr text ->
  text <> [] ->
  exists base64 h,
    testAI (network w) [Fetch (OcrRequest base64)]
    = (Returned h, [Fetch (OcrRequest base64); Fetch HeartbeatRequest])
    /\ fst (scan w st) = Returned tt
    /\ if reportable h
       then exists result tr,
              fetchBookData (network w) (ocr_lines text)
                [Fetch (OcrRequest base64); Fetch HeartbeatRequest]
              = (Returned result, tr)
              /\ error (final_state (scan w st)) = None
              /\ ((result = JUndefined
                   /\ bookResult (final_state (scan w st)) = Some identification_failed)
                  \/ (exists props,
                        result = JObj props
                        /\ bookResult (final_state (scan w st)) = Some (JObj props)))
       else error (final_state (scan w st)) = Some (Caught TypeError)
            /\ bookResult (final_state (scan w st)) = None.
Proof.
  intros (dataUrl & jpeg & res & Hread & Hdecode & Hnet & Hjson)
    Hdata Hsuccess Htext Hne.
  destruct (scan_probed w jpeg) as (h & Hh).
  exists (base64_of jpeg), h. split; [exact Hh|].
  destruct (reportable h) eqn:Hreport.
  - destruct (scan_proceeds w st dataUrl jpeg Hread Hdecode res Hnet data Hjson Hdata
                text h Hsuccess Htext Hne Hh Hreport)
      as (result & more & Hresult & ->).
    split; [reflexivity|].
    exists result. eexists. split; [exact Hresult|]. split; [reflexivity|].
    destruct (fetchBookData_shape _ _ _ _ _ Hresult) as [->|(props & ->)].
    + left. now split.
    + right. exists props. now split.
  - rewrite (scan_report_throws w st dataUrl jpeg Hread Hdecode res Hnet data Hjson
               Hdata text h Hsuccess Htext Hne Hh Hreport).
    now repeat split.
Qed.

Lemma placeholder_when_no_record_witness :
  service_replied (world_of jpeg_url prose_script) (ocr_reply true amichai_text)
  /\ fetchBookData (scripted prose_script) (ocr_lines amichai_text)
       [Fetch (OcrRequest (base64_of jpeg_url)); Fetch HeartbeatRequest]
     = (Returned JUndefined,
        [Fetch (OcrRequest (base64_of jpeg_url)); Fetch HeartbeatRequest;
         Fetch (InferenceRequest (jsq "עמיחי|שירי אהבה"));
         ConsoleError (js "Agent Logic Error:") SyntaxError])
  /\ error (final_state (scan (world_of jpeg_url prose_script) initial_state)) = None
  /\ bookResult (final_state (scan (world_of jpeg_url prose_script) initial_state))
     = Some identification_failed.
Proof.
  assert (Hreply :
    service_replied (world_of jpeg_url prose_script) (ocr_reply true amichai_text))
    by now apply service_replied_scripted.
  split; [exact Hreply|]. split; [reflexivity|].
  assert (Hne : amichai_text <> []) by (vm_compute; discriminate).
  destruct (placeholder_when_no_record (world_of jpeg_url prose_script) initial_state
              (ocr_reply true amichai_text) amichai_text
              Hreply eq_refl eq_refl eq_refl Hne)
    as (base64 & h & Hh & _ & Hcase).
  vm_compute in Hh. injection Hh as <-.
  destruct Hcase as (result & tr & _ & Herror & _).
  split; [exact Herror | reflexivity].
Defined.

End Reports.

(** ** The connectivity probe *)

Section Probe.

Variable net : Network.
Variable tr : Trace.

Lemma testAI_offline (e : Exn) :
  heartbeat_failure net tr = Some e ->
  testAI net tr = (Returned (HeartbeatOffline e), tr ++ [Fetch HeartbeatRequest]).
Proof.
  unfold testAI, heartbeat_failure, try_catch, bind, fetch, response_json, of_sum,
    member, ret, throw.
  destruct (net tr HeartbeatRequest) as [e'|res]; [now intros [= ->]|].
  destruct (json res) as [e'|data]; [now intros [= ->]|].
  destruct (nullish data); [now intros [= <-] | discriminate].
Qed.

(** X1.  [testAI] never throws and never hangs: it sends its one
    request and resolves.  The text it reports is never falsy (a
    missing or empty text is reported as [No response]), and it
    reports the service as offline, with the error, exactly when the
    request is rejected, the body cannot be read, or the reply is
    [null]. *)
Theorem testAI_always_reports :
  exists h,
    testAI net tr = (Returned h, tr ++ [Fetch HeartbeatRequest])
    /\ (forall v, h = HeartbeatText v -> truthy v = true)
    /\ (forall e, h = HeartbeatOffline e <-> heartbeat_failure net tr = Some e)
    /\ (forall res data,
          net tr HeartbeatRequest = inr res ->
          json res = inr data ->
          nullish data = false ->
          h = HeartbeatText (or_else (result_text data) (JStr (js "No response")))).
Proof.
  unfold testAI, heartbeat_failure, try_catch, bind, fetch, response_json, of_sum,
    member, ret, throw.
  destruct (net tr HeartbeatRequest) as [e|res] eqn:Hnet.
  { exists (HeartbeatOffline e). split; [reflexivity|].
    split; [discriminate|]. split; [|discriminate].
    intros e'. split; congruence. }
  destruct (json res) as [e|data] eqn:Hjson.
  { exists (HeartbeatOffline e). split; [reflexivity|].
    split; [discriminate|]. split; [intros e'; split; congruence|].
    intros res' data' Hres. injection Hres as <-. congruence. }
  destruct (nullish data) eqn:Hdata.
  { exists (HeartbeatOffline TypeError). split; [reflexivity|].
    split; [discriminate|]. split; [intros e'; split; congruence|].
    intros res' data' Hres. injection Hres as <-. congruence. }
  fold (result_text data).
  exists (HeartbeatText (or_else (result_text data) (JStr (js "No response")))).
  split; [reflexivity|]. split; [|split].
  - intros v Hv. injection Hv as <-. unfold or_else.
    destruct (truthy (result_text data)) eqn:Ht; [exact Ht | reflexivity].
  - intros e'. split; discriminate.
  - intros res' data' Hres. injection Hres as <-. congruence.
Qed.

End Probe.

(** ** The cover lookup, whatever the books API does *)

(** What a trace made of the events of a cover lookup costs. *)
Lemma cover_events_cost (title : JsValue) (more : Trace) :
  Forall (cover_event title) more ->
  requests more = cover_requests more
  /\ waited more = (1000 * N.of_nat (backoffs more))%N.
Proof.
  unfold requests, cover_requests, backoffs.
  induction 1 as [|ev more [->| ->] _ (IHr & IHw)]; [now split| |].
  - cbn [filter is_request is_cover_request is_backoff List.length waited fold_right].
    fold (waited more). split; [now rewrite IHr | exact IHw].
  - cbn [filter is_request is_cover_request is_backoff List.length waited fold_right].
    fold (waited more). rewrite N.eqb_refl. cbn [List.length].
    split; [exact IHr|]. rewrite IHw. lia.
Qed.

Section CoverLookupBounds.

Variable net : Network.
Variable title : JsValue.

Lemma replace_first_not_empty (pat rep s : jsstring) :
  rep <> [] -> s <> [] -> replace_first pat rep s <> [].
Proof.
  intros Hrep Hs. destruct s as [|c s]; [congruence|]. simpl.
  destruct (starts_with pat (c :: s)); [|discriminate].
  destruct rep; [congruence | discriminate].
Qed.

(** One turn of the loop, for a title that can be encoded: one
    request, followed by a wait only when the loop goes on. *)
Lemma cover_attempt_turn (tr : Trace) :
  uri_encodable title = true ->
  exists turn added,
    cover_attempt net title tr = (Returned turn, tr ++ added)
    /\ (added = [Fetch (CoverRequest title)]
        \/ (added = [Fetch (CoverRequest title); Sleep 1000] /\ turn = Continue))
    /\ (turn = Continue \/ turn = Return JUndefined
        \/ exists t, turn = Return (JStr t) /\ t <> []).
Proof.
  intros Henc. unfold cover_attempt, try_catch. unfold bind at 1.
  rewrite (encodeURIComponent_returns title tr Henc).
  unfold bind, fetch, sleep, emit, response_json, of_sum, member, as_string, ret,
    throw.
  destruct (net tr (CoverRequest title)) as [e|res].
  { exists Continue, [Fetch (CoverRequest title)]. auto. }
  destruct (status res =? 429)%N.
  { exists Continue, [Fetch (CoverRequest title); Sleep 1000].
    rewrite <- app_assoc. auto. }
  destruct (json res) as [e|data].
  { exists Continue, [Fetch (CoverRequest title)]. auto. }
  destruct (nullish data).
  { exists Continue, [Fetch (CoverRequest title)]. auto. }
  cbv zeta.
  destruct (truthy (opt_chain (get data (js "items")) thumbnail_path)) eqn:Htruthy.
  2:{ exists (Return JUndefined), [Fetch (CoverRequest title)]. auto. }
  destruct (opt_chain (get data (js "items")) thumbnail_path)
    as [| |b|lit|t|elems|props];
    try (exists Continue, [Fetch (CoverRequest title)]; now auto).
  exists (Return (JStr (replace_first (js "http:") (js "https:") t))),
    [Fetch (CoverRequest title)].
  split; [reflexivity|]. split; [now left|]. right; right.
  eexists. split; [reflexivity|].
  apply replace_first_not_empty; [vm_compute; discriminate|].
  destruct t; [discriminate Htruthy | discriminate].
Qed.

Lemma fetchCoverWithRetry_encodable (retries : nat) :
  uri_encodable title = true ->
  forall tr, exists v added,
    fetchCoverWithRetry net title retries tr = (Returned v, tr ++ added)
    /\ (v = JUndefined \/ exists t, v = JStr t /\ t <> [])
    /\ Forall (cover_event title) added
    /\ (Nat.min 1 retries <= cover_requests added <= retries)%nat
    /\ (backoffs added <= cover_requests added)%nat.
Proof.
  intros Henc. unfold fetchCoverWithRetry, cover_requests, backoffs.
  induction retries as [|n IH]; intros tr.
  { exists JUndefined, []. rewrite app_nil_r. simpl.
    repeat split; auto. }
  simpl cover_loop. unfold bind at 1.
  destruct (cover_attempt_turn tr Henc) as (turn & first & -> & Hfirst & Hturn).
  assert (Hevents : Forall (cover_event title) first
                    /\ List.length (filter is_cover_request first) = 1%nat
                    /\ (List.length (filter is_backoff first) <= 1)%nat).
  { destruct Hfirst as [->|[-> _]]; (split; [|split; [reflexivity | simpl; lia]]).
    - constructor; [now left | constructor].
    - constructor; [now left|]. constructor; [now right | constructor]. }
  destruct Hevents as (Hall & Hone & Hwait).
  destruct turn as [|v].
  - destruct (IH (tr ++ first)) as (v & added & -> & Hv & Hadded & Hcount & Hsleep).
    exists v, (first ++ added). rewrite app_assoc.
    split; [reflexivity|]. split; [exact Hv|].
    split; [apply Forall_app; now split|].
    rewrite !filter_app, !length_app, Hone. lia.
  - exists v, first. split; [reflexivity|].
    split.
    { destruct Hturn as [H|[H|(t & H & Ht)]]; [discriminate H| |];
        injection H as ->; eauto. }
    split; [exact Hall|]. rewrite Hone.
    destruct Hfirst as [->|[_ H]]; [simpl; lia | discriminate H].
Qed.

(** What the lookup does, whatever the books API answers and
    whatever the title is. *)
Lemma fetchCoverWithRetry_bounded (retries : nat) (tr : Trace) :
  exists v added,
    fetchCoverWithRetry net title retries tr = (Returned v, tr ++ added)
    /\ (v = JUndefined \/ exists t, v = JStr t /\ t <> [])
    /\ Forall (cover_event title) added
    /\ (cover_requests added <= retries)%nat
    /\ (backoffs added <= cover_requests added)%nat
    /\ if uri_encodable title
       then (Nat.min 1 retries <= cover_requests added)%nat
       else added = [] /\ v = JUndefined.
Proof.
  destruct (uri_encodable title) eqn:Henc.
  - destruct (fetchCoverWithRetry_encodable retries Henc tr)
      as (v & added & Hrun & Hv & Hall & Hcount & Hwaits).
    exists v, added. repeat split; try assumption; lia.
  - exists JUndefined, []. rewrite app_nil_r.
    split; [now apply cover_lookup_unencodable|].
    split; [now left|]. split; [constructor|].
    unfold cover_requests, backoffs. simpl. repeat split; lia.
Qed.

(** X2.  Whatever the books API answers, [fetchCoverWithRetry]
    returns: it never throws and never hangs.  It returns [undefined]
    or a non-empty string, after at most [retries] requests, all of
    them for the title it was given; besides these requests it only
    waits, for [retries] seconds at most in total.  For a title that
    can be encoded it sends at least one request (when [retries] is
    not 0); for a title that cannot, it sends none and returns
    [undefined]. *)
Theorem cover_lookup_is_bounded (retries : nat) (tr : Trace) :
  exists v added,
    fetchCoverWithRetry net title retries tr = (Returned v, tr ++ added)
    /\ (v = JUndefined \/ exists t, v = JStr t /\ t <> [])
    /\ Forall (cover_event title) added
    /\ (cover_requests added <= retries)%nat
    /\ requests added = cover_requests added
    /\ (waited added <= 1000 * N.of_nat retries)%N
    /\ if uri_encodable title
       then (Nat.min 1 retries <= cover_requests added)%nat
       else added = [] /\ v = JUndefined.
Proof.
  destruct (fetchCoverWithRetry_bounded retries tr)
    as (v & added & Hrun & Hv & Hall & Hcount & Hwaits & Hcase).
  exists v, added. split; [exact Hrun|]. split; [exact Hv|].
  split; [exact Hall|]. split; [exact Hcount|].
  destruct (cover_events_cost title added Hall) as (Hrequests & Hwaited).
  split; [exact Hrequests|]. split; [rewrite Hwaited; lia | exact Hcase].
Qed.

(** A turn whose request is answered 429 or rejected. *)
Lemma cover_attempt_fails (tr : Trace) :
  uri_encodable title = true ->
  turn_fails net title tr ->
  cover_attempt net title tr
  = (Returned Continue, tr ++ turn_events title (net tr (CoverRequest title))).
Proof.
  intros Henc. unfold cover_attempt, try_catch. unfold bind at 1.
  rewrite (encodeURIComponent_returns title tr Henc).
  unfold turn_fails, bind, fetch, sleep, emit, ret.
  destruct (net tr (CoverRequest title)) as [e|res]; [reflexivity|].
  intros ->. simpl. now rewrite <- app_assoc.
Qed.

(** After [k] failed turns the loop is where it would be had it
    started with [k] turns less. *)
Lemma fetchCoverWithRetry_skips (k n : nat) :
  uri_encodable title = true ->
  forall tr,
    (forall i, (i < k)%nat -> turn_fails net title (exhausted_trace net title i tr)) ->
    fetchCoverWithRetry net title (k + n) tr
    = fetchCoverWithRetry net title n (exhausted_trace net title k tr).
Proof.
  intros Henc. unfold fetchCoverWithRetry.
  induction k as [|k IH]; intros tr Hfails; [reflexivity|].
  simpl. unfold bind at 1.
  rewrite (cover_attempt_fails tr Henc (Hfails 0%nat ltac:(lia))).
  apply IH. intros i Hi. apply (Hfails (S i)). lia.
Qed.

(** X3.  A cover that the books API gives only after [k] requests
    were answered 429 or rejected is still found, as long as
    [k < retries] and the title can be encoded: the loop returns the
    thumbnail of the first other answer, made secure, and has sent
    [k + 1] requests. *)
Theorem cover_lookup_recovers (k retries : nat) (tr : Trace) (res : Response)
    (data : JsValue) (t : jsstring) :
  uri_encodable title = true ->
  (k < retries)%nat ->
  (forall i, (i < k)%nat -> turn_fails net title (exhausted_trace net title i tr)) ->
  net (exhausted_trace net title k tr) (CoverRequest title) = inr res ->
  status res <> 429%N ->
  json res = inr data ->
  nullish data = false ->
  opt_chain (get data (js "items")) thumbnail_path = JStr t ->
  t <> [] ->
  fetchCoverWithRetry net title retries tr
  = (Returned (JStr (replace_first (js "http:") (js "https:") t)),
     exhausted_trace net title k tr ++ [Fetch (CoverRequest title)])
  /\ cover_requests (exhausted_trace net title k tr ++ [Fetch (CoverRequest title)])
     = (cover_requests tr + k + 1)%nat.
Proof.
  intros Henc Hk Hfails Hnet Hstatus Hjson Hdata Ht Hne.
  replace retries with (k + S (retries - k - 1))%nat by lia.
  rewrite (fetchCoverWithRetry_skips k _ Henc tr Hfails).
  split.
  - now apply (cover_lookup_thumbnail net title _ res data).
  - destruct (exhausted_trace_added net title k tr) as (added & -> & Hcount & _).
    unfold cover_requests. rewrite !filter_app, !length_app, Hcount. simpl. lia.
Qed.

End CoverLookupBounds.

Lemma cover_lookup_recovers_witness :
  fetchCoverWithRetry (Scenario.scripted Scenario.amichai_script) (JStr (js "X"))
    default_retries []
  = (Returned (JStr (js "https://books.google.com/books/content?id=1&img=1")),
     [Fetch (CoverRequest (JStr (js "X"))); Sleep 1000;
      Fetch (CoverRequest (JStr (js "X")))]).
Proof.
  assert (Hfails : forall i, (i < 1)%nat ->
            turn_fails (Scenario.scripted Scenario.amichai_script) (JStr (js "X"))
              (exhausted_trace (Scenario.scripted Scenario.amichai_script)
                 (JStr (js "X")) i [])).
  { intros i Hi. assert (i = 0%nat) as -> by lia. reflexivity. }
  assert (Hthumbnail :
    opt_chain (get (Scenario.books_reply (JStr Scenario.google_thumbnail)) (js "items"))
      thumbnail_path
    = JStr Scenario.google_thumbnail) by (vm_compute; reflexivity).
  assert (Hne : Scenario.google_thumbnail <> []) by (vm_compute; discriminate).
  assert (Hstatus : 200%N <> 429%N) by discriminate.
  assert (Henc : uri_encodable (JStr (js "X")) = true) by (vm_compute; reflexivity).
  destruct (cover_lookup_recovers (Scenario.scripted Scenario.amichai_script)
              (JStr (js "X")) 1 default_retries []
              (mkResponse 200 (inr (Scenario.books_reply (JStr Scenario.google_thumbnail))))
              (Scenario.books_reply (JStr Scenario.google_thumbnail))
              Scenario.google_thumbnail Henc
              ltac:(unfold default_retries; lia) Hfails eq_refl Hstatus eq_refl eq_refl
              Hthumbnail Hne) as (Hrun & _).
  rewrite Hrun. vm_compute. reflexivity.
Defined.

(** ** The record of [fetchBookData] *)

Section Record.

Lemma eqb_refl (a : jsstring) : JsString.eqb a a = true.
Proof. induction a as [|c a IH]; simpl; [reflexivity|]. now rewrite N.eqb_refl. Qed.

Lemma eqb_eq (a b : jsstring) : JsString.eqb a b = true -> a = b.
Proof.
  revert b. induction a as [|c a IH]; intros [|d b]; simpl; try discriminate;
    [reflexivity|].
  intros H. apply andb_prop in H. destruct H as [Hc Hr].
  apply N.eqb_eq in Hc. subst d. now rewrite (IH b Hr).
Qed.

(** A property just assigned is read back. *)
Lemma lookup_set_prop (k : jsstring) (v : JsValue) (props : list (jsstring * JsValue)) :
  lookup k (set_prop k v props) = v.
Proof.
  induction props as [|[k' v'] props IH]; simpl.
  - now rewrite eqb_refl.
  - destruct (JsString.eqb k k') eqn:Hk; simpl.
    + now rewrite eqb_refl.
    + now rewrite Hk.
Qed.

(** The other properties are left as they were. *)
Lemma lookup_set_prop_other (k k' : jsstring) (v : JsValue)
    (props : list (jsstring * JsValue)) :
  JsString.eqb k' k = false ->
  lookup k' (set_prop k v props) = lookup k' props.
Proof.
  intros Hk. induction props as [|[k0 v0] props IH]; simpl.
  - now rewrite Hk.
  - destruct (JsString.eqb k k0) eqn:Hk0; simpl.
    + apply eqb_eq in Hk0. subst k0. now rewrite Hk.
    + now rewrite IH.
Qed.

Variable net : Network.
Variable lines : list jsstring.
Variable tr : Trace.

(** A reply whose text parses to a value other than [null]. *)
Lemma fetchBookData_parsed (res : Response) (data : JsValue) (text : jsstring)
    (bookData : JsValue) :
  net tr (InferenceRequest (join [LF] lines)) = inr res ->
  json res = inr data ->
  nullish data = false ->
  result_text data = JStr text ->
  text <> [] ->
  Json.parse (cleanJson text) = Some bookData ->
  nullish bookData = false ->
  exists coverUri tr',
    fetchCoverWithRetry net (or_else (get bookData (js "title")) (JStr []))
      default_retries (tr ++ [Fetch (InferenceRequest (join [LF] lines))])
    = (Returned coverUri, tr')
    /\ fetchBookData net lines tr
       = (Returned (JObj (set_prop (js "coverUri") coverUri (own_props bookData))), tr').
Proof.
  intros Hnet Hjson Hdata Htext Hne Hparse Hbook.
  destruct (fetchCoverWithRetry_returns net
              (or_else (get bookData (js "title")) (JStr [])) default_retries
              (tr ++ [Fetch (InferenceRequest (join [LF] lines))]))
    as (coverUri & tr' & Hcover).
  exists coverUri, tr'. split; [exact Hcover|].
  unfold fetchBookData, try_catch, bind, fetch, response_json, of_sum, member,
    as_string, JSON_parse, console_error, emit, ret, throw.
  rewrite Hnet, Hjson, Hdata. cbv zeta. fold (result_text data). rewrite Htext.
  destruct text as [|c text']; [congruence|]. cbn [truthy negb].
  cbv beta iota. rewrite Hparse. cbv beta iota. rewrite Hbook, Hcover.
  reflexivity.
Qed.

(** X4.  When the text of the reply, its fences stripped, parses to
    a value other than [null], [fetchBookData] looks up the cover
    for the title of that value (for the empty title when it has
    none) and resolves to a record whose [coverUri] is what the
    lookup returned, whatever [coverUri] the reply itself carried,
    and whose other properties are those of the reply. *)
Theorem record_is_reply_with_looked_up_cover (res : Response) (data : JsValue)
    (text : jsstring) (bookData : JsValue) :
  net tr (InferenceRequest (join [LF] lines)) = inr res ->
  json res = inr data ->
  nullish data = false ->
  result_text data = JStr text ->
  text <> [] ->
  Json.parse (cleanJson text) = Some bookData ->
  nullish bookData = false ->
  exists coverUri tr' props,
    fetchCoverWithRetry net (or_else (get bookData (js "title")) (JStr []))
      default_retries (tr ++ [Fetch (InferenceRequest (join [LF] lines))])
    = (Returned coverUri, tr')
    /\ fetchBookData net lines tr = (Returned (JObj props), tr')
    /\ lookup (js "coverUri") props = coverUri
    /\ (forall k,
          JsString.eqb k (js "coverUri") = false ->
          lookup k props = lookup k (own_props bookData)).
Proof.
  intros Hnet Hjson Hdata Htext Hne Hparse Hbook.
  destruct (fetchBookData_parsed res data text bookData
              Hnet Hjson Hdata Htext Hne Hparse Hbook)
    as (coverUri & tr' & Hcover & Hrun).
  exists coverUri, tr', (set_prop (js "coverUri") coverUri (own_props bookData)).
  split; [exact Hcover|]. split; [exact Hrun|].
  split; [apply lookup_set_prop|].
  intros k Hk. now apply lookup_set_prop_other.
Qed.

(** How [fetchBookData] ends, whatever the network does. *)
Lemma fetchBookData_ends :
  exists result more,
    fetchBookData net lines tr
    = (Returned result, tr ++ Fetch (InferenceRequest (join [LF] lines)) :: more)
    /\ ((result = JUndefined /\ more = [])
        \/ (result = JUndefined
            /\ exists e, more = [ConsoleError (js "Agent Logic Error:") e])
        \/ ((exists props, result = JObj props)
            /\ exists title,
                 Forall (cover_event title) more
                 /\ (cover_requests more <= default_retries)%nat
                 /\ (backoffs more <= cover_requests more)%nat
                 /\ if uri_encodable title
                    then (1 <= cover_requests more)%nat
                    else more = [])).
Proof.
  assert (Hcons : forall (x : Event) more,
            (tr ++ [x]) ++ more = tr ++ x :: more).
  { intros x more. now rewrite <- app_assoc. }
  destruct (net tr (InferenceRequest (join [LF] lines))) as [e|res] eqn:Hnet.
  { exists JUndefined, [ConsoleError (js "Agent Logic Error:") e].
    unfold fetchBookData, try_catch, bind, fetch, console_error, emit, ret.
    rewrite Hnet, Hcons. split; [reflexivity|]. right; left. eauto. }
  destruct (json res) as [e|data] eqn:Hjson.
  { exists JUndefined, [ConsoleError (js "Agent Logic Error:") e].
    unfold fetchBookData, try_catch, bind, fetch, response_json, of_sum,
      console_error, emit, ret, throw.
    rewrite Hnet, Hjson, Hcons. split; [reflexivity|]. right; left. eauto. }
  destruct (nullish data) eqn:Hdata.
  { exists JUndefined, [ConsoleError (js "Agent Logic Error:") TypeError].
    unfold fetchBookData, try_catch, bind, fetch, response_json, of_sum, member,
      console_error, emit, ret, throw.
    rewrite Hnet, Hjson, Hdata, Hcons. split; [reflexivity|]. right; left. eauto. }
  destruct (truthy (result_text data)) eqn:Htruthy.
  2:{ exists JUndefined, [].
      rewrite (fetchBookData_empty net lines tr res data Hnet Hjson Hdata Htruthy).
      split; [reflexivity|]. now left. }
  destruct (result_text data) as [| |b|lit|text|elems|props] eqn:Htext;
    try discriminate Htruthy;
    try (exists JUndefined, [ConsoleError (js "Agent Logic Error:") TypeError];
         unfold fetchBookData, try_catch, bind, fetch, response_json, of_sum, member,
           as_string, console_error, emit, ret, throw;
         rewrite Hnet, Hjson, Hdata; cbv zeta; fold (result_text data);
         rewrite Htext, Htruthy; cbn [negb]; cbv beta iota;
         rewrite Hcons; split; [reflexivity|]; right; left; now eauto).
  assert (Hne : text <> []) by (destruct text; [discriminate Htruthy | discriminate]).
  destruct (Json.parse (cleanJson text)) as [bookData|] eqn:Hparse.
  2:{ exists JUndefined, [ConsoleError (js "Agent Logic Error:") SyntaxError].
      rewrite (fetchBookData_malformed net lines tr res data Hnet Hjson Hdata
                 text Htext Hne Hparse).
      split; [reflexivity|]. right; left. eauto. }
  destruct (nullish bookData) eqn:Hbook.
  { exists JUndefined, [ConsoleError (js "Agent Logic Error:") TypeError].
    unfold fetchBookData, try_catch, bind, fetch, response_json, of_sum, member,
      as_string, JSON_parse, console_error, emit, ret, throw.
    rewrite Hnet, Hjson, Hdata. cbv zeta. fold (result_text data). rewrite Htext.
    destruct text as [|c text']; [congruence|]. cbn [truthy negb].
    cbv beta iota. rewrite Hparse. cbv beta iota. rewrite Hbook, Hcons.
    split; [reflexivity|]. right; left. eauto. }
  destruct (fetchBookData_parsed res data text bookData
              Hnet Hjson Hdata Htext Hne Hparse Hbook)
    as (coverUri & tr' & Hcover & Hrun).
  destruct (fetchCoverWithRetry_bounded net
              (or_else (get bookData (js "title")) (JStr [])) default_retries
              (tr ++ [Fetch (InferenceRequest (join [LF] lines))]))
    as (v & added & Hrun' & _ & Hall & Hcount & Hwaits & Hcase).
  rewrite Hrun' in Hcover. injection Hcover as _ <-.
  exists (JObj (set_prop (js "coverUri") coverUri (own_props bookData))), added.
  rewrite Hrun, Hcons. split; [reflexivity|]. right; right.
  split; [eauto|].
  exists (or_else (get bookData (js "title")) (JStr [])).
  split; [exact Hall|]. split; [exact Hcount|]. split; [exact Hwaits|].
  destruct (uri_encodable (or_else (get bookData (js "title")) (JStr [])));
    [exact Hcase | exact (proj1 Hcase)].
Qed.



End Record.

Lemma record_is_reply_with_looked_up_cover_witness :
  exists tr' props,
    fetchBookData (Scenario.scripted Scenario.amichai_script) [js "עמיחי"] []
    = (Returned (JObj props), tr')
    /\ lookup (js "coverUri") props
       = JStr (js "https://books.google.com/books/content?id=1&img=1")
    /\ lookup (js "title") props = JStr (js "שירי אהבה").
Proof.
  assert (Htext :
    result_text
      (Scenario.ai_reply
         (JStr (jsq "```json|{'title':'שירי אהבה','authors':['יהודה עמיחי']}|```")))
    = JStr (jsq "```json|{'title':'שירי אהבה','authors':['יהודה עמיחי']}|```"))
    by (vm_compute; reflexivity).
  assert (Hne : jsq "```json|{'title':'שירי אהבה','authors':['יהודה עמיחי']}|```" <> [])
    by (vm_compute; discriminate).
  assert (Hparse :
    Json.parse
      (cleanJson (jsq "```json|{'title':'שירי אהבה','authors':['יהודה עמיחי']}|```"))
    = Some (JObj [(js "title", JStr (js "שירי אהבה"));
                  (js "authors", JArr [JStr (js "יהודה עמיחי")])]))
    by (vm_compute; reflexivity).
  destruct (record_is_reply_with_looked_up_cover
              (Scenario.scripted Scenario.amichai_script) [js "עמיחי"] []
              _ _ _ _ eq_refl eq_refl eq_refl Htext Hne Hparse eq_refl)
    as (coverUri & tr' & props & Hcover & Hrun & HcoverUri & Hothers).
  exists tr', props. split; [exact Hrun|]. split.
  - rewrite HcoverUri.
    assert (Hlookup :
      fetchCoverWithRetry (Scenario.scripted Scenario.amichai_script)
        (or_else (get (JObj [(js "title", JStr (js "שירי אהבה"));
                             (js "authors", JArr [JStr (js "יהודה עמיחי")])])
                      (js "title")) (JStr []))
        default_retries ([] ++ [Fetch (InferenceRequest (join [LF] [js "עמיחי"]))])
      = (Returned (JStr (js "https://books.google.com/books/content?id=1&img=1")),
         [Fetch (InferenceRequest (js "עמיחי"));
          Fetch (CoverRequest (JStr (js "שירי אהבה"))); Sleep 1000;
          Fetch (CoverRequest (JStr (js "שירי אהבה")))]))
      by (vm_compute; reflexivity).
    rewrite Hlookup in Hcover. now injection Hcover as <- _.
  - rewrite (Hothers (js "title")) by (vm_compute; reflexivity).
    vm_compute. reflexivity.
Defined.

(** ** The text handed to [JSON.parse] *)

Section Fences.

Lemma starts_with_prefix (pat s : jsstring) :
  starts_with pat s = true -> exists r, s = pat ++ r.
Proof.
  revert s. induction pat as [|a pat IH]; intros s; simpl.
  - intros _. now exists s.
  - destruct s as [|c s]; [discriminate|]. intros H.
    apply andb_prop in H. destruct H as [Hc Hr]. apply N.eqb_eq in Hc. subst c.
    destruct (IH s Hr) as (r & ->). now exists r.
Qed.

Lemma includes_infix (pat s : jsstring) :
  includes pat s = true <-> exists a c, s = a ++ pat ++ c.
Proof.
  split.
  - induction s as [|x s IH]; simpl; intros H.
    + rewrite orb_false_r in H. destruct (starts_with_prefix _ _ H) as (r & ->).
      now exists [], r.
    + apply orb_prop in H. destruct H as [H|H].
      * destruct (starts_with_prefix _ _ H) as (r & ->). now exists [], r.
      * destruct (IH H) as (a & c & ->). now exists (x :: a), c.
  - intros (a & c & ->). induction a as [|x a IH].
    + simpl app. destruct (pat ++ c) eqn:E; simpl; rewrite <- ?E;
        now rewrite starts_with_app.
    + simpl. rewrite IH. apply orb_true_r.
Qed.

Lemma includes_part (pat a s c : jsstring) :
  includes pat (a ++ s ++ c) = false -> includes pat s = false.
Proof.
  intros H. destruct (includes pat s) eqn:Hs; [|reflexivity].
  apply includes_infix in Hs. destruct Hs as (a' & c' & ->).
  rewrite <- H. symmetry. apply includes_infix.
  exists (a ++ a'), (c' ++ c). now rewrite <- !app_assoc.
Qed.

Lemma includes_trim (pat s : jsstring) :
  includes pat s = false -> includes pat (trim s) = false.
Proof.
  destruct (trim_decompose s) as (_ & before & after & Hs & _).
  intros H. rewrite Hs in H. exact (includes_part _ _ _ _ H).
Qed.

(** A longer pattern occurs only where its prefix does. *)
Lemma includes_longer (pat more s : jsstring) :
  includes pat s = false -> includes (pat ++ more) s = false.
Proof.
  intros H. destruct (includes (pat ++ more) s) eqn:Hs; [|reflexivity].
  apply includes_infix in Hs. destruct Hs as (a & c & ->).
  rewrite <- H. symmetry. apply includes_infix.
  exists a, (more ++ c). now rewrite <- app_assoc.
Qed.

(** Nothing is replaced in a string that has no match. *)
Lemma replace_global_none (pat rep s : jsstring) :
  includes pat s = false -> replace_global pat rep s = s.
Proof.
  unfold replace_global. induction s as [|c s IH]; [reflexivity|].
  simpl. intros H. apply orb_false_elim in H. destruct H as [Hhere Hlater].
  simpl in Hhere. rewrite Hhere. now rewrite (IH Hlater).
Qed.

Variable b : N.

Lemma triple_after (s : jsstring) :
  starts_with [b; b; b] s = true -> starts_with [b; b; b] (b :: s) = true.
Proof.
  intros H. destruct (starts_with_prefix _ _ H) as (r & ->).
  simpl. now rewrite !N.eqb_refl.
Qed.

(** Without a match at its head, a string keeps its first code unit. *)
Lemma replace_triple_head (s : jsstring) :
  starts_with [b; b; b] s = false ->
  replace_global [b; b; b] [] s
  = match s with
    | [] => []
    | c :: s' => c :: replace_global [b; b; b] [] s'
    end.
Proof.
  unfold replace_global. destruct s as [|c s]; [reflexivity|].
  intros H. cbn [replace_global_from]. now rewrite H.
Qed.

Lemma replace_triple_pair (s : jsstring) :
  starts_with [b; b; b] s = false ->
  starts_with [b; b] (replace_global [b; b; b] [] s) = true ->
  starts_with [b; b] s = true.
Proof.
  intros Hs. rewrite (replace_triple_head s Hs).
  destruct s as [|c s]; [discriminate|].
  intros H. destruct (starts_with_prefix _ _ H) as (r & Hr).
  injection Hr as -> Hr.
  destruct (starts_with [b; b; b] s) eqn:Hs'.
  { rewrite (triple_after s Hs') in Hs. discriminate Hs. }
  rewrite (replace_triple_head s Hs') in Hr.
  destruct s as [|d s]; [discriminate Hr|].
  injection Hr as -> _. simpl. now rewrite !N.eqb_refl.
Qed.

(** Once every [bbb] is removed, left to right, none is left: what
    is removed is never followed by what would complete a new one. *)
Lemma replace_triple_from (s : jsstring) :
  forall k, includes [b; b; b] (replace_global_from k [b; b; b] [] s) = false.
Proof.
  induction s as [|c s IH]; intros k; [now destruct k|].
  destruct k as [|k]; [|apply IH].
  cbn [replace_global_from].
  destruct (starts_with [b; b; b] (c :: s)) eqn:Hs; [apply IH|].
  cbn [includes]. rewrite (IH 0%nat), orb_false_r.
  fold (replace_global [b; b; b] [] s).
  destruct (starts_with [b; b; b] (c :: replace_global [b; b; b] [] s)) eqn:H;
    [|reflexivity].
  destruct (starts_with_prefix _ _ H) as (r & Hr). injection Hr as -> Hr.
  assert (Hpair : starts_with [b; b] (replace_global [b; b; b] [] s) = true).
  { rewrite Hr. simpl. now rewrite !N.eqb_refl. }
  destruct (starts_with [b; b; b] s) eqn:Hs'.
  { rewrite (triple_after s Hs') in Hs. discriminate Hs. }
  pose proof (replace_triple_pair s Hs' Hpair) as Hss.
  destruct (starts_with_prefix _ _ Hss) as (r' & ->).
  simpl in Hs. rewrite !N.eqb_refl in Hs. discriminate Hs.
Qed.

End Fences.

Lemma fence_units : fence = [BACKTICK; BACKTICK; BACKTICK].
Proof. reflexivity. Qed.

(** X6.  The text [fetchBookData] hands to [JSON.parse] holds no code
    fence, wherever the fences stood in the reply, and has no white
    space at its ends; cleaning it once more changes nothing. *)
Theorem cleanJson_leaves_no_fence (resultText : jsstring) :
  includes fence (cleanJson resultText) = false
  /\ black_ends (cleanJson resultText)
  /\ cleanJson (cleanJson resultText) = cleanJson resultText.
Proof.
  assert (Hclean : includes fence (cleanJson resultText) = false).
  { unfold cleanJson. apply includes_trim.
    change (js "```") with [BACKTICK; BACKTICK; BACKTICK]. rewrite fence_units.
    apply replace_triple_from. }
  split; [exact Hclean|]. split; [apply trim_black_ends|].
  unfold cleanJson at 1.
  rewrite (replace_global_none (js "```json") [] (cleanJson resultText)).
  2:{ change (js "```json") with (fence ++ js "json"). now apply includes_longer. }
  change (js "```") with fence.
  rewrite (replace_global_none fence [] _ Hclean).
  unfold cleanJson. apply trim_idempotent.
Qed.

(** ** More on the orchestrator *)

Section Orchestrator.

Import Scenario.

Variable w : World.

Lemma extraction_fails_or_not (base64 : JsValue) :
  extraction_fails (network w) base64 \/ ~ extraction_fails (network w) base64.
Proof.
  unfold extraction_fails.
  destruct (network w [] (OcrRequest base64)) as [e|res]; [now left|].
  destruct (json res) as [e|data]; [now left|].
  destruct (nullish data); [left; now left|].
  destruct (truthy (get data (js "success")) && truthy (get data (js "text")));
    [|left; right; now left].
  destruct (get data (js "text")) as [| |b|lit|t|elems|props];
    try (left; right; right; intros t'; discriminate).
  right. intros [H|[H|H]]; try discriminate H. now elim (H t).
Qed.

(** X7.  Every scan starts from a clean slate: what a scan leaves,
    and what it sends, does not depend on the state the component
    was in, so that nothing of an earlier scan is shown with the
    new one. *)
Theorem scan_forgets_the_previous_scan (st1 st2 : ScanState) :
  scan w st1 = scan w st2.
Proof.
  destruct (read_file w) as [|dataUrl] eqn:Hread.
  { now rewrite !scan_read_error. }
  destruct (decode_image w dataUrl) as [|jpeg] eqn:Hdecode.
  { now rewrite !(scan_image_error w _ dataUrl Hread Hdecode). }
  destruct (network w [] (OcrRequest (base64_of jpeg))) as [e|res] eqn:Hnet.
  { now rewrite !(scan_fetch_rejected w _ dataUrl jpeg Hread Hdecode e Hnet). }
  destruct (json res) as [e|data] eqn:Hjson.
  { now rewrite !(scan_body_rejected w _ dataUrl jpeg Hread Hdecode res Hnet e Hjson). }
  destruct (nullish data) eqn:Hdata.
  { now rewrite !(scan_null_reply w _ dataUrl jpeg Hread Hdecode res Hnet data
                    Hjson Hdata). }
  destruct (truthy (get data (js "success")) && truthy (get data (js "text")))
    eqn:Hguard.
  2:{ now rewrite !(scan_no_text w _ dataUrl jpeg Hread Hdecode res Hnet data
                      Hjson Hdata Hguard). }
  apply andb_prop in Hguard. destruct Hguard as [Hsuccess Htruthy].
  destruct (get data (js "text")) as [| |b|lit|t|elems|props] eqn:Htext;
    try (rewrite !(scan_text_not_string w _ dataUrl jpeg Hread Hdecode res Hnet data
                     Hjson Hdata Hsuccess);
         [reflexivity | | | |]; solve [congruence | discriminate]).
  assert (Ht : t <> []) by (destruct t; [discriminate Htruthy | discriminate]).
  destruct (scan_probed w jpeg) as (h & Hh).
  destruct (reportable h) eqn:Hreport.
  - destruct (scan_proceeds w st1 dataUrl jpeg Hread Hdecode res Hnet data Hjson Hdata
                t h Hsuccess Htext Ht Hh Hreport) as (r1 & m1 & Hr1 & ->).
    destruct (scan_proceeds w st2 dataUrl jpeg Hread Hdecode res Hnet data Hjson Hdata
                t h Hsuccess Htext Ht Hh Hreport) as (r2 & m2 & Hr2 & ->).
    rewrite Hr1 in Hr2. injection Hr2 as <- <-. reflexivity.
  - now rewrite !(scan_report_throws w _ dataUrl jpeg Hread Hdecode res Hnet data
                    Hjson Hdata t h Hsuccess Htext Ht Hh Hreport).
Qed.

(** X8.  [handleScanCover] never rejects.  When it returns, the
    loading flag is cleared and the page shows either an error and
    no card, or a card with the report of the probe and no error:
    never both and never neither.  An error comes without lines and
    without status, except the [TypeError] of the status line of the
    probe, which comes with the lines that were stored and the
    status that says the probe is under way.  The scan stays pending
    only for a file that was read and cannot be decoded. *)
Theorem scan_ends_with_an_error_or_a_card (st : ScanState) :
  match scan w st with
  | (Returned _, (st', _)) =>
      isLoading st' = false
      /\ ((exists e, error st' = Some e) /\ bookResult st' = None
          /\ (ocrLines st' = [] /\ aiStatus st' = StatusNone
              \/ error st' = Some (Caught TypeError) /\ aiStatus st' = StatusChecking)
          \/ error st' = None
             /\ (exists card, bookResult st' = Some card /\ truthy card = true)
             /\ exists h, aiStatus st' = StatusReport h /\ reportable h = true)
  | (Pending, (st', tr)) =>
      st' = suspended /\ tr = []
      /\ exists dataUrl,
           read_file w = ReadLoad dataUrl /\ decode_image w dataUrl = ImageError
  | (Threw _, _) => False
  end.
Proof.
  destruct (read_file w) as [|dataUrl] eqn:Hread.
  { rewrite scan_read_error by exact Hread. simpl. split; [reflexivity|].
    left. split; [eauto|]. split; [reflexivity|]. now left. }
  destruct (decode_image w dataUrl) as [|jpeg] eqn:Hdecode.
  { rewrite (scan_image_error w st dataUrl Hread Hdecode). eauto. }
  destruct (extraction_fails_or_not (base64_of jpeg)) as [Hfails|Hok].
  { destruct (scan_extraction_fails w st dataUrl jpeg Hread Hdecode Hfails)
      as (e & ->).
    simpl. split; [reflexivity|]. left. split; [eauto|]. split; [reflexivity|].
    now left. }
  unfold extraction_fails in Hok.
  destruct (network w [] (OcrRequest (base64_of jpeg))) as [e|res] eqn:Hnet;
    [now elim Hok|].
  destruct (json res) as [e|data] eqn:Hjson; [now elim Hok|].
  destruct (nullish data) eqn:Hdata; [elim Hok; now left|].
  destruct (truthy (get data (js "success"))) eqn:Hsuccess;
    [|elim Hok; right; now left].
  destruct (get data (js "text")) as [| |b|lit|t|elems|props] eqn:Htext;
    try (elim Hok; right; right; intros t'; discriminate).
  assert (Ht : t <> []).
  { intros ->. elim Hok. right; now left. }
  destruct (scan_probed w jpeg) as (h & Hh).
  destruct (reportable h) eqn:Hreport.
  - destruct (scan_proceeds w st dataUrl jpeg Hread Hdecode res Hnet data Hjson Hdata
                t h Hsuccess Htext Ht Hh Hreport) as (result & more & _ & ->).
    simpl. split; [reflexivity|]. right. split; [reflexivity|]. split; [|eauto].
    destruct (truthy result) eqn:Hresult; eauto.
  - rewrite (scan_report_throws w st dataUrl jpeg Hread Hdecode res Hnet data Hjson
               Hdata t h Hsuccess Htext Ht Hh Hreport).
    simpl. split; [reflexivity|]. left. split; [eauto|]. split; [reflexivity|].
    now right.
Qed.

Section Extracted.

Variable st : ScanState.
Variables dataUrl jpeg : jsstring.
Variable res : Response.
Variable data : JsValue.
Variable t : jsstring.
Hypothesis Hread : read_file w = ReadLoad dataUrl.
Hypothesis Hdecode : decode_image w dataUrl = ImageLoad jpeg.
Hypothesis Hnet : network w [] (OcrRequest (base64_of jpeg)) = inr res.
Hypothesis Hjson : json res = inr data.
Hypothesis Hdata : nullish data = false.
Hypothesis Hsuccess : truthy (get data (js "success")) = true.
Hypothesis Htext : get data (js "text") = JStr t.
Hypothesis Ht : t <> [].

(** X9.  The probe is a report, not a gate: when it finds the model
    offline, the scan shows that report and goes on to ask the
    model for the record all the same, and no error is recorded. *)
Theorem offline_probe_does_not_stop_the_scan (e : Exn) :
  heartbeat_failure (network w) [ocr_request jpeg] = Some e ->
  exists result more,
    scan w st
    = (Returned tt,
       (completed (ocr_lines t) (HeartbeatOffline e) result,
        ocr_request jpeg :: Fetch HeartbeatRequest
        :: Fetch (InferenceRequest (join [LF] (ocr_lines t))) :: more)).
Proof.
  intros Hprobe.
  pose proof (testAI_offline (network w) [ocr_request jpeg] e Hprobe) as Hh.
  simpl app in Hh.
  destruct (scan_proceeds w st dataUrl jpeg Hread Hdecode res Hnet data Hjson Hdata
              t (HeartbeatOffline e) Hsuccess Htext Ht Hh eq_refl)
    as (result & more & _ & Hscan).
  eauto.
Qed.

(** X10.  When the report of the probe was shown and the request to
    the model for the record is then rejected, the user is shown no
    error: the rejection is logged, and the page shows the card that
    says the book is not in the index of a model that is online,
    beside whatever the probe reported. *)
Theorem rejected_inference_is_shown_as_unknown_book (h : Heartbeat) (e : Exn) :
  probe_reported w jpeg h ->
  network w [ocr_request jpeg; Fetch HeartbeatRequest]
    (InferenceRequest (join [LF] (ocr_lines t))) = inl e ->
  scan w st
  = (Returned tt,
     ({| ocrLines := ocr_lines t;
         bookResult := Some identification_failed;
         isLoading := false;
         aiStatus := StatusReport h;
         error := None |},
      [ocr_request jpeg; Fetch HeartbeatRequest;
       Fetch (InferenceRequest (join [LF] (ocr_lines t)));
       ConsoleError (js "Agent Logic Error:") e])).
Proof.
  intros (Hh & Hreport) Hinference.
  destruct (scan_proceeds w st dataUrl jpeg Hread Hdecode res Hnet data Hjson Hdata
              t h Hsuccess Htext Ht Hh Hreport) as (result & more & Hr & Hscan).
  rewrite Hscan.
  unfold fetchBookData, try_catch, bind, fetch, console_error, emit, ret in Hr.
  rewrite Hinference in Hr. simpl in Hr. injection Hr as <- <-. reflexivity.
Qed.

End Extracted.

End Orchestrator.


Lemma offline_probe_does_not_stop_the_scan_witness :
  exists result more,
    scan (Scenario.world_of Scenario.jpeg_url Cases.probe_down_script) initial_state
    = (Returned tt,
       (completed (ocr_lines Scenario.amichai_text)
          (HeartbeatOffline (Failure (js "Failed to fetch"))) result,
        ocr_request Scenario.jpeg_url :: Fetch HeartbeatRequest
        :: Fetch (InferenceRequest (join [LF] (ocr_lines Scenario.amichai_text)))
        :: more)).
Proof.
  assert (Hne : Scenario.amichai_text <> []) by (vm_compute; discriminate).
  exact (offline_probe_does_not_stop_the_scan
           (Scenario.world_of Scenario.jpeg_url Cases.probe_down_script) initial_state
           (js "data:image/png;base64,iVBORw0KGgo=") Scenario.jpeg_url
           (mkResponse 200 (inr (Scenario.ocr_reply true Scenario.amichai_text)))
           (Scenario.ocr_reply true Scenario.amichai_text) Scenario.amichai_text
           eq_refl eq_refl eq_refl eq_refl eq_refl eq_refl eq_refl Hne
           (Failure (js "Failed to fetch")) eq_refl).
Defined.

Lemma rejected_inference_is_shown_as_unknown_book_witness :
  scan (Scenario.world_of Scenario.jpeg_url Cases.ai_down_script) initial_state
  = (Returned tt,
     ({| ocrLines := [js "עמיחי"; js "שירי אהבה"];
         bookResult := Some identification_failed;
         isLoading := false;
         aiStatus := StatusReport (HeartbeatOffline (Failure (js "Failed to fetch")));
         error := None |},
      [ocr_request Scenario.jpeg_url; Fetch HeartbeatRequest;
       Fetch (InferenceRequest (jsq "עמיחי|שירי אהבה"));
       ConsoleError (js "Agent Logic Error:") (Failure (js "Failed to fetch"))])).
Proof.
  assert (Hne : Scenario.amichai_text <> []) by (vm_compute; discriminate).
  assert (Hprobe :
    probe_reported (Scenario.world_of Scenario.jpeg_url Cases.ai_down_script)
      Scenario.jpeg_url (HeartbeatOffline (Failure (js "Failed to fetch"))))
    by (split; reflexivity).
  rewrite (rejected_inference_is_shown_as_unknown_book
             (Scenario.world_of Scenario.jpeg_url Cases.ai_down_script) initial_state
             (js "data:image/png;base64,iVBORw0KGgo=") Scenario.jpeg_url
             (mkResponse 200 (inr (Scenario.ocr_reply true Scenario.amichai_text)))
             (Scenario.ocr_reply true Scenario.amichai_text) Scenario.amichai_text
             eq_refl eq_refl eq_refl eq_refl eq_refl eq_refl eq_refl Hne
             (HeartbeatOffline (Failure (js "Failed to fetch")))
             (Failure (js "Failed to fetch")) Hprobe eq_refl).
  vm_compute. reflexivity.
Defined.

(** ** Validation of the request *)

Section Validation.

Import OcrService.

Local Open Scope N_scope.

Lemma is_padding_spec (s : jsstring) :
  is_padding s = true <-> s = [] \/ s = [61] \/ s = [61; 61].
Proof.
  split.
  - destruct s as [|a [|b [|c s]]]; simpl; intros H; try discriminate H.
    + now left.
    + apply N.eqb_eq in H. subst a. right; now left.
    + apply andb_prop in H. destruct H as [Ha Hb].
      apply N.eqb_eq in Ha, Hb. subst a b. right; now right.
  - intros [->|[->| ->]]; reflexivity.
Qed.

Lemma base64_rest_spec (s : jsstring) :
  base64_rest s = true
  <-> exists data padding,
        s = data ++ padding
        /\ Forall (fun c => is_base64_char c = true) data
        /\ is_padding padding = true.
Proof.
  split.
  - induction s as [|c s IH]; simpl.
    + intros _. exists [], []. repeat split. constructor.
    + destruct (is_base64_char c) eqn:Hc.
      * intros H. destruct (IH H) as (data & padding & -> & Hdata & Hpad).
        exists (c :: data), padding. repeat split; [|exact Hpad].
        now constructor.
      * intros H. exists [], (c :: s). repeat split; [constructor | exact H].
  - intros (data & padding & -> & Hdata & Hpad).
    induction Hdata as [|c data Hc _ IH]; simpl.
    + apply is_padding_spec in Hpad. destruct Hpad as [->|[->| ->]]; reflexivity.
    + now rewrite Hc.
Qed.

(** The pattern [/^[A-Za-z0-9+/]+={0,2}$/], read as a description of
    the strings it matches. *)
Lemma is_base64_spec (s : jsstring) :
  is_base64 s = true
  <-> exists data padding,
        s = data ++ padding
        /\ data <> []
        /\ Forall (fun c => is_base64_char c = true) data
        /\ (padding = [] \/ padding = [61] \/ padding = [61; 61]).
Proof.
  split.
  - destruct s as [|c s]; simpl; [discriminate|]. intros H.
    apply andb_prop in H. destruct H as [Hc Hrest].
    apply base64_rest_spec in Hrest.
    destruct Hrest as (data & padding & -> & Hdata & Hpad).
    exists (c :: data), padding. split; [reflexivity|]. split; [discriminate|].
    split; [now constructor | now apply is_padding_spec].
  - intros (data & padding & -> & Hne & Hdata & Hpad).
    destruct data as [|c data]; [congruence|].
    inversion Hdata as [|? ? Hc Hrest]; subst. simpl. rewrite Hc. simpl.
    apply base64_rest_spec. exists data, padding.
    repeat split; [exact Hrest | now apply is_padding_spec].
Qed.

Lemma is_base64_units (s : jsstring) (c : N) :
  is_base64 s = true -> In c s -> is_base64_char c = true \/ c = 61.
Proof.
  intros H Hin. apply is_base64_spec in H.
  destruct H as (data & padding & -> & _ & Hdata & Hpad).
  apply in_app_or in Hin. destruct Hin as [Hin|Hin].
  - left. rewrite Forall_forall in Hdata. now apply Hdata.
  - right. destruct Hpad as [->|[->| ->]]; simpl in Hin; intuition.
Qed.

(** Base64 data holds no colon and no comma. *)
Lemma is_base64_plain (s : jsstring) :
  is_base64 s = true -> ~ In 58 s /\ ~ In 44 s.
Proof.
  intros H. split; intros Hin;
    destruct (is_base64_units s _ H Hin) as [Hc|Hc]; discriminate Hc.
Qed.

Lemma skipn_prefix (p s : jsstring) : skipn (List.length p) (p ++ s) = s.
Proof. induction p as [|c p IH]; [reflexivity | exact IH]. Qed.

(** Nothing is stripped from Base64 data. *)
Lemma strip_data_url_base64 (s : jsstring) :
  is_base64 s = true -> strip_data_url s = s.
Proof.
  intros H. destruct (is_base64_plain s H) as [Hcolon _].
  assert (Hno : forall p, In 58 p -> starts_with p s = false).
  { intros p Hp. destruct (starts_with p s) eqn:Hs; [|reflexivity].
    destruct (starts_with_prefix _ _ Hs) as (r & ->).
    elim Hcolon. apply in_or_app. now left. }
  unfold strip_data_url.
  rewrite !Hno; [reflexivity | | |]; vm_compute; tauto.
Qed.

Lemma strip_data_url_prefixed (s : jsstring) :
  strip_data_url (png_prefix ++ s) = s
  /\ strip_data_url (jpeg_prefix ++ s) = s
  /\ strip_data_url (jpg_prefix ++ s) = s.
Proof.
  unfold strip_data_url. split; [|split].
  - now rewrite starts_with_app, skipn_prefix.
  - assert (Hpng : starts_with png_prefix (jpeg_prefix ++ s) = false)
      by (vm_compute; reflexivity).
    now rewrite Hpng, starts_with_app, skipn_prefix.
  - assert (Hpng : starts_with png_prefix (jpg_prefix ++ s) = false)
      by (vm_compute; reflexivity).
    assert (Hjpeg : starts_with jpeg_prefix (jpg_prefix ++ s) = false)
      by (vm_compute; reflexivity).
    now rewrite Hpng, Hjpeg, starts_with_app, skipn_prefix.
Qed.

Lemma validateRequest_image (image : jsstring) :
  is_base64 (strip_data_url image) = true ->
  validateRequest (JObj [(js "image", JStr image)]) = inr (strip_data_url image).
Proof.
  intros H. unfold validateRequest.
  assert (Hget : get (JObj [(js "image", JStr image)]) (js "image") = JStr image)
    by reflexivity.
  rewrite Hget. cbn [truthy negb].
  destruct image as [|c image]; [discriminate H|]. cbn [negb]. cbv zeta.
  rewrite H. destruct (strip_data_url (c :: image)); [discriminate H | reflexivity].
Qed.

Lemma validateRequest_accepts (body : JsValue) (base64Image : jsstring) :
  validateRequest body = inr base64Image ->
  is_base64 base64Image = true
  /\ exists image,
       get body (js "image") = JStr image /\ base64Image = strip_data_url image.
Proof.
  unfold validateRequest.
  destruct (truthy body); cbn [negb]; [|discriminate].
  destruct (truthy (get body (js "image"))); cbn [negb]; [|discriminate].
  destruct (get body (js "image")) as [| |b|lit|image|elems|props];
    try discriminate.
  cbv zeta. destruct (strip_data_url image) as [|c s] eqn:Hstrip; [discriminate|].
  destruct (is_base64 (c :: s)) eqn:Hbase64; cbn [negb]; [|discriminate].
  intros H. injection H as <-. split; [exact Hbase64|].
  exists image. now split.
Qed.

(** X11.  What [validateRequest] returns is never empty and is made
    of characters of the Base64 alphabet followed by at most two
    [=] signs; it is the [image] of the body, a string, without its
    data-URL prefix. *)
Theorem validated_image_is_base64 (body : JsValue) (base64Image : jsstring) :
  validateRequest body = inr base64Image ->
  (exists image,
     get body (js "image") = JStr image /\ base64Image = strip_data_url image)
  /\ exists data padding,
       base64Image = data ++ padding
       /\ data <> []
       /\ Forall (fun c => is_base64_char c = true) data
       /\ (padding = [] \/ padding = [61] \/ padding = [61; 61]).
Proof.
  intros H. destruct (validateRequest_accepts body base64Image H) as (Hbase64 & Himage).
  split; [exact Himage | now apply is_base64_spec].
Qed.

(** X12.  The image may come as raw Base64 data or as a data URL of
    type png, jpeg or jpg: the four spellings of the same data
    validate to that data. *)
Theorem data_url_validates_as_its_data (base64 : jsstring) :
  is_base64 base64 = true ->
  validateRequest (JObj [(js "image", JStr base64)]) = inr base64
  /\ validateRequest (JObj [(js "image", JStr (png_prefix ++ base64))]) = inr base64
  /\ validateRequest (JObj [(js "image", JStr (jpeg_prefix ++ base64))]) = inr base64
  /\ validateRequest (JObj [(js "image", JStr (jpg_prefix ++ base64))]) = inr base64.
Proof.
  intros H. destruct (strip_data_url_prefixed base64) as (Hpng & Hjpeg & Hjpg).
  pose proof (strip_data_url_base64 base64 H) as Hraw.
  repeat split.
  - rewrite <- Hraw at 2. apply validateRequest_image. now rewrite Hraw.
  - rewrite <- Hpng at 2. apply validateRequest_image. now rewrite Hpng.
  - rewrite <- Hjpeg at 2. apply validateRequest_image. now rewrite Hjpeg.
  - rewrite <- Hjpg at 2. apply validateRequest_image. now rewrite Hjpg.
Qed.

(** X13.  A data URL of any other type (gif, webp, or png spelled in
    capitals) is not stripped, and is rejected as invalid Base64. *)
Theorem other_data_url_is_rejected (image : jsstring) :
  starts_with (js "data:") image = true ->
  starts_with png_prefix image = false ->
  starts_with jpeg_prefix image = false ->
  starts_with jpg_prefix image = false ->
  validateRequest (JObj [(js "image", JStr image)]) = inl (Failure not_base64).
Proof.
  intros Hdata Hpng Hjpeg Hjpg.
  assert (Hstrip : strip_data_url image = image).
  { unfold strip_data_url. now rewrite Hpng, Hjpeg, Hjpg. }
  assert (Hbase64 : is_base64 image = false).
  { destruct (is_base64 image) eqn:H; [|reflexivity].
    destruct (is_base64_plain image H) as [Hcolon _]. elim Hcolon.
    destruct (starts_with_prefix _ _ Hdata) as (r & ->).
    apply in_or_app. left. vm_compute. tauto. }
  unfold validateRequest.
  assert (Hget : get (JObj [(js "image", JStr image)]) (js "image") = JStr image)
    by reflexivity.
  rewrite Hget. cbn [truthy negb].
  destruct image as [|c image]; [discriminate Hdata|]. cbn [negb]. cbv zeta.
  rewrite Hstrip, Hbase64. reflexivity.
Qed.

End Validation.

Lemma validated_image_is_base64_witness :
  OcrService.validateRequest
    (JObj [(js "image", JStr (js "data:image/jpeg;base64,/9j/4AAQ"))])
  = inr (js "/9j/4AAQ")
  /\ exists data padding,
       js "/9j/4AAQ" = data ++ padding
       /\ data <> []
       /\ Forall (fun c => OcrService.is_base64_char c = true) data
       /\ (padding = [] \/ padding = [61%N] \/ padding = [61%N; 61%N]).
Proof.
  assert (H : OcrService.validateRequest
                (JObj [(js "image", JStr (js "data:image/jpeg;base64,/9j/4AAQ"))])
              = inr (js "/9j/4AAQ")) by (vm_compute; reflexivity).
  split; [exact H|].
  exact (proj2 (validated_image_is_base64 _ _ H)).
Defined.

Lemma data_url_validates_as_its_data_witness :
  OcrService.validateRequest (JObj [(js "image", JStr (js "iVBORw0KGgo="))])
  = inr (js "iVBORw0KGgo=")
  /\ OcrService.validateRequest
       (JObj [(js "image", JStr (js "data:image/png;base64,iVBORw0KGgo="))])
     = inr (js "iVBORw0KGgo=").
Proof.
  assert (H : OcrService.is_base64 (js "iVBORw0KGgo=") = true)
    by (vm_compute; reflexivity).
  destruct (data_url_validates_as_its_data (js "iVBORw0KGgo=") H)
    as (Hraw & Hpng & _).
  split; [exact Hraw|].
  assert (Hurl : js "data:image/png;base64,iVBORw0KGgo="
                 = OcrService.png_prefix ++ js "iVBORw0KGgo=")
    by (vm_compute; reflexivity).
  rewrite Hurl. exact Hpng.
Defined.

Lemma other_data_url_is_rejected_witness :
  OcrService.validateRequest
    (JObj [(js "image", JStr (js "data:image/webp;base64,UklGRg=="))])
  = inl (Failure OcrService.not_base64)
  /\ OcrService.validateRequest
       (JObj [(js "image", JStr (js "data:image/PNG;base64,iVBORw0KGgo="))])
     = inl (Failure OcrService.not_base64).
Proof.
  split; apply other_data_url_is_rejected; vm_compute; reflexivity.
Defined.

(** ** The handler *)

Section Handler.

Import OcrService.

Local Open Scope N_scope.

Variable platform_text : Exn -> jsstring.
Variable vision : Vision.

Lemma eqb_neq (a b : jsstring) : JsString.eqb a b = false -> a <> b.
Proof. intros H ->. now rewrite eqb_refl in H. Qed.

(** The four ways the handler answers. *)
Lemma ocrHandler_cases (req : HttpRequest) :
  (method req = js "OPTIONS"
   /\ ocrHandler platform_text vision req
      = ({| code := 204; headers := allow_origin :: preflight_headers;
            sent := SentText [] |}, []))
  \/ (method req <> js "OPTIONS" /\ method req <> js "POST"
      /\ ocrHandler platform_text vision req
         = ({| code := 405; headers := [allow_origin];
               sent := SentJson method_not_allowed |}, []))
  \/ (method req = js "POST"
      /\ exists error,
           validateRequest (body req) = inl error
           /\ ocrHandler platform_text vision req
              = ({| code := 500; headers := [allow_origin];
                    sent := SentJson (failure_body platform_text error) |},
                 [LogError error]))
  \/ (method req = js "POST"
      /\ exists base64Image error,
           validateRequest (body req) = inr base64Image
           /\ vision base64Image = inl error
           /\ ocrHandler platform_text vision req
              = ({| code := 500; headers := [allow_origin];
                    sent := SentJson (failure_body platform_text error) |},
                 [LogSize (List.length base64Image); AnnotateImage base64Image;
                  LogError error]))
  \/ (method req = js "POST"
      /\ exists base64Image result,
           validateRequest (body req) = inr base64Image
           /\ vision base64Image = inr result
           /\ ocrHandler platform_text vision req
              = ({| code := 200; headers := [allow_origin];
                    sent := SentJson
                              (OcrFunction.success_body (OcrFunction.performOcr result)) |},
                 [LogSize (List.length base64Image); AnnotateImage base64Image;
                  LogText (OcrFunction.performOcr result)])).
Proof.
  unfold ocrHandler.
  destruct (JsString.eqb (method req) (js "OPTIONS")) eqn:Hoptions.
  { left. split; [now apply eqb_eq | reflexivity]. }
  destruct (JsString.eqb (method req) (js "POST")) eqn:Hpost; cbn [negb].
  2:{ right; left. split; [now apply eqb_neq|]. split; [now apply eqb_neq|].
      reflexivity. }
  apply eqb_eq in Hpost.
  destruct (validateRequest (body req)) as [error|base64Image].
  { right; right; left. split; [exact Hpost|]. exists error. now split. }
  destruct (vision base64Image) as [error|result] eqn:Hvision.
  - right; right; right; left. split; [exact Hpost|].
    exists base64Image, error. now repeat split.
  - right; right; right; right. split; [exact Hpost|].
    exists base64Image, result. now repeat split.
Qed.

(** X14.  The handler answers every request, and every answer
    carries the header that lets a page of any origin read it, the
    errors included.  The status is 204 exactly for [OPTIONS], 405
    exactly for the other methods that are not [POST], 200 exactly
    for a [POST] whose body validates and whose image the Vision
    API annotates, and 500 for every other [POST]. *)
Theorem ocrHandler_answers_every_request (req : HttpRequest) :
  In allow_origin (headers (fst (ocrHandler platform_text vision req)))
  /\ (code (fst (ocrHandler platform_text vision req)) = 204
      <-> method req = js "OPTIONS")
  /\ (code (fst (ocrHandler platform_text vision req)) = 405
      <-> method req <> js "OPTIONS" /\ method req <> js "POST")
  /\ (code (fst (ocrHandler platform_text vision req)) = 200
      <-> method req = js "POST"
          /\ exists base64Image result,
               validateRequest (body req) = inr base64Image
               /\ vision base64Image = inr result)
  /\ In (code (fst (ocrHandler platform_text vision req))) [204; 405; 200; 500].
Proof.
  assert (Hmethods : js "OPTIONS" <> js "POST") by (vm_compute; discriminate).
  destruct (ocrHandler_cases req)
    as [(Hm & ->)|[(Hm1 & Hm2 & ->)|[(Hm & e & Hv & ->)|[(Hm & b & e & Hv & Hc & ->)
       |(Hm & b & r & Hv & Hc & ->)]]]]; cbn [fst code headers].
  - split; [now left|]. split; [tauto|].
    split; [split; [discriminate | tauto]|].
    split; [|simpl; tauto].
    split; [discriminate|]. intros (Hpost & _). congruence.
  - split; [now left|]. split; [split; [discriminate | tauto]|].
    split; [tauto|]. split; [|simpl; tauto].
    split; [discriminate | tauto].
  - split; [now left|]. split; [split; [discriminate | congruence]|].
    split; [split; [discriminate | tauto]|]. split; [|simpl; tauto].
    split; [discriminate|]. intros (_ & b & r & Hb & _). congruence.
  - split; [now left|]. split; [split; [discriminate | congruence]|].
    split; [split; [discriminate | tauto]|]. split; [|simpl; tauto].
    split; [discriminate|]. intros (_ & b' & r & Hb & Hr).
    rewrite Hv in Hb. injection Hb as <-. congruence.
  - split; [now left|]. split; [split; [discriminate | congruence]|].
    split; [split; [discriminate | tauto]|]. split; [|simpl; tauto].
    split; [|reflexivity]. intros _. split; [exact Hm|]. eauto.
Qed.

(** X15.  The Vision API is called at most once for a request, and
    only for a [POST] whose body validated: the image it is given
    is the validated one, Base64 data. *)
Theorem vision_is_called_with_validated_images_only (req : HttpRequest) :
  vision_calls (snd (ocrHandler platform_text vision req)) = []
  \/ exists base64Image,
       vision_calls (snd (ocrHandler platform_text vision req)) = [base64Image]
       /\ method req = js "POST"
       /\ validateRequest (body req) = inr base64Image
       /\ is_base64 base64Image = true.
Proof.
  destruct (ocrHandler_cases req)
    as [(Hm & ->)|[(Hm1 & Hm2 & ->)|[(Hm & e & Hv & ->)|[(Hm & b & e & Hv & Hc & ->)
       |(Hm & b & r & Hv & Hc & ->)]]]];
    try (now left);
    right; exists b; (split; [reflexivity|]); (split; [exact Hm|]);
    (split; [exact Hv|]); now destruct (validateRequest_accepts _ _ Hv).
Qed.

(** X23.  The reply says [success: true] only with status 200, and
    then carries the text [performOcr] made of the annotation; every
    reply of status 500 says [success: false], carries the message
    of the error that was caught in [details], and was logged. *)
Theorem reply_says_success_only_with_status_200 (req : HttpRequest) :
  match sent (fst (ocrHandler platform_text vision req)) with
  | SentText s => code (fst (ocrHandler platform_text vision req)) = 204 /\ s = []
  | SentJson v =>
      (code (fst (ocrHandler platform_text vision req)) = 200
       /\ get v (js "success") = JBool true
       /\ exists base64Image result,
            validateRequest (body req) = inr base64Image
            /\ vision base64Image = inr result
            /\ get v (js "text") = JStr (OcrFunction.performOcr result))
      \/ (code (fst (ocrHandler platform_text vision req)) = 500
          /\ get v (js "success") = JBool false
          /\ exists error,
               get v (js "details") = JStr (message platform_text error)
               /\ In (LogError error) (snd (ocrHandler platform_text vision req)))
      \/ (code (fst (ocrHandler platform_text vision req)) = 405
          /\ v = method_not_allowed)
  end.
Proof.
  destruct (ocrHandler_cases req)
    as [(Hm & ->)|[(Hm1 & Hm2 & ->)|[(Hm & e & Hv & ->)|[(Hm & b & e & Hv & Hc & ->)
       |(Hm & b & r & Hv & Hc & ->)]]]]; cbn [fst snd code sent].
  - now split.
  - right; right. now split.
  - right; left. split; [reflexivity|]. split; [reflexivity|].
    exists e. split; [reflexivity | now left].
  - right; left. split; [reflexivity|]. split; [reflexivity|].
    exists e. split; [reflexivity | simpl; tauto].
  - left. split; [reflexivity|]. split; [reflexivity|].
    exists b, r. split; [exact Hv|]. split; [exact Hc | reflexivity].
Qed.

End Handler.

(** ** The page and the cloud function together *)

Section Deployed.

Import OcrService.

Variable platform_text : Exn -> jsstring.
Variable vision : Vision.
Variable net : Network.
Variable w : World.
Variable st : ScanState.
Variables dataUrl jpeg : jsstring.
Hypothesis Hread : read_file w = ReadLoad dataUrl.
Hypothesis Hdecode : decode_image w dataUrl = ImageLoad jpeg.
Hypothesis Hnetwork : network w = deployed platform_text vision net.

(** The request of the page, as the handler receives it. *)
Lemma deployed_reply :
  network w [] (OcrRequest (base64_of jpeg))
  = inr (response_of
           (fst (ocrHandler platform_text vision
                   {| method := js "POST"; body := posted_body (base64_of jpeg) |}))).
Proof. now rewrite Hnetwork. Qed.

Lemma failure_body_fails (e : Exn) :
  nullish (failure_body platform_text e) = false
  /\ truthy (get (failure_body platform_text e) (js "success"))
     && truthy (get (failure_body platform_text e) (js "text")) = false.
Proof. split; reflexivity. Qed.

Lemma success_body_text (extractedText : jsstring) :
  nullish (OcrFunction.success_body extractedText) = false
  /\ truthy (get (OcrFunction.success_body extractedText) (js "success")) = true
  /\ get (OcrFunction.success_body extractedText) (js "text") = JStr extractedText.
Proof. repeat split. Qed.

(** X16.  Whatever goes wrong in the cloud function (the body does
    not validate, the Vision API rejects the image, or no text is
    found), the page shows the same message, that no text was
    detected: the reply of status 500 is read as an answer without
    text, and the message of the error does not reach the user. *)
Theorem service_failure_is_shown_as_no_text :
  (forall base64Image result,
     validateRequest (posted_body (base64_of jpeg)) = inr base64Image ->
     vision base64Image = inr result ->
     OcrFunction.performOcr result = []) ->
  scan w st = (Returned tt, (failed_with NoTextDetected, [ocr_request jpeg])).
Proof.
  intros Hnone.
  assert (Hmethods : js "OPTIONS" <> js "POST") by (vm_compute; discriminate).
  pose proof deployed_reply as Hnet.
  destruct (ocrHandler_cases platform_text vision
              {| method := js "POST"; body := posted_body (base64_of jpeg) |})
    as [(Hm & _)|[(_ & Hm & _)|[(_ & e & Hv & Hrun)|[(_ & b & e & Hv & Hc & Hrun)
       |(_ & b & r & Hv & Hc & Hrun)]]]]; cbn [method body] in *;
    [congruence | congruence | | |]; rewrite Hrun in Hnet; cbn [fst] in Hnet.
  - destruct (failure_body_fails e) as (Hdata & Hguard).
    exact (scan_no_text w st dataUrl jpeg Hread Hdecode _ Hnet _ eq_refl Hdata Hguard).
  - destruct (failure_body_fails e) as (Hdata & Hguard).
    exact (scan_no_text w st dataUrl jpeg Hread Hdecode _ Hnet _ eq_refl Hdata Hguard).
  - destruct (success_body_text (OcrFunction.performOcr r)) as (Hdata & Hsuccess & Htext).
    refine (scan_no_text w st dataUrl jpeg Hread Hdecode _ Hnet _ eq_refl Hdata _).
    rewrite Hsuccess, Htext, (Hnone b r Hv Hc). reflexivity.
Qed.

(** X17.  When the cloud function finds text and the report of the
    probe is shown, the page shows the text as its single line, and
    this line is the whole text the model is asked about: at most
    the first three lines of the cover, joined by the function. *)
Theorem service_text_is_the_single_line (base64Image : jsstring)
    (result : OcrFunction.AnnotateImageResponse) (h : Heartbeat) :
  validateRequest (posted_body (base64_of jpeg)) = inr base64Image ->
  vision base64Image = inr result ->
  OcrFunction.performOcr result <> [] ->
  probe_reported w jpeg h ->
  exists record more,
    scan w st
    = (Returned tt,
       (completed [OcrFunction.performOcr result] h record,
        ocr_request jpeg :: Fetch HeartbeatRequest
        :: Fetch (InferenceRequest (OcrFunction.performOcr result)) :: more)).
Proof.
  intros Hv Hc Htext (Hh & Hreport).
  assert (Hmethods : js "OPTIONS" <> js "POST") by (vm_compute; discriminate).
  pose proof deployed_reply as Hnet.
  destruct (ocrHandler_cases platform_text vision
              {| method := js "POST"; body := posted_body (base64_of jpeg) |})
    as [(Hm & _)|[(_ & Hm & _)|[(_ & e & Hv' & _)|[(_ & b & e & Hv' & Hc' & _)
       |(_ & b & r & Hv' & Hc' & Hrun)]]]]; cbn [method body] in *;
    try congruence.
  rewrite Hv in Hv'. injection Hv' as <-. rewrite Hc in Hc'. injection Hc' as <-.
  rewrite Hrun in Hnet. cbn [fst] in Hnet.
  destruct (success_body_text (OcrFunction.performOcr result))
    as (Hdata & Hsuccess & Hget).
  destruct (scan_proceeds w st dataUrl jpeg Hread Hdecode _ Hnet _ eq_refl Hdata
              _ h Hsuccess Hget Htext Hh Hreport) as (record & more & _ & Hscan).
  rewrite ocr_lines_performOcr in Hscan.
  destruct (OcrFunction.performOcr result) as [|c text] eqn:Hocr; [congruence|].
  exists record, more. exact Hscan.
Qed.

End Deployed.

Section Canvas.

Import OcrService.

(** X18.  The page cuts the data URL of the canvas at its first
    comma and sends what follows: for the JPEG the canvas encodes,
    this is the Base64 data itself, and it is what the cloud
    function validates and passes on. *)
Theorem canvas_image_reaches_the_function (base64 : jsstring) :
  is_base64 base64 = true ->
  base64_of (jpeg_prefix ++ base64) = JStr base64
  /\ validateRequest (posted_body (base64_of (jpeg_prefix ++ base64))) = inr base64.
Proof.
  intros H. destruct (is_base64_plain base64 H) as [_ Hcomma].
  assert (Hcut : base64_of (jpeg_prefix ++ base64) = JStr base64).
  { unfold base64_of.
    change (jpeg_prefix ++ base64)
      with (js "data:image/jpeg;base64" ++ 44%N :: base64).
    rewrite split_app by (vm_compute; intuition discriminate).
    now rewrite (split_whole 44%N base64 Hcomma). }
  split; [exact Hcut|]. rewrite Hcut. cbn [posted_body].
  rewrite <- (strip_data_url_base64 base64 H) at 2.
  apply validateRequest_image. now rewrite strip_data_url_base64.
Qed.

End Canvas.

Lemma service_failure_is_shown_as_no_text_witness :
  scan (Cases.deployed_world Scenario.jpeg_url Cases.vision_down Scenario.amichai_script)
    initial_state
  = (Returned tt, (failed_with NoTextDetected, [ocr_request Scenario.jpeg_url]))
  /\ scan (Cases.deployed_world Cases.blank_canvas_url
             (Cases.vision_reads Scenario.five_lines) Scenario.amichai_script)
       initial_state
     = (Returned tt, (failed_with NoTextDetected, [ocr_request Cases.blank_canvas_url])).
Proof.
  split.
  - apply (service_failure_is_shown_as_no_text Cases.node_text Cases.vision_down
             (Scenario.scripted Scenario.amichai_script)
             (Cases.deployed_world Scenario.jpeg_url Cases.vision_down
                Scenario.amichai_script) initial_state
             (js "data:image/png;base64,iVBORw0KGgo=") Scenario.jpeg_url
             eq_refl eq_refl eq_refl).
    intros base64Image result _ Hvision. discriminate Hvision.
  - apply (service_failure_is_shown_as_no_text Cases.node_text
             (Cases.vision_reads Scenario.five_lines)
             (Scenario.scripted Scenario.amichai_script)
             (Cases.deployed_world Cases.blank_canvas_url
                (Cases.vision_reads Scenario.five_lines) Scenario.amichai_script)
             initial_state
             (js "data:image/png;base64,iVBORw0KGgo=") Cases.blank_canvas_url
             eq_refl eq_refl eq_refl).
    intros base64Image result Hvalid. vm_compute in Hvalid. discriminate Hvalid.
Defined.

Lemma service_text_is_the_single_line_witness :
  exists record more,
    scan (Cases.deployed_world Scenario.jpeg_url
            (Cases.vision_reads Scenario.five_lines) Scenario.amichai_script)
      initial_state
    = (Returned tt,
       (completed [js "יהודה עמיחי שירי אהבה  שוקן"]
          (HeartbeatText (JStr (js "AI Heartbeat: OK"))) record,
        ocr_request Scenario.jpeg_url :: Fetch HeartbeatRequest
        :: Fetch (InferenceRequest (js "יהודה עמיחי שירי אהבה  שוקן")) :: more)).
Proof.
  assert (Hvalid :
    OcrService.validateRequest (OcrService.posted_body (base64_of Scenario.jpeg_url))
    = inr (js "/9j/4AAQ")) by (vm_compute; reflexivity).
  assert (Htext :
    OcrFunction.performOcr Scenario.five_lines = js "יהודה עמיחי שירי אהבה  שוקן")
    by (vm_compute; reflexivity).
  assert (Hne : OcrFunction.performOcr Scenario.five_lines <> [])
    by (rewrite Htext; vm_compute; discriminate).
  assert (Hprobe :
    probe_reported
      (Cases.deployed_world Scenario.jpeg_url
         (Cases.vision_reads Scenario.five_lines) Scenario.amichai_script)
      Scenario.jpeg_url (HeartbeatText (JStr (js "AI Heartbeat: OK"))))
    by (split; vm_compute; reflexivity).
  rewrite <- Htext.
  exact (service_text_is_the_single_line Cases.node_text
           (Cases.vision_reads Scenario.five_lines)
           (Scenario.scripted Scenario.amichai_script)
           (Cases.deployed_world Scenario.jpeg_url
              (Cases.vision_reads Scenario.five_lines) Scenario.amichai_script)
           initial_state
           (js "data:image/png;base64,iVBORw0KGgo=") Scenario.jpeg_url
           eq_refl eq_refl eq_refl (js "/9j/4AAQ") Scenario.five_lines
           (HeartbeatText (JStr (js "AI Heartbeat: OK")))
           Hvalid eq_refl Hne Hprobe).
Defined.

Lemma canvas_image_reaches_the_function_witness :
  base64_of Scenario.jpeg_url = JStr (js "/9j/4AAQ")
  /\ OcrService.validateRequest (OcrService.posted_body (base64_of Scenario.jpeg_url))
     = inr (js "/9j/4AAQ").
Proof.
  assert (H : OcrService.is_base64 (js "/9j/4AAQ") = true) by (vm_compute; reflexivity).
  assert (Hurl : Scenario.jpeg_url = OcrService.jpeg_prefix ++ js "/9j/4AAQ")
    by (vm_compute; reflexivity).
  rewrite Hurl. exact (canvas_image_reaches_the_function (js "/9j/4AAQ") H).
Defined.

(** ** What the page shows after a scan *)

Section Rendering.

Import Page.

Variable w : World.
Variable st : ScanState.

Lemma render_without_card (s : ScanState) :
  bookResult s = None -> render s <> None.
Proof. unfold render. intros ->. discriminate. Qed.

Lemma render_card_identification_failed : render_card identification_failed <> None.
Proof. vm_compute. discriminate. Qed.

(** X19.  The page can be rendered after every scan, except when
    the model returned a record that the card cannot show: a scan
    that was suspended, that failed, or that ended with the
    placeholder card always renders. *)
Theorem only_a_record_of_the_model_breaks_the_page :
  render (final_state (scan w st)) = None ->
  exists lines h record tr,
    scan w st = (Returned tt, (completed lines h record, tr))
    /\ truthy record = true
    /\ render_card record = None.
Proof.
  intros Hnone.
  destruct (scan_outcomes w st)
    as [Hrun|[(e & tr & Hrun & _)|[(lines & base64 & Hrun)
       |(lines & h & record & tr & Hrun)]]];
    rewrite Hrun in Hnone; unfold final_state in Hnone; cbn [fst snd] in Hnone.
  - now elim (render_without_card suspended).
  - now elim (render_without_card (failed_with e)).
  - now elim (render_without_card (report_failed lines)).
  - exists lines, h, record, tr. split; [exact Hrun|].
    unfold render, completed in Hnone. cbn [bookResult] in Hnone.
    destruct (truthy record) eqn:Hrecord.
    + rewrite Hrecord in Hnone. split; [reflexivity|].
      destruct (render_card record); [discriminate Hnone | reflexivity].
    + assert (Hplaceholder : truthy identification_failed = true) by reflexivity.
      rewrite Hplaceholder in Hnone.
      destruct (render_card identification_failed) eqn:Hcard; [discriminate Hnone|].
      now elim render_card_identification_failed.
Qed.

(** X20.  A record in which the model names the authors as anything
    truthy that is not an array (a string, most of the time) makes
    the render throw: once the report of the probe was shown, the
    scan completes and stores the record, and the card calls [join]
    on a value that has none. *)
Theorem authors_that_are_no_array_break_the_page (jpeg t : jsstring) (h : Heartbeat)
    (props : list (jsstring * JsValue)) :
  text_extracted w jpeg t ->
  probe_reported w jpeg h ->
  model_replied (network w) [ocr_request jpeg; Fetch HeartbeatRequest] (ocr_lines t)
    (JObj props) ->
  truthy (lookup (js "authors") props) = true ->
  (forall elems, lookup (js "authors") props <> JArr elems) ->
  (exists coverUri tr,
     scan w st
     = (Returned tt,
        (completed (ocr_lines t) h (JObj (set_prop (js "coverUri") coverUri props)), tr)))
  /\ render (final_state (scan w st)) = None.
Proof.
  intros (dataUrl & res & data & Hread & Hdecode & Hnet & Hjson & Hdata & Hsuccess
          & Htext & Ht)
         (Hh & Hreport)
         (res' & data' & text & Hnet' & Hjson' & Hdata' & Htext' & Hne & Hparse)
         Htruthy Hnoarray.
  assert (Hauthors : authors_child (lookup (js "authors") props) = None).
  { unfold authors_child. rewrite Htruthy.
    destruct (lookup (js "authors") props) as [| |b|lit|a|elems|obj];
      try reflexivity.
    now elim (Hnoarray elems). }
  destruct (scan_proceeds w st dataUrl jpeg Hread Hdecode res Hnet data Hjson Hdata
              t h Hsuccess Htext Ht Hh Hreport) as (record & more & Hrecord & Hscan).
  destruct (fetchBookData_parsed (network w) (ocr_lines t)
              [ocr_request jpeg; Fetch HeartbeatRequest] res' data' text (JObj props)
              Hnet' Hjson' Hdata' Htext' Hne Hparse eq_refl)
    as (coverUri & tr' & _ & Hrun).
  rewrite Hrun in Hrecord. injection Hrecord as <- _.
  split; [eexists coverUri, _; exact Hscan|].
  rewrite Hscan. unfold final_state, render, completed. cbn [fst snd bookResult truthy].
  unfold render_card.
  assert (Hget :
    get (JObj (set_prop (js "coverUri") coverUri props)) (js "authors")
    = lookup (js "authors") props).
  { cbn [get]. apply lookup_set_prop_other. vm_compute. reflexivity. }
  cbv zeta. rewrite Hget, Hauthors. reflexivity.
Qed.

(** X25.  So does a record whose authors are an array with an
    element that has no string form, such as an object whose
    [toString] is not a function: [join] converts each element and
    throws. *)
Theorem authors_without_string_form_break_the_page (jpeg t : jsstring) (h : Heartbeat)
    (props : list (jsstring * JsValue)) (elems : list JsValue) :
  text_extracted w jpeg t ->
  probe_reported w jpeg h ->
  model_replied (network w) [ocr_request jpeg; Fetch HeartbeatRequest] (ocr_lines t)
    (JObj props) ->
  lookup (js "authors") props = JArr elems ->
  forallb stringifiable elems = false ->
  render (final_state (scan w st)) = None.
Proof.
  intros (dataUrl & res & data & Hread & Hdecode & Hnet & Hjson & Hdata & Hsuccess
          & Htext & Ht)
         (Hh & Hreport)
         (res' & data' & text & Hnet' & Hjson' & Hdata' & Htext' & Hne & Hparse)
         Harray Hform.
  destruct (scan_proceeds w st dataUrl jpeg Hread Hdecode res Hnet data Hjson Hdata
              t h Hsuccess Htext Ht Hh Hreport) as (record & more & Hrecord & Hscan).
  destruct (fetchBookData_parsed (network w) (ocr_lines t)
              [ocr_request jpeg; Fetch HeartbeatRequest] res' data' text (JObj props)
              Hnet' Hjson' Hdata' Htext' Hne Hparse eq_refl)
    as (coverUri & tr' & _ & Hrun).
  rewrite Hrun in Hrecord. injection Hrecord as <- _.
  rewrite Hscan. unfold final_state, render, completed. cbn [fst snd bookResult truthy].
  unfold render_card.
  assert (Hget :
    get (JObj (set_prop (js "coverUri") coverUri props)) (js "authors")
    = JArr elems).
  { cbn [get]. rewrite <- Harray. apply lookup_set_prop_other. vm_compute. reflexivity. }
  cbv zeta. rewrite Hget. unfold authors_child. cbn [truthy]. now rewrite Hform.
Qed.

Lemma valid_child_optional_string (v : JsValue) :
  optional_string v = true -> valid_child v = true.
Proof. now destruct v. Qed.

Lemma valid_child_or_else (v : JsValue) (s : jsstring) :
  optional_string v = true -> valid_child (or_else v (JStr s)) = true.
Proof. unfold or_else. destruct v; try discriminate; now destruct (truthy _). Qed.

Lemma strings_stringifiable (elems : list JsValue) :
  forallb is_string elems = true -> forallb stringifiable elems = true.
Proof.
  induction elems as [|v elems IH]; [reflexivity|]. simpl. intros H.
  apply andb_prop in H. destruct H as [Hv Hrest]. rewrite (IH Hrest).
  now destruct v.
Qed.

(** X24.  A record whose fields have the types of [BookData] is
    always shown once the report of the probe was: after the scan
    the page renders, without an error and with the button enabled,
    a card with the title of the record; the card has no cover image
    or the non-empty address the cover lookup returned. *)
Theorem record_of_the_interface_is_shown (jpeg t : jsstring) (h : Heartbeat)
    (props : list (jsstring * JsValue)) :
  text_extracted w jpeg t ->
  probe_reported w jpeg h ->
  model_replied (network w) [ocr_request jpeg; Fetch HeartbeatRequest] (ocr_lines t)
    (JObj props) ->
  fits_BookData props = true ->
  exists view c,
    render (final_state (scan w st)) = Some view
    /\ button_disabled view = false
    /\ error_box view = None
    /\ card view = Some c
    /\ title c = lookup (js "title") props
    /\ (cover c = None \/ exists address, cover c = Some (JStr address) /\ address <> []).
Proof.
  intros (dataUrl & res & data & Hread & Hdecode & Hnet & Hjson & Hdata & Hsuccess
          & Htext & Ht)
         (Hh & Hreport)
         (res' & data' & text & Hnet' & Hjson' & Hdata' & Htext' & Hne & Hparse)
         Hfits.
  destruct (scan_proceeds w st dataUrl jpeg Hread Hdecode res Hnet data Hjson Hdata
              t h Hsuccess Htext Ht Hh Hreport) as (record & more & Hrecord & Hscan).
  destruct (fetchBookData_parsed (network w) (ocr_lines t)
              [ocr_request jpeg; Fetch HeartbeatRequest] res' data' text (JObj props)
              Hnet' Hjson' Hdata' Htext' Hne Hparse eq_refl)
    as (coverUri & tr' & Hcover & Hrun).
  rewrite Hrun in Hrecord. injection Hrecord as <- _.
  destruct (fetchCoverWithRetry_bounded (network w)
              (or_else (get (JObj props) (js "title")) (JStr [])) default_retries
              ([ocr_request jpeg; Fetch HeartbeatRequest]
               ++ [Fetch (InferenceRequest (join [LF] (ocr_lines t)))]))
    as (v & added & Hrun' & Hv & _).
  rewrite Hrun' in Hcover. injection Hcover as -> _.
  unfold fits_BookData in Hfits.
  repeat (apply andb_prop in Hfits; destruct Hfits as [Hfits ?]).
  assert (Hother : forall k,
            JsString.eqb k (js "coverUri") = false ->
            get (JObj (set_prop (js "coverUri") coverUri props)) k = lookup k props).
  { intros k Hk. cbn [get]. now apply lookup_set_prop_other. }
  assert (Hself : get (JObj (set_prop (js "coverUri") coverUri props)) (js "coverUri")
                  = coverUri).
  { cbn [get]. apply lookup_set_prop. }
  rewrite Hscan. unfold final_state, render, completed.
  cbn [fst snd bookResult isLoading error truthy own_props].
  unfold render_card. cbv zeta.
  rewrite Hself.
  rewrite !Hother by (vm_compute; reflexivity).
  assert (Hauthors : exists a, authors_child (lookup (js "authors") props) = Some a).
  { unfold authors_child.
    destruct (lookup (js "authors") props) as [| |b|lit|a|elems|obj];
      try discriminate; [eexists; reflexivity|].
    cbn [truthy]. rewrite strings_stringifiable by assumption.
    eexists; reflexivity. }
  destruct Hauthors as (a & ->).
  rewrite (valid_child_optional_string _ Hfits).
  rewrite !valid_child_or_else by assumption.
  rewrite valid_child_optional_string by assumption.
  cbn [andb]. eexists _, _. split; [reflexivity|].
  cbn [button_disabled error_box card title cover].
  repeat (split; [reflexivity|]).
  destruct Hv as [->|(address & -> & Haddress)].
  - now left.
  - right. exists address. destruct address; [congruence|]. now split.
Qed.

End Rendering.

Lemma only_a_record_of_the_model_breaks_the_page_witness :
  exists lines h record tr,
    scan (Scenario.world_of Scenario.jpeg_url Cases.byline_script) initial_state
    = (Returned tt, (completed lines h record, tr))
    /\ truthy record = true
    /\ Page.render_card record = None.
Proof.
  apply only_a_record_of_the_model_breaks_the_page. vm_compute. reflexivity.
Defined.

Lemma authors_that_are_no_array_break_the_page_witness :
  Page.render
    (final_state (scan (Scenario.world_of Scenario.jpeg_url Cases.byline_script)
                    initial_state))
  = None.
Proof.
  assert (Hne : Scenario.amichai_text <> []) by (vm_compute; discriminate).
  assert (Hextracted :
    text_extracted (Scenario.world_of Scenario.jpeg_url Cases.byline_script)
      Scenario.jpeg_url Scenario.amichai_text).
  { exists (js "data:image/png;base64,iVBORw0KGgo="),
      (mkResponse 200 (inr (Scenario.ocr_reply true Scenario.amichai_text))),
      (Scenario.ocr_reply true Scenario.amichai_text).
    repeat split; [exact Hne]. }
  assert (Hreplied :
    model_replied (network (Scenario.world_of Scenario.jpeg_url Cases.byline_script))
      [ocr_request Scenario.jpeg_url; Fetch HeartbeatRequest]
      (ocr_lines Scenario.amichai_text)
      (JObj [(js "title", JStr (js "שירי אהבה"));
             (js "authors", JStr (js "יהודה עמיחי"))])).
  { exists (mkResponse 200
              (inr (Scenario.ai_reply
                      (JStr (jsq "{'title':'שירי אהבה','authors':'יהודה עמיחי'}"))))),
      (Scenario.ai_reply (JStr (jsq "{'title':'שירי אהבה','authors':'יהודה עמיחי'}"))),
      (jsq "{'title':'שירי אהבה','authors':'יהודה עמיחי'}").
    split; [reflexivity|]. split; [reflexivity|]. split; [reflexivity|].
    split; [vm_compute; reflexivity|]. split; [vm_compute; discriminate|].
    vm_compute. reflexivity. }
  assert (Hprobe :
    probe_reported (Scenario.world_of Scenario.jpeg_url Cases.byline_script)
      Scenario.jpeg_url (HeartbeatText (JStr (js "AI Heartbeat: OK"))))
    by (split; vm_compute; reflexivity).
  apply (authors_that_are_no_array_break_the_page
           (Scenario.world_of Scenario.jpeg_url Cases.byline_script) initial_state
           Scenario.jpeg_url Scenario.amichai_text _ _ Hextracted Hprobe Hreplied).
  - vm_compute. reflexivity.
  - intros elems. vm_compute. discriminate.
Defined.

Lemma authors_without_string_form_break_the_page_witness :
  Page.render
    (final_state (scan (Scenario.world_of Scenario.jpeg_url Cases.opaque_author_script)
                    initial_state))
  = None.
Proof.
  assert (Hne : Scenario.amichai_text <> []) by (vm_compute; discriminate).
  assert (Hextracted :
    text_extracted (Scenario.world_of Scenario.jpeg_url Cases.opaque_author_script)
      Scenario.jpeg_url Scenario.amichai_text).
  { exists (js "data:image/png;base64,iVBORw0KGgo="),
      (mkResponse 200 (inr (Scenario.ocr_reply true Scenario.amichai_text))),
      (Scenario.ocr_reply true Scenario.amichai_text).
    repeat split; [exact Hne]. }
  assert (Hprobe :
    probe_reported (Scenario.world_of Scenario.jpeg_url Cases.opaque_author_script)
      Scenario.jpeg_url (HeartbeatText (JStr (js "AI Heartbeat: OK"))))
    by (split; vm_compute; reflexivity).
  assert (Hreplied :
    model_replied
      (network (Scenario.world_of Scenario.jpeg_url Cases.opaque_author_script))
      [ocr_request Scenario.jpeg_url; Fetch HeartbeatRequest]
      (ocr_lines Scenario.amichai_text)
      (JObj [(js "title", JStr (js "X"));
             (js "authors", JArr [JObj [(js "toString", JNum (js "0"))]])])).
  { exists (mkResponse 200
              (inr (Scenario.ai_reply
                      (JStr (jsq "{'title':'X','authors':[{'toString':0}]}"))))),
      (Scenario.ai_reply (JStr (jsq "{'title':'X','authors':[{'toString':0}]}"))),
      (jsq "{'title':'X','authors':[{'toString':0}]}").
    split; [reflexivity|]. split; [reflexivity|]. split; [reflexivity|].
    split; [vm_compute; reflexivity|]. split; [vm_compute; discriminate|].
    vm_compute. reflexivity. }
  apply (authors_without_string_form_break_the_page
           (Scenario.world_of Scenario.jpeg_url Cases.opaque_author_script)
           initial_state Scenario.jpeg_url Scenario.amichai_text _ _
           [JObj [(js "toString", JNum (js "0"))]] Hextracted Hprobe Hreplied).
  - vm_compute. reflexivity.
  - vm_compute. reflexivity.
Defined.

Lemma record_of_the_interface_is_shown_witness :
  exists view c,
    Page.render
      (final_state (scan (Scenario.world_of Scenario.jpeg_url Scenario.amichai_script)
                      initial_state))
    = Some view
    /\ Page.card view = Some c
    /\ Page.title c = JStr (js "שירי אהבה").
Proof.
  assert (Hne : Scenario.amichai_text <> []) by (vm_compute; discriminate).
  assert (Hextracted :
    text_extracted (Scenario.world_of Scenario.jpeg_url Scenario.amichai_script)
      Scenario.jpeg_url Scenario.amichai_text).
  { exists (js "data:image/png;base64,iVBORw0KGgo="),
      (mkResponse 200 (inr (Scenario.ocr_reply true Scenario.amichai_text))),
      (Scenario.ocr_reply true Scenario.amichai_text).
    repeat split; [exact Hne]. }
  assert (Hreplied :
    model_replied (network (Scenario.world_of Scenario.jpeg_url Scenario.amichai_script))
      [ocr_request Scenario.jpeg_url; Fetch HeartbeatRequest]
      (ocr_lines Scenario.amichai_text)
      (JObj [(js "title", JStr (js "שירי אהבה"));
             (js "authors", JArr [JStr (js "יהודה עמיחי")])])).
  { exists (mkResponse 200
              (inr (Scenario.ai_reply
                      (JStr (jsq "```json|{'title':'שירי אהבה','authors':['יהודה עמיחי']}|```"))))),
      (Scenario.ai_reply
         (JStr (jsq "```json|{'title':'שירי אהבה','authors':['יהודה עמיחי']}|```"))),
      (jsq "```json|{'title':'שירי אהבה','authors':['יהודה עמיחי']}|```").
    split; [reflexivity|]. split; [reflexivity|]. split; [reflexivity|].
    split; [vm_compute; reflexivity|]. split; [vm_compute; discriminate|].
    vm_compute. reflexivity. }
  assert (Hfits :
    fits_BookData [(js "title", JStr (js "שירי אהבה"));
                   (js "authors", JArr [JStr (js "יהודה עמיחי")])] = true)
    by (vm_compute; reflexivity).
  assert (Hprobe :
    probe_reported (Scenario.world_of Scenario.jpeg_url Scenario.amichai_script)
      Scenario.jpeg_url (HeartbeatText (JStr (js "AI Heartbeat: OK"))))
    by (split; vm_compute; reflexivity).
  destruct (record_of_the_interface_is_shown
              (Scenario.world_of Scenario.jpeg_url Scenario.amichai_script) initial_state
              Scenario.jpeg_url Scenario.amichai_text _ _ Hextracted Hprobe Hreplied
              Hfits)
    as (view & c & Hrender & _ & _ & Hcard & Htitle & _).
  exists view, c. split; [exact Hrender|]. split; [exact Hcard|].
  rewrite Htitle. vm_compute. reflexivity.
Defined.

(** ** The cost of a scan *)

Section Cost.

Variable w : World.
Variable st : ScanState.

(** The trace of a scan: nothing, the request to the text-extraction
    service alone, that request and the probe, or these two and the
    inference followed by what [fetchBookData] did. *)
Lemma scan_trace_shape :
  final_trace (scan w st) = []
  \/ (exists base64, final_trace (scan w st) = [Fetch (OcrRequest base64)])
  \/ (exists base64,
        final_trace (scan w st) = [Fetch (OcrRequest base64); Fetch HeartbeatRequest])
  \/ exists base64 lines result more,
       final_trace (scan w st)
       = Fetch (OcrRequest base64) :: Fetch HeartbeatRequest
         :: Fetch (InferenceRequest (join [LF] lines)) :: more
       /\ fetchBookData (network w) lines
            [Fetch (OcrRequest base64); Fetch HeartbeatRequest]
          = (Returned result,
             Fetch (OcrRequest base64) :: Fetch HeartbeatRequest
             :: Fetch (InferenceRequest (join [LF] lines)) :: more).
Proof.
  destruct (read_file w) as [|dataUrl] eqn:Hread.
  { left. now rewrite scan_read_error. }
  destruct (decode_image w dataUrl) as [|jpeg] eqn:Hdecode.
  { left. now rewrite (scan_image_error w st dataUrl Hread Hdecode). }
  destruct (extraction_fails_or_not w (base64_of jpeg)) as [Hfails|Hok].
  { right; left. exists (base64_of jpeg).
    destruct (scan_extraction_fails w st dataUrl jpeg Hread Hdecode Hfails)
      as (e & ->). reflexivity. }
  right; right. unfold extraction_fails in Hok.
  destruct (network w [] (OcrRequest (base64_of jpeg))) as [e|res] eqn:Hnet;
    [now elim Hok|].
  destruct (json res) as [e|data] eqn:Hjson; [now elim Hok|].
  destruct (nullish data) eqn:Hdata; [elim Hok; now left|].
  destruct (truthy (get data (js "success"))) eqn:Hsuccess;
    [|elim Hok; right; now left].
  destruct (get data (js "text")) as [| |b|lit|t|elems|props] eqn:Htext;
    try (elim Hok; right; right; intros t'; discriminate).
  assert (Ht : t <> []).
  { intros ->. elim Hok. right; now left. }
  destruct (scan_probed w jpeg) as (h & Hh).
  destruct (reportable h) eqn:Hreport.
  - right.
    destruct (scan_proceeds w st dataUrl jpeg Hread Hdecode res Hnet data Hjson Hdata
                t h Hsuccess Htext Ht Hh Hreport) as (result & more & Hresult & ->).
    exists (base64_of jpeg), (ocr_lines t), result, more. split; [reflexivity|].
    exact Hresult.
  - left. exists (base64_of jpeg).
    now rewrite (scan_report_throws w st dataUrl jpeg Hread Hdecode res Hnet data Hjson
                   Hdata t h Hsuccess Htext Ht Hh Hreport).
Qed.

(** X21.  A scan costs at most five requests (one to the
    text-extraction service, the probe, the inference, and at most
    two for the cover) and waits at most two seconds between
    them. *)
Theorem scan_costs_at_most_five_requests :
  (requests (final_trace (scan w st)) <= 5)%nat
  /\ (cover_requests (final_trace (scan w st)) <= default_retries)%nat
  /\ (waited (final_trace (scan w st)) <= 2000)%N.
Proof.
  destruct scan_trace_shape
    as [->|[(base64 & ->)|[(base64 & ->)
       |(base64 & lines & result & more & -> & Hrun)]]];
    [split; [|split]; [vm_compute; lia | vm_compute; lia | vm_compute; discriminate]
    |split; [|split]; [vm_compute; lia | vm_compute; lia | vm_compute; discriminate]
    |split; [|split]; [vm_compute; lia | vm_compute; lia | vm_compute; discriminate]|].
  destruct (fetchBookData_ends (network w) lines
              [Fetch (OcrRequest base64); Fetch HeartbeatRequest])
    as (result' & more' & Hrun' & Hends).
  rewrite Hrun in Hrun'. simpl in Hrun'. injection Hrun' as _ <-.
  unfold requests, cover_requests.
  cbn [filter is_request is_cover_request List.length waited fold_right].
  fold (waited more). fold (requests more). fold (cover_requests more).
  destruct Hends
    as [(_ & ->)|[(_ & e & ->)|(_ & title & Hall & Hcount & Hwaits & _)]];
    [split; [|split]; [vm_compute; lia | vm_compute; lia | vm_compute; discriminate]
    |split; [|split]; [vm_compute; lia | vm_compute; lia | vm_compute; discriminate]|].
  destruct (cover_events_cost title more Hall) as (-> & ->).
  unfold default_retries in *. lia.
Qed.

End Cost.

(** ** When the function finds no text *)

Section NoText.

Import OcrFunction.

(** X22.  [performOcr] returns the empty text exactly when no line
    of the detected text has two characters or more once trimmed, and
    this is exactly when the reply of the function says that no text
    was detected; a text that is returned has at least two
    characters. *)
Theorem no_text_means_no_qualifying_line (r : AnnotateImageResponse) :
  (performOcr r = [] <-> qualifying_lines r = [])
  /\ (get (success_body (performOcr r)) (js "message")
      = JStr (js "No text detected in the image.")
      <-> qualifying_lines r = [])
  /\ (performOcr r = [] \/ (1 < List.length (performOcr r))%nat).
Proof.
  assert (Hlong : performOcr r = [] \/ (1 < List.length (performOcr r))%nat).
  { destruct (performOcr r) as [|c s] eqn:H; [now left|]. right.
    rewrite <- H. apply performOcr_long. rewrite H. discriminate. }
  assert (Hiff : performOcr r = [] <-> qualifying_lines r = []).
  { split.
    - intros Hnone. destruct (qualifying_lines r) as [|p rest] eqn:Hq; [reflexivity|].
      exfalso. rewrite performOcr_unfold, Hq in Hnone.
      assert (Hp : keeps p = true).
      { assert (Hin : In p (qualifying_lines r)) by (rewrite Hq; now left).
        unfold qualifying_lines in Hin. now apply filter_In in Hin. }
      unfold keeps in Hp. apply Nat.ltb_lt in Hp.
      assert (Hjoin : exists tail, join [SPACE] (firstn 3 (p :: rest)) = p ++ tail).
      { change (firstn 3 (p :: rest)) with (p :: firstn 2 rest).
        destruct (firstn 2 rest) as [|q more];
          [exists []; simpl; now rewrite app_nil_r|].
        now exists ([SPACE] ++ join [SPACE] (q :: more)). }
      destruct Hjoin as (tail & Hjoin). rewrite Hjoin in Hnone.
      pose proof (trim_app_length p tail) as Hle. rewrite Hnone in Hle.
      simpl in Hle. lia.
    - intros Hq. now rewrite performOcr_unfold, Hq. }
  split; [exact Hiff|]. split; [|exact Hlong].
  rewrite <- Hiff. unfold success_body.
  destruct (performOcr r) as [|c s].
  - split; reflexivity.
  - split; [|discriminate]. intros H. exfalso. vm_compute in H. discriminate H.
Qed.

End NoText.
